(** * Implib.so generator: a shallow embedding of [implib-gen.py]

    The development follows the Python source function by function.
    Python strings are modelled by [string] (ASCII text, which is what the
    external tools print under the C locale), Python integers by [Z],
    dictionaries with string keys by [gmap string _], exceptions and
    [sys.exit] by an error monad. *)

From Stdlib Require Import ZArith Ascii String List Permutation Lia.
From Stdlib Require Import DecimalString HexadecimalString.
From stdpp Require Import base option list gmap strings sorting.

Open Scope Z_scope.

(** ** Exceptions and the error monad *)

Inductive exn : Type :=
| KeyError (key : string)
| ValueError (what : string)
| TypeError
| IndexError
| AssertionError
| OSError
| UnicodeDecodeError
| SystemExit (msg : string).

Inductive res (A : Type) : Type :=
| OK (a : A)
| Raise (e : exn).
Arguments OK {A} a.
Arguments Raise {A} e.

#[global] Instance res_fmap : FMap res := λ A B f m,
  match m with OK a => OK (f a) | Raise e => Raise e end.

Definition bind {A B} (m : res A) (f : A → res B) : res B :=
  match m with OK a => f a | Raise e => Raise e end.

Notation "x <- m ;; k" := (bind m (fun x => k))
  (at level 100, m at next level, right associativity).

(** [error(msg)]: print the decorated message and [sys.exit(1)]. *)
Definition error {A} (msg : string) : res A := Raise (SystemExit msg).

Definition is_OK {A} (r : res A) : bool :=
  match r with OK _ => true | Raise _ => false end.

(** ** Characters and strings *)

Definition LF : ascii := "010"%char.
Definition CR : ascii := "013"%char.
Definition nl : string := String LF "".

Definition code (c : ascii) : Z := Z.of_N (N_of_ascii c).

Definition ascii_eqb (a b : ascii) : bool := bool_decide (a = b).

(** [str.isspace] on ASCII: TAB..CR, FS..US and the blank. *)
Definition is_space (c : ascii) : bool :=
  let n := code c in
  ((9 <=? n) && (n <=? 13)) || ((28 <=? n) && (n <=? 32)).

(** Line boundaries recognised by [str.splitlines] (ASCII part). *)
Definition is_linebreak (c : ascii) : bool :=
  let n := code c in
  ((10 <=? n) && (n <=? 13)) || ((28 <=? n) && (n <=? 30)).

Definition is_upper_char (c : ascii) : bool :=
  let n := code c in (65 <=? n) && (n <=? 90).
Definition is_lower_char (c : ascii) : bool :=
  let n := code c in (97 <=? n) && (n <=? 122).
Definition is_digit_char (c : ascii) : bool :=
  let n := code c in (48 <=? n) && (n <=? 57).
Definition is_alnum_us (c : ascii) : bool :=
  is_upper_char c || is_lower_char c || is_digit_char c || ascii_eqb c "_".

Definition upper_char (c : ascii) : ascii :=
  if is_lower_char c then ascii_of_N (N_of_ascii c - 32) else c.

Fixpoint str_map (f : ascii → ascii) (s : string) : string :=
  match s with
  | EmptyString => EmptyString
  | String c s' => String (f c) (str_map f s')
  end.

Fixpoint str_exists (p : ascii → bool) (s : string) : bool :=
  match s with
  | EmptyString => false
  | String c s' => p c || str_exists p s'
  end.

Fixpoint str_forall (p : ascii → bool) (s : string) : bool :=
  match s with
  | EmptyString => true
  | String c s' => p c && str_forall p s'
  end.

(** [s.upper()] *)
Definition upper (s : string) : string := str_map upper_char s.

(** [s.isupper()]: some cased character, and no lower-case one. *)
Definition isupper (s : string) : bool :=
  str_exists is_upper_char s && negb (str_exists is_lower_char s).

(** [c in s] for a one-character [c]. *)
Definition has_char (c : ascii) (s : string) : bool :=
  str_exists (ascii_eqb c) s.

(** [s.startswith(p)] *)
Fixpoint startswith (p s : string) : bool :=
  match p, s with
  | EmptyString, _ => true
  | String a p', String b s' => ascii_eqb a b && startswith p' s'
  | String _ _, EmptyString => false
  end.

(** [sub in s] *)
Fixpoint contains (sub s : string) : bool :=
  startswith sub s ||
  match s with
  | EmptyString => false
  | String _ s' => contains sub s'
  end.

(** [s.endswith(p)] *)
Definition endswith (p s : string) : bool :=
  startswith (String.rev p) (String.rev s).

Fixpoint lstrip (s : string) : string :=
  match s with
  | EmptyString => EmptyString
  | String c s' => if is_space c then lstrip s' else s
  end.

(** [s.strip()] *)
Definition strip (s : string) : string :=
  String.rev (lstrip (String.rev (lstrip s))).

(** Prepend a character to the first piece of a list of pieces. *)
Definition cons_head (c : ascii) (ps : list string) : list string :=
  match ps with
  | [] => [String c ""]
  | p :: ps' => String c p :: ps'
  end.

(** [s.splitlines()] *)
Fixpoint splitlines (s : string) : list string :=
  match s with
  | EmptyString => []
  | String c s' =>
      if ascii_eqb c CR then
        match s' with
        | String c' s'' =>
            if ascii_eqb c' LF then "" :: splitlines s'' else "" :: splitlines s'
        | EmptyString => [""]
        end
      else if is_linebreak c then "" :: splitlines s'
      else cons_head c (splitlines s')
  end.

(** [s.split(c)] for a one-character separator: every occurrence splits. *)
Fixpoint split_char (c : ascii) (s : string) : list string :=
  match s with
  | EmptyString => [""]
  | String x s' =>
      if ascii_eqb x c then "" :: split_char c s'
      else cons_head x (split_char c s')
  end.

(** [re.split(r"X+", s)] for a character class [X]: the pieces between the
    maximal runs of separator characters, empty end pieces included. *)
Fixpoint split_runs_go (sep : ascii → bool) (in_run : bool) (s : string)
  : list string :=
  match s with
  | EmptyString => [""]
  | String c s' =>
      if sep c then
        if in_run then split_runs_go sep true s'
        else "" :: split_runs_go sep true s'
      else cons_head c (split_runs_go sep false s')
  end.
Definition split_runs (sep : ascii → bool) (s : string) : list string :=
  split_runs_go sep false s.

Definition nonempty (s : string) : bool := negb (bool_decide (s = "")).

(** [s.split()]: the whitespace-separated words. *)
Definition split_ws (s : string) : list string :=
  filter (λ w, nonempty w = true) (split_runs is_space s).

(** ** [int(s, base)] *)

Definition digit_val (c : ascii) : option Z :=
  let n := code c in
  if is_digit_char c then Some (n - 48)
  else if is_lower_char c then Some (n - 87)
  else if is_upper_char c then Some (n - 55)
  else None.

Definition digit_in (base : Z) (c : ascii) : option Z :=
  match digit_val c with
  | Some d => if d <? base then Some d else None
  | None => None
  end.

(** Digits separated by single underscores; [need_digit] holds at the start
    and just after an underscore, where a digit must follow. *)
Fixpoint digits_go (base acc : Z) (need_digit : bool) (s : string) : option Z :=
  match s with
  | EmptyString => if need_digit then None else Some acc
  | String c s' =>
      if ascii_eqb c "_" then
        if need_digit then None else digits_go base acc true s'
      else
        match digit_in base c with
        | Some d => digits_go base (acc * base + d) false s'
        | None => None
        end
  end.

(** A digit string; [lead_us] says whether one underscore may precede the
    first digit (it may after a base prefix). *)
Definition digits (base : Z) (lead_us : bool) (s : string) : option Z :=
  match s with
  | EmptyString => None
  | String c s' =>
      if ascii_eqb c "_" then
        if lead_us then digits_go base 0 true s' else None
      else digits_go base 0 true s
  end.

Definition prefix_base (c : ascii) : option Z :=
  if ascii_eqb c "x" || ascii_eqb c "X" then Some 16
  else if ascii_eqb c "o" || ascii_eqb c "O" then Some 8
  else if ascii_eqb c "b" || ascii_eqb c "B" then Some 2
  else None.

Definition unsigned_int (base : Z) (s : string) : option Z :=
  match s with
  | String "0" (String p s') =>
      match prefix_base p with
      | Some b =>
          if (base =? 0) || (base =? b) then digits b true s'
          else digits base false s
      | None =>
          if base =? 0 then
            (* decimal with leading zeros: only zero itself is accepted *)
            match digits 10 false s with
            | Some 0 => Some 0
            | _ => None
            end
          else digits base false s
      end
  | _ => digits (if base =? 0 then 10 else base) false s
  end.

(** [int(s, base)] for [base] 0 or 2..36. *)
Definition py_int (base : Z) (s : string) : res Z :=
  let s := strip s in
  let '(neg, body) :=
    match s with
    | String "-" s' => (true, s')
    | String "+" s' => (false, s')
    | _ => (false, s)
    end in
  match unsigned_int base body with
  | Some n => OK (if neg then - n else n)
  | None => Raise (ValueError "invalid literal for int()")
  end.


(** [str(n)] and [format(n, "x")] *)
Definition str_of_Z (n : Z) : string :=
  DecimalString.NilZero.string_of_int (Z.to_int n).
Definition hex_of_Z (n : Z) : string :=
  HexadecimalString.NilZero.string_of_int (Z.to_hex_int n).

(** ** Regular-expression substitutions used by the parsers *)

(** [re.sub] for a pattern that never matches the empty string: [m s] is
    the length of the match at the start of [s], if there is one. *)
Fixpoint re_sub_go (m : string → option nat) (repl : string) (skip : nat)
    (s : string) : string :=
  match s with
  | EmptyString => EmptyString
  | String c s' =>
      match skip with
      | S k => re_sub_go m repl k s'
      | O =>
          match m s with
          | Some (S n) => repl +:+ re_sub_go m repl n s'
          | _ => String c (re_sub_go m repl O s')
          end
      end
  end.
Definition re_sub (m : string → option nat) (repl s : string) : string :=
  re_sub_go m repl O s.

Definition match_literal (lit s : string) : option nat :=
  if startswith lit s then Some (String.length lit) else None.

Fixpoint drop_str (n : nat) (s : string) : string :=
  match n, s with
  | S k, String _ s' => drop_str k s'
  | _, _ => s
  end.

Fixpoint span_len (p : ascii → bool) (s : string) : nat :=
  match s with
  | String c s' => if p c then S (span_len p s') else O
  | EmptyString => O
  end.

(** [\[<localentry>: [0-9]+\]] *)
Definition match_localentry (s : string) : option nat :=
  let lit := "[<localentry>: " in
  if startswith lit s then
    let rest := drop_str (String.length lit) s in
    let d := span_len is_digit_char rest in
    if (0 <? d)%nat && startswith "]" (drop_str d rest)
    then Some (String.length lit + d + 1)%nat
    else None
  else None.

(** [\[\s+] *)
Definition match_bracket_spaces (s : string) : option nat :=
  match s with
  | String "[" rest =>
      let d := span_len is_space rest in
      if (0 <? d)%nat then Some (S d) else None
  | _ => None
  end.

(** [re.sub(r"@.*", "", s)]: the dot stops at a line feed. *)
Fixpoint strip_at_go (dropping : bool) (s : string) : string :=
  match s with
  | EmptyString => EmptyString
  | String c s' =>
      if dropping then
        if ascii_eqb c LF then String c (strip_at_go false s')
        else strip_at_go true s'
      else if ascii_eqb c "@" then strip_at_go true s'
      else String c (strip_at_go false s')
  end.
Definition strip_at (s : string) : string := strip_at_go false s.

(** [s.replace(c, "")] *)
Fixpoint remove_char (c : ascii) (s : string) : string :=
  match s with
  | EmptyString => EmptyString
  | String x s' =>
      if ascii_eqb x c then remove_char c s' else String x (remove_char c s')
  end.

(** ** Values and rows *)

(** The values the parsers keep in their dictionaries: cells as text,
    converted numbers, the [Default] flag, the absent [Version], and the
    [(name, addend)] target of a relocation. *)
Inductive pyval : Type :=
| VStr (s : string)
| VInt (n : Z)
| VBool (b : bool)
| VNone
| VPair (name : string) (addend : Z).

#[global] Instance pyval_eq_dec : EqDecision pyval.
Proof. solve_decision. Defined.

Abbreviation row := (gmap string pyval).

(** A dictionary that is iterated in an order that depends on the order of
    insertion ([cls_syms], sorted by address with a stable sort) is kept as
    the list of its items, with distinct keys. *)
Abbreviation odict V := (list (string * V)).

(** [a == b] *)
Definition py_eq (a b : pyval) : bool :=
  match a, b with
  | VInt n, VBool c | VBool c, VInt n => n =? (if c then 1 else 0)
  | _, _ => bool_decide (a = b)
  end.
Definition py_ne (a b : pyval) : bool := negb (py_eq a b).

(** [a in l] for a list [l] *)
Definition py_in (a : pyval) (l : list pyval) : bool := existsb (py_eq a) l.

(** Truth value of an object. *)
Definition truthy (v : pyval) : bool :=
  match v with
  | VStr s => nonempty s
  | VInt n => negb (n =? 0)
  | VBool b => b
  | VNone => false
  | VPair _ _ => true
  end.

(** [d[k]] *)
Definition getitem (d : row) (k : string) : res pyval :=
  match d !! k with
  | Some v => OK v
  | None => Raise (KeyError k)
  end.

Definition as_str (v : pyval) : res string :=
  match v with VStr s => OK s | _ => Raise TypeError end.
Definition as_int (v : pyval) : res Z :=
  match v with
  | VInt n => OK n
  | VBool b => OK (if b then 1 else 0)
  | _ => Raise TypeError
  end.

(** [d[k]] where the code goes on to use the value as text or as a number. *)
Definition get_str (d : row) (k : string) : res string :=
  v <- getitem d k ;; as_str v.
Definition get_int (d : row) (k : string) : res Z :=
  v <- getitem d k ;; as_int v.

(** ** Column tables and rows of tool output *)

(** [make_toc]: a table of contents maps the column index to the column
    name; the indices are [0 .. len-1] in order, so it is kept as a list. *)
Definition make_toc (words : list string) (renames : gmap string string)
  : list string :=
  map (λ n, default n (renames !! n)) words.

(** [int(v, 16)] on a cell. *)
Definition int16 (v : pyval) : res pyval :=
  match v with
  | VStr s => VInt <$> py_int 16 s
  | _ => Raise TypeError
  end.

Fixpoint hex_convert (hex_keys : list string) (vals : row) : res row :=
  match hex_keys with
  | [] => OK vals
  | k :: ks =>
      v <- getitem vals k ;;
      if truthy v then
        n <- int16 v ;; hex_convert ks (<[k := n]> vals)
      else hex_convert ks vals
  end.

(** [parse_row]: map the words of a line to the columns of the header; a
    missing word reads as the empty string. *)
Definition parse_row (words toc hex_keys : list string) : res row :=
  let vals : row :=
    foldl (λ (m : row) (ik : nat * string),
             <[ik.2 := VStr (default "" (words !! ik.1))]> m)
          ∅ (imap pair toc) in
  hex_convert hex_keys vals.

(** ** The outside world

    The external programs are functions from a command line and a standard
    input to what the child printed and returned; a program that cannot be
    started raises [OSError]. Files are read through [read_text] (the
    characters of a text file, before the line ends are translated) and
    [read_bytes] (a binary file); [config_get path section key]
    is the value [configparser] finds in the file at [path], and
    [script_root] the directory of the script. *)

Inductive tool_result : Type :=
| Ran (out err : string) (retcode : Z)
| NotStarted.

Record world : Type := World {
  run_tool : list string → string → tool_result;
  read_text : string → res string;
  read_bytes : string → res (list Z);
  path_exists : string → bool;
  config_get : string → string → string → res string;
  script_root : string
}.

Section with_world.
Context (w : world).

(** [run]: run an external program and abort on a non-zero exit status
    or on any output to its standard error. *)
Definition run (args : list string) (stdin : string) : res (string * string) :=
  match run_tool w args stdin with
  | NotStarted => Raise OSError
  | Ran out err retcode =>
      if negb (retcode =? 0) || nonempty err then
        error (default "" (head args) +:+ " failed with retcode "
               +:+ str_of_Z retcode +:+ ":" +:+ nl +:+ err)
      else OK (out, err)
  end.

(** The [try: ... "Mach-O" in file_out ... except OSError] probe shared by
    the collectors; [None] stands for the [except] branch. *)
Definition probe_macho (f : string) : res (option bool) :=
  match run ["file"; f] "" with
  | OK (file_out, _) => OK (Some (contains "Mach-O" file_out))
  | Raise OSError => OK None
  | Raise e => Raise e
  end.

(** *** [collect_syms] *)

(** The visibility table read from [nm -g]. *)
Definition nm_visibility_line (visibility : gmap string string) (line : string)
  : gmap string string :=
  match split_ws line with
  | _ :: symbol_type :: symbol_name :: _ =>
      <[symbol_name := if isupper symbol_type then "DEFAULT" else "HIDDEN"]>
        visibility
  | _ => visibility
  end.

Definition nm_visibility (nm_out : string) : gmap string string :=
  foldl nm_visibility_line ∅ (splitlines nm_out).

(** The dictionary built for a symbol of a Mach-O file. *)
Definition macho_symbol (visibility : gmap string string) (value : Z)
    (symbol_type name : string) : row :=
  <["Visibility" := VStr (default "DEFAULT" (visibility !! name))]>
  (<["Version" := VNone]>
  (<["Default" := VBool true]>
  (<["Ndx" := VStr (if bool_decide (upper symbol_type ≠ "U")
                    then "1" else "UND")]>
  (<["Bind" := VStr (if isupper symbol_type then "GLOBAL" else "LOCAL")]>
  (<["Type" := VStr (if bool_decide (upper symbol_type = "T")
                     then "FUNC" else "OBJECT")]>
  (<["Size" := VInt 0]>
  (<["Value" := VInt value]>
  (<["Name" := VStr name]> ∅)))))))).

(** The loop over the [nm -D] lines of a Mach-O file. *)
Fixpoint macho_loop (visibility : gmap string string) (lines : list string)
    (syms : list row) (syms_set : gset string) : res (list row) :=
  match lines with
  | [] => OK syms
  | line :: rest =>
      let line := strip line in
      if negb (nonempty line) then macho_loop visibility rest syms syms_set
      else
        match split_ws line with
        | address :: symbol_type :: name :: _ =>
            if bool_decide (name ∈ syms_set) then
              macho_loop visibility rest syms syms_set
            else
              let syms_set := {[name]} ∪ syms_set in
              value <- (if bool_decide (address ≠ "U")
                        then py_int 16 address else OK 0) ;;
              macho_loop visibility rest
                (syms ++ [macho_symbol visibility value symbol_type name])
                syms_set
        | _ => macho_loop visibility rest syms syms_set
        end
  end.

(** Lines 212-219: the version suffix of an ELF symbol name. The result is
    the updated symbol and the name used from here on. *)
Definition set_version (sym : row) (name : string) : res (row * string) :=
  if has_char "@" name then
    let sym := <["Default" := VBool (contains "@@" name)]> sym in
    match split_runs (ascii_eqb "@") name with
    | [name'; ver] =>
        OK (<["Version" := VStr ver]> (<["Name" := VStr name']> sym), name')
    | _ => Raise (ValueError "wrong number of values to unpack")
    end
  else
    OK (<["Version" := VNone]> (<["Default" := VBool true]> sym), name).

(** The body of the ELF loop for a data row (lines 202-223). [None] is the
    [continue] of an empty or already seen name. *)
Definition elf_symbol_row (visibility : gmap string string)
    (words toc : list string) (syms_set : gset string)
  : res (option (row * string)) :=
  sym <- parse_row words toc ["Value"] ;;
  name <- get_str sym "Name" ;;
  if negb (nonempty name) then OK None
  else if bool_decide (name ∈ syms_set) then OK None
  else
    size_cell <- get_str sym "Size" ;;
    size <- py_int 0 size_cell ;;
    let sym := <["Size" := VInt size]> sym in
    versioned <- set_version sym name ;;
    let sym := versioned.1 in
    let stored := versioned.2 in
    let sym :=
      <["Visibility" := VStr (default "DEFAULT" (visibility !! stored))]> sym in
    OK (Some (sym, name)).

(** The loop over the [readelf -sW] lines; the state is the current table
    of contents, the symbols collected so far and the names seen. *)
Fixpoint elf_loop (visibility : gmap string string) (lines : list string)
    (toc : option (list string)) (syms : list row) (syms_set : gset string)
  : res (option (list string) * list row * gset string) :=
  match lines with
  | [] => OK (toc, syms, syms_set)
  | line :: rest =>
      let line := strip line in
      let line := re_sub match_localentry "" line in
      if negb (nonempty line) then elf_loop visibility rest None syms syms_set
      else
        let words := split_runs (ascii_eqb " ") line in
        if startswith "Num" line then
          match toc with
          | Some _ => error "multiple headers in output of readelf"
          | None =>
              elf_loop visibility rest
                (Some (make_toc (map (remove_char ":") words) ∅)) syms syms_set
          end
        else
          match toc with
          | Some t =>
              r <- elf_symbol_row visibility words t syms_set ;;
              match r with
              | Some (sym, name) =>
                  elf_loop visibility rest toc (syms ++ [sym])
                           ({[name]} ∪ syms_set)
              | None => elf_loop visibility rest toc syms syms_set
              end
          | None => elf_loop visibility rest toc syms syms_set
          end
  end.

(** [collect_syms]: the dynamic symbol table, with the visibility that
    [nm] reports. *)
Definition collect_syms (f : string) : res (list row) :=
  nm_out <- fst <$> run ["nm"; "-g"; f] "" ;;
  let visibility := nm_visibility nm_out in
  probe <- probe_macho f ;;
  let is_macho : bool := default false probe in
  if is_macho then
    nm_detailed_out <- fst <$> run ["nm"; "-D"; f] "" ;;
    macho_loop visibility (splitlines nm_detailed_out) [] ∅
  else
    readelf_out <- fst <$> run ["readelf"; "-sW"; f] "" ;;
    st <- elf_loop visibility (splitlines readelf_out) None [] ∅ ;;
    match st.1.1 with
    | None => error ("failed to analyze symbols in " +:+ f)
    | Some _ => OK st.1.2
    end.

(** *** [collect_def_exports] *)

(** [f.readlines()] of a text file: universal newlines, each line keeps
    its line feed. *)
Fixpoint readlines (s : string) : list string :=
  match s with
  | EmptyString => []
  | String c s' =>
      if ascii_eqb c CR then
        match s' with
        | String c' s'' =>
            if ascii_eqb c' LF then nl :: readlines s'' else nl :: readlines s'
        | EmptyString => [nl]
        end
      else if ascii_eqb c LF then nl :: readlines s'
      else
        match readlines s' with
        | [] => [String c ""]
        | l :: ls => String c l :: ls
        end
  end.

(** [^\s*;] *)
Definition is_def_comment (line : string) : bool :=
  startswith ";" (lstrip line).

Fixpoint take_str (n : nat) (s : string) : string :=
  match n, s with
  | S k, String c s' => String c (take_str k s')
  | _, _ => EmptyString
  end.

(** [^\s+([A-Za-z0-9_]+)\s*$]: the identifier, if the line matches. *)
Definition match_def_export (line : string) : option string :=
  let lead := span_len is_space line in
  let rest := drop_str lead line in
  let n := span_len is_alnum_us rest in
  if (0 <? lead)%nat && (0 <? n)%nat
     && str_forall is_space (drop_str n rest)
  then Some (take_str n rest) else None.

Definition def_symbol (name : string) : row :=
  <["Visibility" := VStr "DEFAULT"]>
  (<["Size" := VInt 0]>
  (<["Version" := VNone]>
  (<["Default" := VBool true]>
  (<["Ndx" := VStr "0"]>
  (<["Type" := VStr "FUNC"]>
  (<["Bind" := VStr "GLOBAL"]>
  (<["Name" := VStr name]> ∅))))))).

(** The two nested [while] loops: [in_exports] tells the inner loop from
    the outer one; a line the inner loop pushes back is read again by the
    outer loop. *)
Fixpoint def_loop (in_exports : bool) (lines : list string) (syms : list row)
  : list row :=
  match lines with
  | [] => syms
  | line :: rest =>
      let outer :=
        if bool_decide (strip line = "EXPORTS") then def_loop true rest syms
        else def_loop false rest syms in
      if in_exports then
        if is_def_comment line then def_loop true rest syms
        else
          match match_def_export line with
          | Some name => def_loop true rest (syms ++ [def_symbol name])
          | None => outer
          end
      else outer
  end.

(** [collect_def_exports]; the warning about an empty list is not kept. *)
Definition collect_def_exports (filename : string) : res (list row) :=
  match read_text w filename with
  | OK text => OK (def_loop false (readlines text) [])
  | Raise UnicodeDecodeError | Raise OSError => OK []
  | Raise e => Raise e
  end.

(** *** [collect_relocs] *)

(** [re.split(r"\s\s+", line)]: only runs of two or more blanks split. *)
Fixpoint split_wide_go (in_run : bool) (s : string) : list string :=
  match s with
  | EmptyString => [""]
  | String c s' =>
      if in_run then
        if is_space c then split_wide_go true s'
        else cons_head c (split_wide_go false s')
      else if is_space c
              && match s' with String c' _ => is_space c' | _ => false end
      then "" :: split_wide_go true s'
      else cons_head c (split_wide_go false s')
  end.
Definition split_wide (s : string) : list string := split_wide_go false s.

(** [^\s*Type[0-9]:] *)
Definition is_mips_type_line (line : string) : bool :=
  match lstrip line with
  | String "T" (String "y" (String "p" (String "e" (String d (String ":" _))))) =>
      is_digit_char d
  | _ => false
  end.

Definition sym_name_key : string := "Symbol's Name + Addend".

Definition freebsd_rename : gmap string string :=
  <["st_name + r_addend" := sym_name_key]>
  (<["st_value" := "Symbol's Value"]>
  (<["r_type" := "Type"]>
  (<["r_info" := "Info"]>
  (<["r_offset" := "Offset"]> ∅)))).

(** [{idx: rename[name] for idx, name in toc.items()}] *)
Fixpoint rename_toc (toc : list string) : res (list string) :=
  match toc with
  | [] => OK []
  | name :: rest =>
      match freebsd_rename !! name with
      | Some name' => (name' ::.) <$> rename_toc rest
      | None => Raise (KeyError name)
      end
  end.

(** Lines 334-337: the symbolic target of a non-empty cell. *)
Definition split_target (cell : string) : res pyval :=
  let p := split_char "+" cell in
  let p := match p with [x] => [""; x] | _ => p end in
  match p with
  | name :: addend :: _ => VPair name <$> py_int 16 addend
  | _ => Raise IndexError
  end.

(** Lines 329-337: the target column of a parsed relocation. *)
Definition store_target (rel : row) : res row :=
  rel <- match rel !! sym_name_key, rel !! "Symbol's Name" with
         | None, Some v =>
             n <- as_str v ;; OK (<[sym_name_key := VStr (n +:+ "+0")]> rel)
         | _, _ => OK rel
         end ;;
  cell <- getitem rel sym_name_key ;;
  if truthy cell then
    c <- as_str cell ;;
    t <- split_target c ;;
    OK (<[sym_name_key := t]> rel)
  else OK rel.

(** Lines 324-337: a data row of the relocation listing. *)
Definition reloc_row (toc : list string) (line : string) : res row :=
  let line := re_sub (match_literal " + ") "+" line in
  let words := split_runs is_space line in
  rel <- parse_row words toc ["Offset"; "Info"] ;;
  store_target rel.

Fixpoint relocs_loop (f : string) (lines : list string)
    (toc : option (list string)) (rels : list row) : res (list row) :=
  match lines with
  | [] =>
      match toc with
      | None => error ("failed to analyze relocations in " +:+ f)
      | Some _ => OK rels
      end
  | line :: rest =>
      let line := strip line in
      if negb (nonempty line) then relocs_loop f rest None rels
      else if bool_decide (line = "There are no relocations in this file.")
      then OK []
      else if is_mips_type_line line then relocs_loop f rest toc rels
      else if startswith "Offset" (lstrip line) then
        match toc with
        | Some _ => error "multiple headers in output of readelf"
        | None => relocs_loop f rest (Some (make_toc (split_wide line) ∅)) rels
        end
      else if startswith "r_offset" (lstrip line) then
        match toc with
        | Some _ => error "multiple headers in output of readelf"
        | None =>
            t <- rename_toc (make_toc (split_wide line) ∅) ;;
            relocs_loop f rest (Some t) rels
        end
      else
        match toc with
        | Some t =>
            rel <- reloc_row t line ;;
            relocs_loop f rest toc (rels ++ [rel])
        | None => relocs_loop f rest toc rels
        end
  end.

(** [collect_relocs]: the dynamic relocations. *)
Definition collect_relocs (f : string) : res (list row) :=
  probe <- probe_macho f ;;
  if (default false probe : bool) then OK []
  else
    out <- fst <$> run ["readelf"; "-rW"; f] "" ;;
    relocs_loop f (splitlines out) None [].

(** *** [collect_sections] *)

Definition addr_rename : gmap string string := <["Addr" := "Address"]> ∅.

Fixpoint sections_loop (f : string) (lines : list string)
    (toc : option (list string)) (sections : list row) : res (list row) :=
  match lines with
  | [] =>
      match toc with
      | None => error ("failed to analyze sections in " +:+ f)
      | Some _ => OK sections
      end
  | line :: rest =>
      let line := strip line in
      if negb (nonempty line) then sections_loop f rest toc sections
      else
        let line := re_sub match_bracket_spaces "[" line in
        let words := split_runs (ascii_eqb " ") line in
        if startswith "[Nr]" line then
          match toc with
          | Some _ => error "multiple headers in output of readelf"
          | None =>
              sections_loop f rest (Some (make_toc words addr_rename)) sections
          end
        else
          match toc with
          | Some t =>
              if startswith "[" line then
                sec <- parse_row words t ["Address"; "Off"; "Size"] ;;
                flg <- get_str sec "Flg" ;;
                if has_char "A" flg
                then sections_loop f rest toc (sections ++ [sec])
                else sections_loop f rest toc sections
              else sections_loop f rest toc sections
          | None => sections_loop f rest toc sections
          end
  end.

(** [collect_sections]: the allocatable sections. *)
Definition collect_sections (f : string) : res (list row) :=
  probe <- probe_macho f ;;
  if (default false probe : bool) then OK []
  else
    out <- fst <$> run ["readelf"; "-SW"; f] "" ;;
    sections_loop f (splitlines out) None [].

(** ** Dictionaries that are iterated *)

Definition od_get {V} (d : odict V) (k : string) : option V :=
  snd <$> find (λ kv, bool_decide (kv.1 = k)) d.

(** [d[k] = v]: an existing key keeps its place. *)
Fixpoint od_set {V} (d : odict V) (k : string) (v : V) : odict V :=
  match d with
  | [] => [(k, v)]
  | (k', v') :: d' =>
      if bool_decide (k' = k) then (k, v) :: d' else (k', v') :: od_set d' k v
  end.

(** [sorted]: a stable sort; [x] goes after the elements not above it. *)
Fixpoint insert_sorted {A} (le : A → A → bool) (x : A) (l : list A) : list A :=
  match l with
  | [] => [x]
  | y :: l' => if le y x then y :: insert_sorted le x l' else x :: l
  end.
Definition sort_stable {A} (le : A → A → bool) (l : list A) : list A :=
  foldl (λ acc x, insert_sorted le x acc) [] l.

(** [sorted(d.items())] for distinct string keys. *)
Definition sorted_items {V} (items : list (string * V)) : list (string * V) :=
  sort_stable (λ a b, String.leb a.1 b.1) items.

Fixpoint mapM {A B} (f : A → res B) (l : list A) : res (list B) :=
  match l with
  | [] => OK []
  | x :: l' => y <- f x ;; ys <- mapM f l' ;; OK (y :: ys)
  end.

Fixpoint foldlM {A B} (f : B → A → res B) (b : B) (l : list A) : res B :=
  match l with
  | [] => OK b
  | x :: l' => b' <- f b x ;; foldlM f b' l'
  end.

(** *** [read_unrelocated_data] *)

Definition is_symbol_in_section (sym sec : row) : res bool :=
  address <- get_int sec "Address" ;;
  size <- get_int sec "Size" ;;
  let sec_end := address + size in
  value <- get_int sym "Value" ;;
  let is_start_in_section := (address <=? value) && (value <? sec_end) in
  sym_size <- get_int sym "Size" ;;
  let is_end_in_section := value + sym_size <=? sec_end in
  OK (is_start_in_section && is_end_in_section).

(** [[sec for sec in secs if is_symbol_in_section(s, sec)]] *)
Fixpoint sections_of (sym : row) (secs : list row) : res (list row) :=
  match secs with
  | [] => OK []
  | sec :: rest =>
      b <- is_symbol_in_section sym sec ;;
      tl <- sections_of sym rest ;;
      OK (if (b : bool) then sec :: tl else tl)
  end.

(** [f.seek(pos); f.read(n)] on the bytes of the file. *)
Definition seek_read (file : list Z) (pos n : Z) : res (list Z) :=
  if pos <? 0 then Raise OSError
  else if n <? -1
  then Raise (ValueError "read length must be non-negative or -1")
  else
    let rest := drop (Z.to_nat pos) file in
    OK (if n <? 0 then rest else take (Z.to_nat n) rest).

(** The body of the loop for one symbol. *)
Definition read_symbol_data (file : list Z) (s : row) (secs : list row)
  : res (list Z) :=
  sec <- sections_of s secs ;;
  match sec with
  | [sec] =>
      off <- get_int sec "Off" ;;
      size <- get_int s "Size" ;;
      seek_read file off size
  | _ =>
      value <- get_int s "Value" ;;
      size <- get_int s "Size" ;;
      error ("failed to locate section for interval ["
             +:+ hex_of_Z value +:+ ", " +:+ hex_of_Z (value + size) +:+ ")")
  end.

(** [read_unrelocated_data]: the bytes of each symbol as they are in the
    file. *)
Definition read_unrelocated_data (input_name : string) (syms : odict row)
    (secs : list row) : res (gmap string (list Z)) :=
  file <- read_bytes w input_name ;;
  keyed <- mapM (λ item : string * row,
                   v <- get_int item.2 "Value" ;; OK (v, item)) syms ;;
  let ordered := snd <$> sort_stable (λ a b, a.1 <=? b.1) keyed in
  foldlM (λ (data : gmap string (list Z)) (item : string * row),
            b <- read_symbol_data file item.2 secs ;;
            OK (<[item.1 := b]> data))
         ∅ ordered.

(** *** [collect_relocated_data] *)

(** A slot of the interpretation of a symbol: [("byte", n)],
    [("offset", n)] or [("reloc", rel)]. *)
Inductive slot : Type :=
| SByte (n : Z)
| SOffset (n : Z)
| SReloc (rel : row).

(** [range(start, stop, step)] *)
Definition py_range (start stop step : Z) : res (list Z) :=
  if step =? 0 then Raise (ValueError "range() arg 3 must not be zero")
  else
    let n := if 0 <? step then (stop - start + step - 1) / step
             else (start - stop - step - 1) / (- step) in
    OK ((λ k : nat, start + Z.of_nat k * step) <$> seq 0 (Z.to_nat n)).

(** [b[lo:hi]] *)
Definition py_slice {A} (b : list A) (lo hi : Z) : list A :=
  let len := Z.of_nat (length b) in
  let clamp x := if x <? 0 then Z.max 0 (x + len) else Z.min x len in
  let lo := clamp lo in
  let hi := clamp hi in
  take (Z.to_nat (hi - lo)) (drop (Z.to_nat lo) b).

(** [int.from_bytes(b, byteorder="little")] *)
Definition from_bytes_little (b : list Z) : Z :=
  foldr (λ x acc, x + 256 * acc) 0 b.

(** Lines 416-421: the words of the symbol before the relocations. *)
Definition initial_slots (ptr_size : Z) (b : list Z) : res (list slot) :=
  r <- py_range 0 (Z.of_nat (length b)) ptr_size ;;
  OK ((λ i, SOffset (from_bytes_little
                       (py_slice b (i * ptr_size) ((i + 1) * ptr_size)))) <$> r).

(** [l[i] = v] *)
Definition py_setitem {A} (l : list A) (i : Z) (v : A) : res (list A) :=
  let len := Z.of_nat (length l) in
  if (0 <=? i) && (i <? len) then OK (<[Z.to_nat i := v]> l)
  else if (- len <=? i) && (i <? 0) then OK (<[Z.to_nat (i + len) := v]> l)
  else Raise IndexError.

(** [rel["Type"] in reloc_types] *)
Definition type_in (reloc_types : gset string) (v : pyval) : bool :=
  match v with
  | VStr t => bool_decide (t ∈ reloc_types)
  | _ => false
  end.

(** Lines 426-429: the body of the loop over the relocations. *)
Definition overlay_step (ptr_size : Z) (reloc_types : gset string)
    (start finish : Z) (slots : list slot) (rel : row) : res (list slot) :=
  t <- getitem rel "Type" ;;
  if type_in reloc_types t then
    offset <- get_int rel "Offset" ;;
    if (start <=? offset) && (offset <? finish) then
      if ptr_size =? 0 then Raise (ValueError "integer division by zero")
      else
        let i := (offset - start) / ptr_size in
        if i <? Z.of_nat (length slots) then py_setitem slots i (SReloc rel)
        else Raise AssertionError
    else OK slots
  else OK slots.

Definition overlay (ptr_size : Z) (reloc_types : gset string)
    (start finish : Z) (rels : list row) (slots : list slot)
  : res (list slot) :=
  foldlM (overlay_step ptr_size reloc_types start finish) slots rels.

(** The body of the loop of [collect_relocated_data] for one symbol. *)
Definition relocated_symbol (s : row) (b : list Z) (rels : list row)
    (ptr_size : Z) (reloc_types : gset string) : res (list slot) :=
  demangled <- get_str s "Demangled Name" ;;
  if startswith "typeinfo name" demangled then OK (SByte <$> b)
  else
    slots <- initial_slots ptr_size b ;;
    start <- get_int s "Value" ;;
    size <- get_int s "Size" ;;
    overlay ptr_size reloc_types start (start + size) rels slots.

(** [collect_relocated_data]: the slots of every symbol. *)
Definition collect_relocated_data (syms : odict row)
    (bites : gmap string (list Z)) (rels : list row) (ptr_size : Z)
    (reloc_types : gset string) : res (gmap string (list slot)) :=
  foldlM (λ (data : gmap string (list slot)) (item : string * row),
            match bites !! item.1 with
            | None => Raise AssertionError
            | Some b =>
                slots <- relocated_symbol item.2 b rels ptr_size reloc_types ;;
                OK (<[item.1 := slots]> data)
            end)
         ∅ (sorted_items syms).

(** *** [generate_vtables] *)

Definition dq : string := String "034" "".

(** [sym_name, addend = val["Symbol's Name + Addend"]]; the addend is only
    ever formatted, so it is kept as its text. *)
Definition target_of (val : row) : res (string * string) :=
  t <- getitem val sym_name_key ;;
  match t with
  | VPair name addend => OK (name, str_of_Z addend)
  | VStr (String a (String b EmptyString)) => OK (String a "", String b "")
  | VStr _ => Raise (ValueError "wrong number of values to unpack")
  | _ => Raise TypeError
  end.

Definition extern_decl (sym_name : string) : string :=
  "extern const char " +:+ sym_name +:+ "[];" +:+ nl +:+ nl.

(** The body of the inner loop that prints the externs; [printed] is the
    set of the same name in the source. *)
Definition extern_slot (cls_syms : odict row) (printed : gset string)
    (ss : list string) (sl : slot) : res (list string) :=
  match sl with
  | SReloc val =>
      t <- target_of val ;;
      let sym_name := strip_at t.1 in
      if negb (bool_decide (is_Some (od_get cls_syms sym_name)))
         && negb (bool_decide (sym_name ∈ printed))
      then OK (ss ++ [extern_decl sym_name])
      else OK ss
  | _ => OK ss
  end.

Definition print_externs (cls_syms : odict row)
    (cls_data : gmap string (list slot)) (ss : list string) : res (list string) :=
  let printed : gset string := ∅ in
  foldlM (λ ss (item : string * list slot),
            foldlM (extern_slot cls_syms printed) ss item.2)
         ss (sorted_items (map_to_list cls_data)).

Definition c_type (sl : slot) : string :=
  match sl with
  | SReloc _ => "const void *"
  | SByte _ => "unsigned char"
  | SOffset _ => "size_t"
  end.

Definition slot_value (sl : slot) : res string :=
  match sl with
  | SByte n | SOffset n => OK (str_of_Z n +:+ "UL")
  | SReloc val =>
      t <- target_of val ;;
      OK ("(const char *)&" +:+ strip_at t.1 +:+ " + " +:+ t.2)
  end.

(** A declarator is a format with one [%s]: the text before and after. *)
Definition declarator_of (demangled : string) (data : list slot)
  : string * string :=
  if startswith "typeinfo name" demangled then ("const unsigned char ", "[]")
  else
    let field_types :=
      imap (λ i sl, c_type sl +:+ " field_" +:+ str_of_Z (Z.of_nat i) +:+ ";")
           data in
    ("const struct { " +:+ String.concat " " field_types +:+ " } ", "").

Definition code_info_of (cls_data : gmap string (list slot))
    (item : string * row) : res (string * ((string * string) * string)) :=
  match cls_data !! item.1 with
  | None => Raise (KeyError item.1)
  | Some data =>
      demangled <- get_str item.2 "Demangled Name" ;;
      let declarator := declarator_of demangled data in
      vals <- mapM slot_value data ;;
      OK (item.1, (declarator, "{ " +:+ String.concat ", " vals +:+ " }"))
  end.

Definition print_declaration (info : string * ((string * string) * string))
  : string :=
  let name := info.1 in
  let type_name := name +:+ "_type" in
  let type_decl := info.2.1.1 +:+ type_name +:+ info.2.1.2 in
  "typedef " +:+ type_decl +:+ ";" +:+ nl
  +:+ "extern __attribute__((weak)) " +:+ type_name +:+ " " +:+ name +:+ ";"
  +:+ nl.

Definition print_definition (info : string * ((string * string) * string))
  : string :=
  let name := info.1 in
  let type_name := name +:+ "_type" in
  "const " +:+ type_name +:+ " " +:+ name +:+ " = " +:+ info.2.2 +:+ ";" +:+ nl.

Definition vtables_header : string :=
  "#ifdef __cplusplus" +:+ nl +:+ "extern " +:+ dq +:+ "C" +:+ dq +:+ " {"
  +:+ nl +:+ "#endif" +:+ nl +:+ nl.
Definition vtables_footer : string :=
  "#ifdef __cplusplus" +:+ nl +:+ "}  // extern " +:+ dq +:+ "C" +:+ dq
  +:+ nl +:+ "#endif" +:+ nl.

(** The pieces appended to [ss] by [generate_vtables]. *)
Definition vtables_pieces (cls_syms : odict row)
    (cls_data : gmap string (list slot)) : res (list string) :=
  ss <- print_externs cls_syms cls_data [vtables_header] ;;
  infos <- mapM (code_info_of cls_data) (sorted_items cls_syms) ;;
  let code_info := sorted_items infos in
  OK (ss ++ (print_declaration <$> code_info)
         ++ (print_definition <$> code_info) ++ [vtables_footer]).

(** [generate_vtables]: the C code of the tables ([cls_tables] is not used
    by the source). *)
Definition generate_vtables (cls_tables : odict (odict string))
    (cls_syms : odict row) (cls_data : gmap string (list slot)) : res string :=
  ss <- vtables_pieces cls_syms cls_data ;;
  OK (String.concat "" ss).

(** *** [read_soname] and [read_library_name] *)

(** [os.path.basename] *)
Definition basename (path : string) : string :=
  default "" (last (split_char "/" path)).

(** [os.path.join] *)
Definition path_join (a b : string) : string :=
  if startswith "/" b then b
  else if negb (nonempty a) || endswith "/" a then a +:+ b
  else a +:+ "/" +:+ b.

(** The position of the last character satisfying [p]. *)
Fixpoint last_index (p : ascii → bool) (s : string) : option nat :=
  match s with
  | EmptyString => None
  | String c s' =>
      match last_index p s' with
      | Some i => Some (S i)
      | None => if p c then Some O else None
      end
  end.

(** [.*\[(.+)\]] on the rest of a line: the greedy match ends at the last
    bracket and starts at the last opening bracket that leaves the group
    non-empty. *)
Definition match_bracketed (rest : string) : option string :=
  match last_index (ascii_eqb "]") rest with
  | Some j =>
      match last_index (ascii_eqb "[") (take_str (j - 1) rest) with
      | Some i => Some (take_str (j - S i) (drop_str (S i) rest))
      | None => None
      end
  | None => None
  end.

(** [re.search(r"\(SONAME\).*\[(.+)\]", line)] *)
Fixpoint search_soname (line : string) : option string :=
  if startswith "(SONAME)" line
  then match_bracketed (drop_str 8 line)
  else
    match line with
    | EmptyString => None
    | String _ line' => search_soname line'
    end.

Fixpoint first_some {A B} (f : A → option B) (l : list A) : option B :=
  match l with
  | [] => None
  | x :: l' => match f x with Some y => Some y | None => first_some f l' end
  end.

Definition read_soname (f : string) : res (option string) :=
  probe <- probe_macho f ;;
  if (default false probe : bool) then OK (Some (basename f))
  else
    out <- fst <$> run ["readelf"; "-d"; f] "" ;;
    OK (first_some (λ line, search_soname (strip line)) (splitlines out)).

Definition is_libname_char (c : ascii) : bool :=
  is_alnum_us c || ascii_eqb c "." || ascii_eqb c "-".

(** [^(?:LIBRARY|NAME)\s+([A-Za-z0-9_.\-]+)$] *)
Definition match_library_name (line : string) : option string :=
  let after kw :=
    if startswith kw line then Some (drop_str (String.length kw) line)
    else None in
  match (match after "LIBRARY" with Some r => Some r | None => after "NAME" end)
  with
  | Some rest =>
      let lead := span_len is_space rest in
      let body := drop_str lead rest in
      let n := span_len is_libname_char body in
      let tail := drop_str n body in
      if (0 <? lead)%nat && (0 <? n)%nat
         && (bool_decide (tail = "") || bool_decide (tail = nl))
      then Some (take_str n body) else None
  | None => None
  end.

Definition read_library_name (filename : string) : res (option string) :=
  match read_text w filename with
  | OK text =>
      OK (first_some (λ line, match_library_name (strip line)) (readlines text))
  | Raise UnicodeDecodeError | Raise OSError => OK None
  | Raise e => Raise e
  end.

(** *** [is_binary_file] *)

Definition is_binary_file (filename : string) : res bool :=
  match run_tool w ["readelf"; "-d"; filename] "" with
  | NotStarted => Raise OSError
  | Ran _ _ retcode =>
      if retcode =? 0 then OK true
      else
        match run_tool w ["file"; filename] "" with
        | NotStarted => OK false
        | Ran output _ _ =>
            OK (contains "Mach-O" output || contains "shared library" output)
        end
  end.

(** *** The driver

    [main] is modelled from the parsed arguments on, for a run without
    [--verbose]: what is printed (progress, warnings) is not kept, and the
    two files the run writes are its result. *)

Record args : Type := Args {
  library : string;
  dlopen : bool;
  dlopen_callback : string;
  dlsym_callback : string;
  library_load_name : option string;
  lazy_load : bool;
  thread_safe : bool;
  vtables : bool;
  no_weak_symbols : bool;
  target : string;
  symbol_list : option string;
  symbol_prefix : string;
  outdir : string;
  suffix : option string
}.

(** [^i[0-9]86] *)
Definition is_ix86 (t : string) : bool :=
  match t with
  | String "i" (String d (String "8" (String "6" _))) => is_digit_char d
  | _ => false
  end.

Definition normalize_target (t : string) : string :=
  if startswith "arm" t then "arm"
  else if is_ix86 t then "i386"
  else if startswith "amd64" t then "x86_64"
  else if startswith "mips64" t then "mips64"
  else if startswith "mips" t then "mips"
  else if startswith "ppc64le" t then "powerpc64le"
  else if startswith "ppc64" t then "powerpc64"
  else if startswith "rv64" t then "riscv64"
  else default "" (head (split_char "-" t)).

(** [re.split(r"\r?\n", text)] *)
Fixpoint split_newlines (s : string) : list string :=
  match s with
  | EmptyString => [""]
  | String c s' =>
      if ascii_eqb c LF then "" :: split_newlines s'
      else if ascii_eqb c CR && startswith nl s' then split_newlines s'
      else cons_head c (split_newlines s')
  end.

(** [re.sub(r"#.*", "", line)] *)
Fixpoint strip_comment_go (dropping : bool) (s : string) : string :=
  match s with
  | EmptyString => EmptyString
  | String c s' =>
      if dropping then
        if ascii_eqb c LF then String c (strip_comment_go false s')
        else strip_comment_go true s'
      else if ascii_eqb c "#" then strip_comment_go true s'
      else String c (strip_comment_go false s')
  end.

(** The text that [read] returns for a file opened in text mode: a
    carriage return, with or without a line feed after it, reads as a line
    feed. *)
Fixpoint universal_newlines (s : string) : string :=
  match s with
  | EmptyString => EmptyString
  | String c s' =>
      if ascii_eqb c CR then
        match s' with
        | String c' s'' =>
            if ascii_eqb c' LF then String LF (universal_newlines s'')
            else String LF (universal_newlines s')
        | EmptyString => nl
        end
      else String c (universal_newlines s')
  end.

(** Lines 727-734: the lines of the symbol list, read in text mode. *)
Definition parse_symbol_list (text : string) : list string :=
  filter (λ line, nonempty line = true)
         ((λ line, strip (strip_comment_go false line))
            <$> split_newlines (universal_newlines text)).

(** [re.sub(r"\.def$", "", s)] *)
Definition strip_def (s : string) : string :=
  let n := String.length s in
  if endswith ".def" s then take_str (n - 4) s
  else if endswith (".def" +:+ nl) s then take_str (n - 5) s +:+ nl
  else s.

(** [re.sub(r"[^a-zA-Z_0-9]+", "_", s)] *)
Fixpoint sanitize_go (in_run : bool) (s : string) : string :=
  match s with
  | EmptyString => EmptyString
  | String c s' =>
      if is_alnum_us c then String c (sanitize_go false s')
      else if in_run then sanitize_go true s'
      else String "_" (sanitize_go true s')
  end.
Definition sanitize (s : string) : string := sanitize_go false s.

(** [re.split(r"\s*,\s*", s)] *)
Fixpoint split_commas_go (after_comma : bool) (s : string) : list string :=
  match s with
  | EmptyString => [""]
  | String c s' =>
      if after_comma && is_space c then split_commas_go true s'
      else if ascii_eqb c "," then "" :: split_commas_go true s'
      else if is_space c && startswith "," (lstrip s')
      then split_commas_go false s'
      else cons_head c (split_commas_go false s')
  end.
Definition split_commas (s : string) : list string := split_commas_go false s.

(** [string.Template(t).substitute] with the keywords [env] *)
Definition is_id_start (c : ascii) : bool :=
  is_upper_char c || is_lower_char c || ascii_eqb c "_".
Definition id_len (s : string) : nat :=
  match s with
  | String c _ => if is_id_start c then span_len is_alnum_us s else O
  | EmptyString => O
  end.

Definition env_get (env : list (string * string)) (k : string) : res string :=
  match od_get env k with
  | Some v => OK v
  | None => Raise (KeyError k)
  end.

Fixpoint substitute_go (env : list (string * string)) (skip : nat) (s : string)
  : res string :=
  match s with
  | EmptyString => OK EmptyString
  | String c s' =>
      match skip with
      | S k => substitute_go env k s'
      | O =>
          if ascii_eqb c "$" then
            match s' with
            | String "$" _ => String "$" <$> substitute_go env 1 s'
            | String "{" r =>
                let n := id_len r in
                if (0 <? n)%nat && startswith "}" (drop_str n r) then
                  v <- env_get env (take_str n r) ;;
                  rest <- substitute_go env (n + 2) s' ;;
                  OK (v +:+ rest)
                else Raise (ValueError "Invalid placeholder in string")
            | _ =>
                let n := id_len s' in
                if (0 <? n)%nat then
                  v <- env_get env (take_str n s') ;;
                  rest <- substitute_go env n s' ;;
                  OK (v +:+ rest)
                else Raise (ValueError "Invalid placeholder in string")
            end
          else String c <$> substitute_go env O s'
      end
  end.
Definition substitute (template : string) (env : list (string * string))
  : res string :=
  substitute_go env O template.

Definition str_of_bool (b : bool) : string := if b then "1" else "0".

(** [is_exported], the closure of [main] over [args.no_weak_symbols]. *)
Definition is_exported (no_weak_symbols : bool) (s : row) : res bool :=
  bind_ <- getitem s "Bind" ;;
  visibility <- getitem s "Visibility" ;;
  type <- getitem s "Type" ;;
  ndx <- getitem s "Ndx" ;;
  name <- getitem s "Name" ;;
  let conditions :=
    [ py_ne bind_ (VStr "LOCAL");
      py_ne visibility (VStr "HIDDEN");
      py_ne type (VStr "NOTYPE");
      py_ne ndx (VStr "UND");
      negb (py_in name [VStr ""; VStr "_init"; VStr "_fini"]) ] in
  conditions <-
    (if no_weak_symbols then
       bind_ <- getitem s "Bind" ;;
       OK (conditions ++ [py_ne bind_ (VStr "WEAK")])
     else OK conditions) ;;
  OK (forallb id conditions).

(** [list(filter(pred, l))] for a predicate that may raise. *)
Fixpoint filterM {A} (pred : A → res bool) (l : list A) : res (list A) :=
  match l with
  | [] => OK []
  | x :: l' =>
      b <- pred x ;;
      tl <- filterM pred l' ;;
      OK (if (b : bool) then x :: tl else tl)
  end.

(** [is_data_symbol] *)
Definition is_data_symbol (vtables_on : bool) (s : row) : res bool :=
  type <- getitem s "Type" ;;
  if py_eq type (VStr "OBJECT") then
    demangled <- get_str s "Demangled Name" ;;
    OK (negb (contains " for " demangled && vtables_on))
  else OK false.

(** The demangling step: the i-th line of [c++filt] goes to the i-th
    symbol. *)
Fixpoint rstrip_nl (rev_s : string) : string :=
  match rev_s with
  | String c s' => if ascii_eqb c LF then rstrip_nl s' else rev_s
  | EmptyString => EmptyString
  end.

Fixpoint set_demangled (syms : list row) (names : list string)
  : res (list row) :=
  match names, syms with
  | [], _ => OK syms
  | _ :: _, [] => Raise IndexError
  | n :: names', s :: syms' =>
      tl <- set_demangled syms' names' ;;
      OK (<["Demangled Name" := VStr n]> s :: tl)
  end.

Definition demangle (syms : list row) : res (list row) :=
  match syms with
  | [] => OK syms
  | _ =>
      names <- mapM (λ sym, get_str sym "Name") syms ;;
      out <- fst <$> run ["c++filt"] (String.concat nl names) ;;
      let out := String.rev (rstrip_nl (String.rev out)) in
      set_demangled syms (split_char LF out)
  end.

(** The pattern [^(vtable|typeinfo|typeinfo name) for ] followed by the
    rest of the line: the kind of table and the class. *)
Fixpoint until_newline (s : string) : string :=
  match s with
  | EmptyString => EmptyString
  | String c s' => if ascii_eqb c LF then EmptyString else String c (until_newline s')
  end.

Definition match_class (demangled : string) : option (string * string) :=
  first_some
    (λ typ, let pre := typ +:+ " for " in
            if startswith pre demangled
            then Some (typ, until_newline (drop_str (String.length pre) demangled))
            else None)
    ["vtable"; "typeinfo"; "typeinfo name"].

(** The loop that collects the class symbols. *)
Definition class_symbol_step (no_weak : bool)
    (st : odict (odict string) * odict row) (s : row)
  : res (odict (odict string) * odict row) :=
  demangled <- get_str s "Demangled Name" ;;
  match match_class demangled with
  | Some (typ, cls) =>
      exported <- is_exported no_weak s ;;
      if (exported : bool) then
        name <- get_str s "Name" ;;
        let table := od_set (default [] (od_get st.1 cls)) typ name in
        OK (od_set st.1 cls table, od_set st.2 name s)
      else OK st
  | None => OK st
  end.

Record vtable_info : Type := VtableInfo {
  cls_tables : odict (odict string);
  cls_syms : odict row;
  cls_data : gmap string (list slot)
}.

(** The block under [if args.vtables:]. *)
Definition collect_vtables (a : args) (binary : bool) (syms : list row)
    (ptr_size : Z) (symbol_reloc_types : gset string) : res vtable_info :=
  let input_name := library a in
  if negb binary && endswith ".def" input_name
  then error "vtables not supported for .def files"
  else
    cls <- foldlM (class_symbol_step (no_weak_symbols a)) ([], []) syms ;;
    secs <- collect_sections input_name ;;
    bites <- read_unrelocated_data input_name cls.2 secs ;;
    rels <- collect_relocs input_name ;;
    data <- collect_relocated_data cls.2 bites rels ptr_size symbol_reloc_types ;;
    OK (VtableInfo cls.1 cls.2 data).

(** The loop that collects the names of the functions. *)
Definition function_step (all_funs : gset string) (s : row) : res (gset string) :=
  type <- getitem s "Type" ;;
  if py_eq type (VStr "FUNC") then
    default_version <- getitem s "Default" ;;
    if negb (truthy default_version) then OK all_funs
    else
      name <- get_str s "Name" ;;
      OK ({[name]} ∪ all_funs)
  else OK all_funs.

(** What the run knows when it starts to write. *)
Record plan : Type := Plan {
  plan_binary : bool;
  plan_load_name : string;
  plan_target_dir : string;
  plan_ptr_size : Z;
  plan_funs : list string;
  plan_vtables : option vtable_info
}.

(** [main] up to the comment "Generate assembly code": nothing is written
    before this point. *)
Definition main_collect (a : args) : res plan :=
  let input_name := library a in
  let target := normalize_target (target a) in
  funs <- match symbol_list a with
          | None => OK None
          | Some path => text <- read_text w path ;; OK (Some (parse_symbol_list text))
          end ;;
  binary <- is_binary_file input_name ;;
  let stem := basename input_name in
  let stem := if (binary : bool) then stem else strip_def stem in
  load_name <- match library_load_name a with
               | Some n => OK n
               | None =>
                   r <- (if binary then read_soname input_name
                         else read_library_name input_name) ;;
                   OK (default stem r)
               end ;;
  let target_dir := path_join (path_join (script_root w) "arch") target in
  if negb (path_exists w target_dir)
  then error ("unknown architecture '" +:+ target +:+ "'")
  else
    let config := target_dir +:+ "/config.ini" in
    ptr_text <- config_get w config "Arch" "PointerSize" ;;
    ptr_size <- py_int 10 ptr_text ;;
    reloc_text <- config_get w config "Arch" "SymbolReloc" ;;
    let symbol_reloc_types : gset string := list_to_set (split_commas reloc_text) in
    syms <- (if binary then collect_syms input_name
             else collect_def_exports input_name) ;;
    syms <- demangle syms ;;
    syms <- filterM (is_exported (no_weak_symbols a)) syms ;;
    exported_data <- filterM (is_data_symbol (vtables a)) syms ;;
    all_funs <- foldlM function_step ∅ syms ;;
    let funs :=
      match funs with
      | None => sort_stable String.leb (elements all_funs)
      | Some l => filter (λ name, name ∈ all_funs) l
      end in
    vt <- (if vtables a
           then Some <$> collect_vtables a binary syms ptr_size symbol_reloc_types
           else OK None) ;;
    OK (Plan binary load_name target_dir ptr_size funs vt).

(** The two files, as pairs of a path and the text written to it. *)
Definition main_emit (a : args) (p : plan) : res (list (string * string)) :=
  let input_name := library a in
  let suffix :=
    match suffix a with
    | Some s => s
    | None =>
        let b := basename input_name in
        if plan_binary p then b else strip_def b
    end in
  let lib_suffix := sanitize suffix in
  let ptr_size := plan_ptr_size p in
  let funs := plan_funs p in
  let tramp_file := suffix +:+ ".tramp.S" in
  table_tpl <- universal_newlines
                 <$> read_text w (plan_target_dir p +:+ "/table.S.tpl") ;;
  table_text <-
    substitute table_tpl
      [("lib_suffix", lib_suffix);
       ("table_size", str_of_Z (ptr_size * (Z.of_nat (length funs) + 1)))] ;;
  tramp_tpl <- universal_newlines
                 <$> read_text w (plan_target_dir p +:+ "/trampoline.S.tpl") ;;
  tramps <-
    mapM (λ item : nat * string,
            substitute tramp_tpl
              [("lib_suffix", lib_suffix);
               ("sym", symbol_prefix a +:+ item.2);
               ("offset", str_of_Z (Z.of_nat item.1 * ptr_size));
               ("number", str_of_Z (Z.of_nat item.1))])
         (imap pair funs) ;;
  let init_file := suffix +:+ ".init.c" in
  init_tpl <- universal_newlines
                <$> read_text w (path_join (script_root w)
                                   "arch/common/init.c.tpl") ;;
  let sym_names :=
    match funs with
    | [] => ""
    | _ => String.concat ("," +:+ nl +:+ "  ")
             ((λ name, dq +:+ name +:+ dq) <$> funs) +:+ ","
    end in
  init_text <-
    substitute init_tpl
      [("lib_suffix", lib_suffix);
       ("load_name", plan_load_name p);
       ("dlopen_callback", dlopen_callback a);
       ("dlsym_callback", dlsym_callback a);
       ("has_dlopen_callback", str_of_bool (nonempty (dlopen_callback a)));
       ("has_dlsym_callback", str_of_bool (nonempty (dlsym_callback a)));
       ("no_dlopen", str_of_bool (negb (dlopen a)));
       ("lazy_load", str_of_bool (lazy_load a));
       ("thread_safe", str_of_bool (thread_safe a));
       ("sym_names", sym_names)] ;;
  vtable_text <-
    match plan_vtables p with
    | Some v => generate_vtables (cls_tables v) (cls_syms v) (cls_data v)
    | None => OK ""
    end ;;
  OK [(path_join (outdir a) tramp_file, table_text +:+ String.concat "" tramps);
      (path_join (outdir a) init_file, init_text +:+ vtable_text)].

Definition main (a : args) : res (list (string * string)) :=
  p <- main_collect a ;;
  main_emit a p.

End with_world.

(** * Sample inputs *)

Definition sample_symbol : row :=
  <["Visibility" := VStr "DEFAULT"]>
  (<["Name" := VStr "foo"]>
  (<["Ndx" := VStr "12"]>
  (<["Type" := VStr "FUNC"]>
  (<["Bind" := VStr "WEAK"]> ∅)))).

(** ** The words of a table and the bytes of a symbol, as the
    specification words them *)

(** The specification's reading of a table: the i-th slot is the
    little-endian word in the bytes [i * ptr_size, (i + 1) * ptr_size). *)
Definition spec_initial_slots (ptr_size : Z) (b : list Z) : list slot :=
  let n := (Z.of_nat (length b) + ptr_size - 1) / ptr_size in
  (λ i : nat, SOffset (from_bytes_little
                         (py_slice b (Z.of_nat i * ptr_size)
                                     ((Z.of_nat i + 1) * ptr_size))))
    <$> seq 0 (Z.to_nat n).

(** The specification's reading of the bytes of a symbol in its section:
    [size] bytes at [Off + (Value - Address)]. *)
Definition spec_symbol_bytes (file : list Z) (sym sec : row) : res (list Z) :=
  off <- get_int sec "Off" ;;
  address <- get_int sec "Address" ;;
  value <- get_int sym "Value" ;;
  size <- get_int sym "Size" ;;
  OK (take (Z.to_nat size) (drop (Z.to_nat (off + (value - address))) file)).

(** The number of places where [sub] occurs in [s]. *)
Fixpoint count_sub (sub s : string) : nat :=
  ((if startswith sub s then 1 else 0) +
   match s with
   | EmptyString => 0
   | String _ s' => count_sub sub s'
   end)%nat.

(** A table of two words, 1 and 2, for 8-byte pointers. *)
Definition two_words : list Z := [1; 0; 0; 0; 0; 0; 0; 0; 2; 0; 0; 0; 0; 0; 0; 0].

Definition vtable_symbol (name demangled : string) (value size : Z) : row :=
  <["Demangled Name" := VStr demangled]>
  (<["Visibility" := VStr "DEFAULT"]>
  (<["Version" := VNone]>
  (<["Default" := VBool true]>
  (<["Name" := VStr name]>
  (<["Ndx" := VStr "19"]>
  (<["Bind" := VStr "WEAK"]>
  (<["Type" := VStr "OBJECT"]>
  (<["Size" := VInt size]>
  (<["Value" := VInt value]> ∅))))))))).

Definition sample_vtable : row := vtable_symbol "_ZTV1C" "vtable for C" 256 16.

(** A section of 32 bytes at address 0x100, stored at the start of a file
    whose i-th byte is i, and a symbol of 8 bytes at address 0x108. *)
Definition sample_file : list Z := Z.of_nat <$> seq 0 32.
Definition sample_section : row :=
  <["Flg" := VStr "WA"]>
  (<["Size" := VInt 32]>
  (<["Off" := VInt 0]>
  (<["Address" := VInt 256]>
  (<["Name" := VStr ".data.rel.ro"]> ∅)))).
Definition second_symbol : row := vtable_symbol "_ZTI1C" "typeinfo for C" 264 8.

Definition file_world (file : list Z) : world :=
  World (λ _ _, NotStarted) (λ _, Raise OSError) (λ _, OK file)
        (λ _, false) (λ _ _ k, Raise (KeyError k)) "".

(** A relocation of type [R_X86_64_64] at [offset] against [name + addend]. *)
Definition sample_reloc (offset : Z) (name : string) (addend : Z) : row :=
  <[sym_name_key := VPair name addend]>
  (<["Symbol's Value" := VStr "0000000000000000"]>
  (<["Type" := VStr "R_X86_64_64"]>
  (<["Info" := VInt 1]>
  (<["Offset" := VInt offset]> ∅)))).

(** The table of an abstract class with two pure virtual methods: both
    slots are relocated against [__cxa_pure_virtual]. *)
Definition abstract_syms : odict row := [("_ZTV1C", sample_vtable)].
Definition abstract_data : gmap string (list slot) :=
  {[ "_ZTV1C" := [SReloc (sample_reloc 256 "__cxa_pure_virtual" 0);
                  SReloc (sample_reloc 264 "__cxa_pure_virtual" 0)] ]}.

(** The header of a relocation section with addends, and of one without. *)
Definition rela_header : string :=
  "    Offset             Info             Type               Symbol's Value  Symbol's Name + Addend".
Definition rel_header : string :=
  "    Offset             Info             Type               Symbol's Value  Symbol's Name".
Definition rela_toc : list string := make_toc (split_wide (strip rela_header)) ∅.
Definition rel_toc : list string := make_toc (split_wide (strip rel_header)) ∅.

(** A relocation against the function [add] with a negative addend, which
    [readelf] prints with a minus sign: the target cell is the name alone. *)
Definition name_only_line : string :=
  "0000000000003e10  0000000700000001 R_X86_64_64            0000000000001139 add - 8".
Definition name_addend_line : string :=
  "0000000000003e08  0000000600000001 R_X86_64_64            0000000000003e18 _ZTI1C + 10".
Definition rel_line : string :=
  "0000000000003e10  0000000700000001 R_X86_64_64            0000000000001139 add".

(** ** The parts of a versioned name *)

(** The part of [s] before its first separator character. *)
Fixpoint before_sep (sep : ascii → bool) (s : string) : string :=
  match s with
  | EmptyString => EmptyString
  | String c s' => if sep c then EmptyString else String c (before_sep sep s')
  end.

Fixpoint skip_sep (sep : ascii → bool) (s : string) : string :=
  match s with
  | EmptyString => EmptyString
  | String c s' => if sep c then skip_sep sep s' else s
  end.

(** The part of [s] after its first run of separator characters. *)
Fixpoint after_run (sep : ascii → bool) (s : string) : string :=
  match s with
  | EmptyString => EmptyString
  | String c s' => if sep c then skip_sep sep s' else after_run sep s'
  end.

Definition before_at (name : string) : string := before_sep (ascii_eqb "@") name.
Definition after_at (name : string) : string := after_run (ascii_eqb "@") name.

(** The words of a line of the symbol listing, as the ELF loop sees them. *)
Definition elf_words (line : string) : list string :=
  split_runs (ascii_eqb " ") (re_sub match_localentry "" (strip line)).

(** What the ELF loop stores for a row whose name cell is [raw]. *)
Definition version_fields (raw : string) (sym : row) : Prop :=
  sym !! "Name" = Some (VStr (before_at raw)) ∧
  has_char "@" (before_at raw) = false ∧
  if has_char "@" raw
  then sym !! "Version" = Some (VStr (after_at raw)) ∧
       sym !! "Default" = Some (VBool (contains "@@" raw))
  else sym !! "Version" = Some VNone ∧
       sym !! "Default" = Some (VBool true).

Definition text_of_lines (lines : list string) : string :=
  foldr (λ line rest, line +:+ nl +:+ rest) "" lines.

(** A library that exports [memcpy] in two versions and [foo]; [nm -g]
    lists [foo] only. *)
Definition symtab_header : string :=
  "   Num:    Value          Size Type    Bind   Vis      Ndx Name".
Definition memcpy_default_line : string :=
  "     1: 00000000000a1b20    57 FUNC    GLOBAL DEFAULT   14 memcpy@@GLIBC_2.14".
Definition memcpy_old_line : string :=
  "     2: 0000000000091f40    41 FUNC    GLOBAL DEFAULT   14 memcpy@GLIBC_2.2.5".
Definition foo_line : string :=
  "     3: 0000000000001119    11 FUNC    GLOBAL DEFAULT   12 foo".
Definition versions_symtab : string :=
  text_of_lines
    [""; "Symbol table '.dynsym' contains 4 entries:"; symtab_header;
     "     0: 0000000000000000     0 NOTYPE  LOCAL  DEFAULT  UND ";
     memcpy_default_line; memcpy_old_line; foo_line].
Definition versions_nm : string :=
  text_of_lines ["0000000000001119 T foo"; "                 U malloc"].

Definition versions_world : world :=
  World (λ args _,
           match args with
           | ["nm"; "-g"; _] => Ran versions_nm "" 0
           | ["file"; _] => Ran "libv.so: ELF 64-bit LSB shared object, x86-64" "" 0
           | ["readelf"; "-sW"; _] => Ran versions_symtab "" 0
           | _ => Ran "" "unexpected command" 1
           end)
        (λ _, Raise OSError) (λ _, Raise OSError) (λ _, false)
        (λ _ _ k, Raise (KeyError k)) "".

(** ** Outcomes and the slot of a relocation *)

(** Two runs have the same outcome when both return the same value or both
    raise. *)
Definition same_outcome {A} (r1 r2 : res A) : Prop :=
  match r1, r2 with
  | OK a, OK b => a = b
  | Raise _, Raise _ => True
  | _, _ => False
  end.

(** Any two steps of the list commute, up to the outcome, on the states
    that satisfy [I]. *)
Definition steps_commute {A B} (step : B → A → res B) (I : B → Prop)
    (l : list A) : Prop :=
  ∀ b x y, I b → x ∈ l → y ∈ l →
    same_outcome (bind (step b x) (λ b1, step b1 y))
                 (bind (step b y) (λ b1, step b1 x)).

(** The index of the slot a relocation falls into, when the relocation
    applies to the symbol at [start, finish): its type is one of
    [reloc_types] and its offset lies in the interval. *)
Definition slot_index (ptr_size : Z) (reloc_types : gset string)
    (start finish : Z) (rel : row) : option Z :=
  match rel !! "Type", rel !! "Offset" with
  | Some t, Some o =>
      match as_int o with
      | OK offset =>
          if type_in reloc_types t && (start <=? offset) && (offset <? finish)
          then Some ((offset - start) / ptr_size)
          else None
      | Raise _ => None
      end
  | _, _ => None
  end.

(** No two different relocations of the list fall into the same slot. *)
Definition one_per_slot (ptr_size : Z) (reloc_types : gset string)
    (start finish : Z) (rels : list row) : Prop :=
  ∀ r1 r2 i,
    r1 ∈ rels → r2 ∈ rels →
    slot_index ptr_size reloc_types start finish r1 = Some i →
    slot_index ptr_size reloc_types start finish r2 = Some i →
    r1 = r2.

(** Two relocations of the same slot of [sample_vtable], against different
    symbols. *)
Definition reloc_a : row := sample_reloc 256 "_ZN1C3fooEv" 0.
Definition reloc_b : row := sample_reloc 256 "_ZN1C3barEv" 0.
Definition x86_reloc_types : gset string := {[ "R_X86_64_64" ]}.

Definition reloc_c : row := sample_reloc 264 "_ZN1C3barEv" 0.

(** ** A text export list

    The export list of the second scenario of the specification, the
    templates cut down to their placeholders, and tools that answer as on a
    text file: [readelf] rejects the file, whatever it is asked to dump,
    [file] reports text, [c++filt] echoes the plain C names. *)
Definition export_list : string :=
  text_of_lines ["LIBRARY foo.so.1"; "EXPORTS"; "  alpha"; "  beta"; "  ; comment"].

Definition bytes_of (s : string) : list Z := code <$> list_ascii_of_string s.

Definition def_world : world :=
  World
    (λ args stdin,
       match args with
       | "readelf" :: _ =>
           Ran "" "readelf: Error: Not an ELF file - it has the wrong magic bytes at the start" 1
       | ["file"; f] => Ran (f +:+ ": ASCII text") "" 0
       | ["c++filt"] => Ran (stdin +:+ nl) "" 0
       | _ => Ran "" "unexpected command" 1
       end)
    (λ path,
       if bool_decide (path = "/opt/implib/arch/x86_64/table.S.tpl")
       then OK ("table $lib_suffix $table_size" +:+ nl)
       else if bool_decide (path = "/opt/implib/arch/x86_64/trampoline.S.tpl")
       then OK ("trampoline $sym $offset $number" +:+ nl)
       else if bool_decide (path = "/opt/implib/arch/common/init.c.tpl")
       then OK ("init $load_name $sym_names" +:+ nl)
       else OK export_list)
    (λ _, OK (bytes_of export_list))
    (λ _, true)
    (λ _ _ key,
       if bool_decide (key = "PointerSize") then OK "8"
       else if bool_decide (key = "SymbolReloc") then OK "R_X86_64_64"
       else Raise (KeyError key))
    "/opt/implib".

Definition vtables_args (input_name : string) : args :=
  Args input_name true "" "" None true true true false "x86_64-linux-gnu"
       None "" "./" None.

(** The value of a run that returns. *)
Definition value_of {A} (d : A) (r : res A) : A :=
  match r with OK a => a | Raise _ => d end.

(** The symbols of the library with the two versions of [memcpy], and the
    row of the default version as the ELF loop reads it. *)
Definition versions_syms : list row :=
  value_of [] (collect_syms versions_world "libv.so").
Definition symtab_toc : list string :=
  make_toc (map (remove_char ":") (elf_words symtab_header)) ∅.
Definition memcpy_words : list string := elf_words memcpy_default_line.
Definition memcpy_cells : row :=
  value_of ∅ (parse_row memcpy_words symtab_toc ["Value"]).

(** ** Definitions for the further properties *)

(** The dictionary [parse_row] builds before it converts the hexadecimal
    columns. *)
Definition cells (words toc : list string) : row :=
  foldl (λ (m : row) (ik : nat * string),
           <[ik.2 := VStr (default "" (words !! ik.1))]> m)
        ∅ (imap pair toc).

(** A line of the symbol listing, as the ELF loop sees it. *)
Definition elf_line (line : string) : string :=
  re_sub match_localentry "" (strip line).

(** The target of a stored relocation is the empty cell or a pair of a
    name and an addend. *)
Definition target_ok (rel : row) : Prop :=
  rel !! sym_name_key = Some (VStr "") ∨
  ∃ name addend, rel !! sym_name_key = Some (VPair name addend).


(** The names of the externs: no class symbol, no version suffix. *)
Definition extern_names_ok (cls_syms : odict row) (names : list string) : Prop :=
  Forall (λ n, od_get cls_syms n = None ∧ has_char "@" n = false) names.

(** A symbol that the loop over the functions adds under [name]. *)
Definition is_default_function (s : row) (name : string) : Prop :=
  s !! "Name" = Some (VStr name) ∧ s !! "Type" = Some (VStr "FUNC") ∧
  ∃ d, s !! "Default" = Some d ∧ truthy d = true.

(** The order of [sorted] on strings. *)
Definition le_str (a b : string) : Prop := String.leb a b = true.

(** What holds of every entry of [cls_syms]. *)
Definition class_symbol_ok (no_weak : bool) (item : string * row) : Prop :=
  item.2 !! "Name" = Some (VStr item.1) ∧
  is_exported no_weak item.2 = OK true ∧
  ∃ demangled, item.2 !! "Demangled Name" = Some (VStr demangled) ∧
               is_Some (match_class demangled).

(** ** A library with a class

    A shared library that exports the functions [C::foo()] and [bar] and
    the table and the type information of the class [C]; its read-only
    data section is stored at the start of the file. *)
Definition cxx_symtab : string :=
  text_of_lines
    [""; "Symbol table '.dynsym' contains 5 entries:"; symtab_header;
     "     0: 0000000000000000     0 NOTYPE  LOCAL  DEFAULT  UND ";
     "     1: 0000000000000080    11 FUNC    GLOBAL DEFAULT   12 _ZN1C3fooEv";
     "     2: 0000000000000100    16 OBJECT  WEAK   DEFAULT   19 _ZTV1C";
     "     3: 0000000000000110    16 OBJECT  WEAK   DEFAULT   19 _ZTI1C";
     "     4: 000000000000008b    11 FUNC    GLOBAL DEFAULT   12 bar"].

Definition cxx_nm : string :=
  text_of_lines
    ["0000000000000080 T _ZN1C3fooEv"; "0000000000000100 V _ZTV1C";
     "0000000000000110 V _ZTI1C"; "000000000000008b T bar";
     "                 U malloc"].

Definition cxx_dynamic : string :=
  text_of_lines
    [""; "Dynamic section at offset 0x2e00 contains 2 entries:";
     "  Tag        Type                         Name/Value";
     " 0x000000000000000e (SONAME)             Library soname: [libc1.so.1]";
     " 0x0000000000000000 (NULL)               0x0"].

Definition cxx_sections : string :=
  text_of_lines
    ["There are 4 section headers, starting at offset 0x3000:"; "";
     "Section Headers:";
     "  [Nr] Name              Type            Address          Off    Size   ES Flg Lk Inf Al";
     "  [ 0]                   NULL            0000000000000000 000000 000000 00      0   0  0";
     "  [ 1] .text             PROGBITS        0000000000000080 000080 000016 00  AX  0   0 16";
     "  [ 2] .data.rel.ro      PROGBITS        0000000000000100 000000 000020 00  WA  0   0  8";
     "  [ 3] .comment          PROGBITS        0000000000000000 000020 00002b 01  MS  0   0  1"].

Definition cxx_relocations : string :=
  text_of_lines
    [""; "Relocation section '.rela.dyn' at offset 0x4a8 contains 3 entries:";
     rela_header;
     "0000000000000108  0000000300000001 R_X86_64_64            0000000000000110 _ZTI1C + 0";
     "0000000000000110  0000000500000001 R_X86_64_64            0000000000000000 _ZTVN10__cxxabiv117__class_type_infoE + 10";
     "0000000000000118  0000000600000001 R_X86_64_64            0000000000000000 _ZTS1C + 0"].

(** The answer of [c++filt] for one name. *)
Definition cxx_demangled (name : string) : string :=
  if bool_decide (name = "_ZN1C3fooEv") then "C::foo()"
  else if bool_decide (name = "_ZTV1C") then "vtable for C"
  else if bool_decide (name = "_ZTI1C") then "typeinfo for C"
  else name.

Definition cxx_world : world :=
  World
    (λ args stdin,
       match args with
       | ["nm"; "-g"; _] => Ran cxx_nm "" 0
       | ["file"; f] => Ran (f +:+ ": ELF 64-bit LSB shared object, x86-64") "" 0
       | ["readelf"; "-d"; _] => Ran cxx_dynamic "" 0
       | ["readelf"; "-sW"; _] => Ran cxx_symtab "" 0
       | ["readelf"; "-SW"; _] => Ran cxx_sections "" 0
       | ["readelf"; "-rW"; _] => Ran cxx_relocations "" 0
       | ["c++filt"] =>
           Ran (text_of_lines (cxx_demangled <$> split_char LF stdin)) "" 0
       | _ => Ran "" "unexpected command" 1
       end)
    (λ path,
       if bool_decide (path = "/opt/implib/arch/x86_64/table.S.tpl")
       then OK ("table $lib_suffix $table_size" +:+ nl)
       else if bool_decide (path = "/opt/implib/arch/x86_64/trampoline.S.tpl")
       then OK ("trampoline $sym $offset $number" +:+ nl)
       else if bool_decide (path = "/opt/implib/arch/common/init.c.tpl")
       then OK ("init $load_name $sym_names" +:+ nl)
       else if bool_decide (path = "symbols.txt")
       then OK (text_of_lines ["bar  # the plain function"; ""; "baz"])
       else Raise OSError)
    (λ _, OK sample_file)
    (λ _, true)
    (λ _ _ key,
       if bool_decide (key = "PointerSize") then OK "8"
       else if bool_decide (key = "SymbolReloc") then OK "R_X86_64_64"
       else Raise (KeyError key))
    "/opt/implib".

Definition cxx_args (symbols : option string) : args :=
  Args "libc1.so" true "" "" None true true true false "x86_64-linux-gnu"
       symbols "" "./" None.

(** The plan of the run on the library with a class, without and with a
    symbol list. *)
Definition empty_plan : plan := Plan false "" "" 0 [] None.

Definition cxx_plan : plan :=
  value_of empty_plan (main_collect cxx_world (cxx_args None)).

Definition cxx_listed_plan : plan :=
  value_of empty_plan (main_collect cxx_world (cxx_args (Some "symbols.txt"))).

Definition cxx_secs : list row :=
  value_of [] (collect_sections cxx_world "libc1.so").

Definition text_section : row := default ∅ (head cxx_secs).

Definition cxx_rels : list row :=
  value_of [] (collect_relocs cxx_world "libc1.so").

Definition typeinfo_reloc : row := default ∅ (head cxx_rels).

(** Tools that print [symtab] for the symbol table of any file. *)
Definition listing_world (symtab : string) : world :=
  World (λ args _,
           match args with
           | ["nm"; "-g"; _] => Ran versions_nm "" 0
           | ["file"; _] => Ran "libv.so: ELF 64-bit LSB shared object, x86-64" "" 0
           | ["readelf"; "-sW"; _] => Ran symtab "" 0
           | _ => Ran "" "unexpected command" 1
           end)
        (λ _, Raise OSError) (λ _, Raise OSError) (λ _, false)
        (λ _ _ k, Raise (KeyError k)) "".

Definition no_symtab : string :=
  text_of_lines
    ["Dynamic symbol information is not available for displaying symbols."].

Definition symtab_lines : list string :=
  [""; "Symbol table '.dynsym' contains 4 entries:"; symtab_header; foo_line].

(** A file system where every path holds [text]. *)
Definition text_world (text : string) : world :=
  World (λ _ _, NotStarted) (λ _, OK text) (λ _, OK (bytes_of text))
        (λ _, false) (λ _ _ k, Raise (KeyError k)) "".

Definition library_only : string := text_of_lines ["LIBRARY foo.so.1"; "alpha"].

Definition def_syms : list row :=
  value_of [] (collect_def_exports def_world "exports.def").

(** The slots of [sample_vtable] read from [two_words], on their own and
    with relocations. *)
Definition word_slots : list slot := value_of [] (initial_slots 8 two_words).

Definition sample_slots : list slot :=
  value_of [] (relocated_symbol sample_vtable two_words [reloc_a; reloc_c] 8
                 x86_reloc_types).

Definition first_slot_only : list slot :=
  value_of [] (relocated_symbol sample_vtable two_words [reloc_a] 8
                 x86_reloc_types).

Definition overlaid_slots : list slot :=
  value_of [] (overlay 8 x86_reloc_types 256 272 [reloc_a; reloc_b; reloc_c]
                 word_slots).

Definition abstract_externs : list string :=
  value_of [] (print_externs abstract_syms abstract_data []).

(** A symbol of no bytes at the end address of [sample_section]. *)
Definition end_symbol : row := vtable_symbol "end" "end" 288 0.

(** The class symbols among [sample_vtable], [second_symbol] and [end_symbol], and
    their data. *)
Definition sample_classes : odict (odict string) * odict row :=
  value_of ([], [])
    (foldlM (class_symbol_step false) ([], [])
            [sample_vtable; end_symbol; second_symbol]).

Definition sample_bites : gmap string (list Z) :=
  value_of ∅ (read_unrelocated_data (file_world sample_file) "libc1.so"
                sample_classes.2 [sample_section]).

Definition sample_data : gmap string (list slot) :=
  value_of ∅ (collect_relocated_data sample_classes.2 sample_bites
                [reloc_a; reloc_c] 8 x86_reloc_types).


(** ** The target of a relocation, as the specification words it *)

(** The part of [s] after its first separator character. *)
Fixpoint after_sep (sep : ascii → bool) (s : string) : string :=
  match s with
  | EmptyString => EmptyString
  | String c s' => if sep c then s' else after_sep sep s'
  end.

(** The specification's reading of a normalized target cell: split once at
    [+] into the name and the hexadecimal addend; a cell without [+] is a
    name, with the addend 0. *)
Definition spec_target (cell : string) : res pyval :=
  if has_char "+" cell
  then VPair (before_sep (ascii_eqb "+") cell)
         <$> py_int 16 (after_sep (ascii_eqb "+") cell)
  else OK (VPair cell 0).

(** Rows of a relocation section with addends: against [_ZTI1C] with the
    addend -8, and against [add] with the addend 8. *)
Definition typeinfo_minus_line : string :=
  "0000000000003e08  0000000600000001 R_X86_64_64            0000000000003e18 _ZTI1C - 8".
Definition name_plus_line : string :=
  "0000000000003e10  0000000700000001 R_X86_64_64            0000000000001139 add + 8".

(** The target cell a row is parsed to, and the target stored for it. *)
Definition target_cell (toc : list string) (line : string) : res pyval :=
  rel <- parse_row (split_runs is_space
                      (re_sub (match_literal " + ") "+" line))
           toc ["Offset"; "Info"] ;;
  getitem rel sym_name_key.
Definition stored_target (toc : list string) (line : string) : res pyval :=
  rel <- reloc_row toc line ;; getitem rel sym_name_key.

(** ** The names of a symbol listing, as the specification words them *)

(** The first occurrences of the elements of a list, in order: the head,
    then the first occurrences of the rest without the head. *)
Fixpoint first_occurrences (l : list string) : list string :=
  match l with
  | [] => []
  | x :: l' => x :: filter (λ y, y ≠ x) (first_occurrences l')
  end.

(** The name cell of a data row: the word under the column [Name]. *)
Definition name_cell (words toc : list string) : string :=
  match cells words toc !! "Name" with
  | Some (VStr s) => s
  | _ => ""
  end.

(** The name cells of the data rows of the ELF listing, in order. A line
    that starts with [Num] is a header, the lines below it are data rows,
    and a blank line ends the table. *)
Fixpoint elf_name_cells (lines : list string) (toc : option (list string))
  : list string :=
  match lines with
  | [] => []
  | line :: rest =>
      if bool_decide (elf_line line = "") then elf_name_cells rest None
      else if startswith "Num" (elf_line line) then
        elf_name_cells rest
          (Some (make_toc (map (remove_char ":") (elf_words line)) ∅))
      else
        match toc with
        | Some t => name_cell (elf_words line) t :: elf_name_cells rest toc
        | None => elf_name_cells rest toc
        end
  end.

(** The raw names of the ELF listing: the distinct non-empty name cells, in
    the order of their first rows. *)
Definition elf_raw_names (lines : list string) : list string :=
  first_occurrences (filter (λ c, c ≠ "") (elf_name_cells lines None)).

(** The names of the Mach-O listing: the third word of every line that has
    three words. *)
Definition macho_name (line : string) : option string :=
  match split_ws (strip line) with
  | _ :: _ :: name :: _ => Some name
  | _ => None
  end.
Definition macho_raw_names (lines : list string) : list string :=
  first_occurrences (omap macho_name lines).

(** The listing [collect_syms] reads, the raw names of its rows and the
    name a row is stored under, for the Mach-O and for the ELF path. *)
Definition listing_command (macho : bool) (f : string) : list string :=
  if macho then ["nm"; "-D"; f] else ["readelf"; "-sW"; f].
Definition raw_names (macho : bool) (listing : string) : list string :=
  if macho then macho_raw_names (splitlines listing)
  else elf_raw_names (splitlines listing).
Definition stored_name (macho : bool) (raw : string) : string :=
  if macho then raw else before_at raw.

(** What the ELF loop stores for the raw name [raw]: the version fields,
    for a name with at most one run of [@], and the visibility that the
    table read from [nm] has for the stored name. *)
Definition elf_record (vis : gmap string string) (raw : string) (s : row)
  : Prop :=
  version_fields raw s ∧ has_char "@" (after_at raw) = false ∧
  s !! "Visibility" = Some (VStr (default "DEFAULT" (vis !! before_at raw))).

(** What the Mach-O loop stores for the name [name]. *)
Definition macho_record (vis : gmap string string) (name : string) (s : row)
  : Prop :=
  ∃ value ty, s = macho_symbol vis value ty name.

(** [name] is the third word of no line of the output of [nm -g]. *)
Definition unlisted (nm_out name : string) : Prop :=
  ∀ line a t n rest,
    line ∈ splitlines nm_out → split_ws line = a :: t :: n :: rest → n ≠ name.

(** The visibility of the record stored under [name], and what the export
    filter makes of it when [nm -g] does not list the name. *)
Definition visibility_fields (nm_out name : string) (s : row) : Prop :=
  s !! "Name" = Some (VStr name) ∧
  s !! "Visibility"
    = Some (VStr (default "DEFAULT" (nm_visibility nm_out !! name))) ∧
  (unlisted nm_out name →
   s !! "Visibility" = Some (VStr "DEFAULT") ∧
   ∀ no_weak bind_ type ndx,
     s !! "Bind" = Some bind_ → s !! "Type" = Some type →
     s !! "Ndx" = Some ndx →
     is_exported no_weak s
       = OK (py_ne bind_ (VStr "LOCAL") && py_ne type (VStr "NOTYPE")
             && py_ne ndx (VStr "UND")
             && negb (py_in (VStr name) [VStr ""; VStr "_init"; VStr "_fini"])
             && (if no_weak then py_ne bind_ (VStr "WEAK") else true))).

(** A library of a Mach-O system: [nm -D] lists [_foo] twice and [_bar],
    [nm -g] lists [_foo] only. *)
Definition macho_listing : string :=
  text_of_lines
    ["0000000000003f50 T _foo"; "                 U _malloc";
     "0000000000003f70 T _bar"; "0000000000003f50 T _foo"].
Definition macho_nm : string := text_of_lines ["0000000000003f50 T _foo"].
Definition macho_world : world :=
  World (λ args _,
           match args with
           | ["nm"; "-g"; _] => Ran macho_nm "" 0
           | ["file"; f] =>
               Ran (f +:+ ": Mach-O 64-bit dynamically linked shared library x86_64")
                   "" 0
           | ["nm"; "-D"; _] => Ran macho_listing "" 0
           | _ => Ran "" "unexpected command" 1
           end)
        (λ _, Raise OSError) (λ _, Raise OSError) (λ _, false)
        (λ _ _ k, Raise (KeyError k)) "".
Definition macho_syms : list row :=
  value_of [] (collect_syms macho_world "libm.dylib").

(** What [run] reports when [readelf] rejects a text file. *)
Definition not_elf_message : string :=
  "readelf failed with retcode 1:" +:+ nl +:+
  "readelf: Error: Not an ELF file - it has the wrong magic bytes at the start".

(** The same command line without [--vtables]. *)
Definition without_vtables (a : args) : args :=
  Args (library a) (dlopen a) (dlopen_callback a) (dlsym_callback a)
       (library_load_name a) (lazy_load a) (thread_safe a) false
       (no_weak_symbols a) (target a) (symbol_list a) (symbol_prefix a)
       (outdir a) (suffix a).

(** The plan of the run on the export list without [--vtables]. *)
Definition def_plan : plan :=
  value_of empty_plan
    (main_collect def_world (without_vtables (vtables_args "exports.def"))).

(** * Properties *)

(** ** Basic facts about the error monad and the values *)

(** Closes an equation between closed terms by evaluation. *)
Ltac vm_refl :=
  lazymatch goal with |- ?x = ?y => vm_cast_no_check (eq_refl y) end.

Lemma bind_OK {A B} (m : res A) (f : A → res B) (b : B) :
  bind m f = OK b → ∃ a, m = OK a ∧ f a = OK b.
Proof. destruct m as [a|e]; simpl; [eauto | discriminate]. Qed.

Lemma fmap_OK {A B} (g : A → B) (m : res A) (b : B) :
  g <$> m = OK b → ∃ a, m = OK a ∧ b = g a.
Proof.
  destruct m as [a|e]; unfold fmap, res_fmap; intros H;
    [injection H as <-; eauto | discriminate].
Qed.

Lemma py_eq_str (v : pyval) (c : string) : py_eq v (VStr c) = true ↔ v = VStr c.
Proof. destruct v; unfold py_eq; by rewrite bool_decide_eq_true. Qed.

Lemma py_ne_str (v : pyval) (c : string) : py_ne v (VStr c) = true ↔ v ≠ VStr c.
Proof.
  unfold py_ne. rewrite negb_true_iff, <- not_true_iff_false.
  by rewrite py_eq_str.
Qed.

Lemma py_in_strs (v : pyval) (cs : list string) :
  py_in v (VStr <$> cs) = true ↔ v ∈ (VStr <$> cs).
Proof.
  unfold py_in. induction cs as [|c cs IH]; simpl.
  - split; [discriminate | by intros ?%elem_of_nil].
  - rewrite orb_true_iff, IH, py_eq_str, elem_of_cons. tauto.
Qed.

Lemma getitem_Some (d : row) (k : string) (v : pyval) :
  d !! k = Some v → getitem d k = OK v.
Proof. unfold getitem. by intros ->. Qed.

(** ** The export filter *)

(** C5. A symbol record with the five fields the filter reads is exported
    exactly when its binding is not LOCAL, its visibility is not HIDDEN,
    its type is not NOTYPE, its section index is not UND, its name is none
    of the empty name, [_init] and [_fini], and, with the no-weak-symbols
    option, its binding is not WEAK; the filter always answers on such a
    record. *)
Theorem is_exported_iff (no_weak : bool) (s : row)
    (bind_ visibility type ndx name : pyval) :
  s !! "Bind" = Some bind_ →
  s !! "Visibility" = Some visibility →
  s !! "Type" = Some type →
  s !! "Ndx" = Some ndx →
  s !! "Name" = Some name →
  ∃ b, is_exported no_weak s = OK b ∧
       (b = true ↔
          bind_ ≠ VStr "LOCAL" ∧ visibility ≠ VStr "HIDDEN" ∧
          type ≠ VStr "NOTYPE" ∧ ndx ≠ VStr "UND" ∧
          (name ∉ [VStr ""; VStr "_init"; VStr "_fini"]) ∧
          (no_weak = true → bind_ ≠ VStr "WEAK")).
Proof.
  intros Hb Hv Ht Hn Hname. unfold is_exported.
  rewrite !(getitem_Some _ _ _ Hb), (getitem_Some _ _ _ Hv),
    (getitem_Some _ _ _ Ht), (getitem_Some _ _ _ Hn),
    (getitem_Some _ _ _ Hname).
  pose proof (py_in_strs name [""; "_init"; "_fini"]) as Hin.
  change (VStr <$> [""; "_init"; "_fini"])
    with [VStr ""; VStr "_init"; VStr "_fini"] in Hin.
  destruct no_weak; simpl; eexists; (split; [reflexivity|]);
    rewrite ?andb_true_iff, ?negb_true_iff, !py_ne_str,
      <- ?not_true_iff_false, ?Hin; unfold id; intuition congruence.
Qed.

Lemma is_exported_iff_witness :
  ∃ b, is_exported true sample_symbol = OK b ∧
       (b = true ↔
          VStr "WEAK" ≠ VStr "LOCAL" ∧ VStr "DEFAULT" ≠ VStr "HIDDEN" ∧
          VStr "FUNC" ≠ VStr "NOTYPE" ∧ VStr "12" ≠ VStr "UND" ∧
          (VStr "foo" ∉ [VStr ""; VStr "_init"; VStr "_fini"]) ∧
          (true = true → VStr "WEAK" ≠ VStr "WEAK")).
Proof.
  apply (is_exported_iff true sample_symbol); reflexivity.
Defined.

(** ** The words of a table *)

Lemma py_range_pos (stop step : Z) :
  0 < step →
  py_range 0 stop step =
    OK ((λ k : nat, 0 + Z.of_nat k * step)
          <$> seq 0 (Z.to_nat ((stop - 0 + step - 1) / step))).
Proof.
  intros H. unfold py_range.
  destruct (Z.eqb_spec step 0) as [->|_]; [lia|].
  by destruct (Z.ltb_spec 0 step); [|lia].
Qed.

(** The number of slots is the size divided by the pointer size, rounded
    up. *)
Lemma initial_slots_length (ptr_size : Z) (b : list Z) (slots : list slot) :
  0 < ptr_size →
  initial_slots ptr_size b = OK slots →
  Z.of_nat (length slots) = (Z.of_nat (length b) + ptr_size - 1) / ptr_size.
Proof.
  intros Hp. unfold initial_slots. rewrite py_range_pos by done. simpl.
  intros [= <-]. rewrite !length_fmap, length_seq, Z2Nat.id; [f_equal; lia|].
  apply Z.div_pos; lia.
Qed.

(** The k-th slot reads [ptr_size] bytes from the byte [k * ptr_size *
    ptr_size] on: the loop variable, which already counts bytes, is
    multiplied by the pointer size once more. *)
Lemma initial_slots_lookup (ptr_size : Z) (b : list Z) (slots : list slot)
    (k : nat) (sl : slot) :
  0 < ptr_size →
  initial_slots ptr_size b = OK slots →
  slots !! k = Some sl →
  sl = SOffset (from_bytes_little
                  (py_slice b (Z.of_nat k * ptr_size * ptr_size)
                              ((Z.of_nat k * ptr_size + 1) * ptr_size))).
Proof.
  intros Hp. unfold initial_slots. rewrite py_range_pos by done. simpl.
  intros [= <-]. rewrite !list_lookup_fmap.
  destruct (seq 0 _ !! k) as [i|] eqn:Hi; simpl; [|discriminate].
  apply lookup_seq in Hi as [-> _]. intros [= <-]. simpl.
  by rewrite Z.add_0_l.
Qed.

(** C1. On a table of two 8-byte words, 1 and 2, the source computes the
    slots [Offset 1; Offset 0], where the specification has
    [Offset 1; Offset 2]: the second word is read from the byte 64 on. *)
Theorem initial_slots_second_word :
  initial_slots 8 two_words = OK [SOffset 1; SOffset 0] ∧
  spec_initial_slots 8 two_words = [SOffset 1; SOffset 2] ∧
  relocated_symbol sample_vtable two_words [] 8 ∅ = OK [SOffset 1; SOffset 0].
Proof. repeat split; vm_compute; reflexivity. Qed.

(** ** The bytes of a symbol *)

(** C2. For a symbol at address 0x108 in a section that starts at address
    0x100, the source returns the first 8 bytes of the section, where the
    specification has the 8 bytes from the offset 8 of the section on. *)
Theorem read_symbol_data_section_start :
  read_symbol_data sample_file second_symbol [sample_section]
    = OK [0; 1; 2; 3; 4; 5; 6; 7] ∧
  spec_symbol_bytes sample_file second_symbol sample_section
    = OK [8; 9; 10; 11; 12; 13; 14; 15] ∧
  read_unrelocated_data (file_world sample_file) "libx.so"
      [("_ZTI1C", second_symbol)] [sample_section]
    = OK {[ "_ZTI1C" := [0; 1; 2; 3; 4; 5; 6; 7] ]}.
Proof. repeat split; vm_compute; reflexivity. Qed.

(** ** The externs of the generated tables *)

(** C3. For a table with two slots relocated against the same symbol, which
    is not a class symbol, the generated code declares that symbol twice. *)
Theorem generate_vtables_repeats_extern :
  ∃ text, generate_vtables [] abstract_syms abstract_data = OK text ∧
          count_sub "extern const char __cxa_pure_virtual[];" text = 2%nat.
Proof. eexists. split; vm_compute; reflexivity. Qed.

(** ** The target of a relocation *)

Lemma ascii_eqb_sym (a b : ascii) : ascii_eqb a b = ascii_eqb b a.
Proof. unfold ascii_eqb. apply bool_decide_ext. split; congruence. Qed.

Lemma append_cons (c : ascii) (s t : string) :
  String c s +:+ t = String c (s +:+ t).
Proof. reflexivity. Qed.

Lemma append_nil (t : string) : "" +:+ t = t.
Proof. reflexivity. Qed.

Lemma has_char_cons (c x : ascii) (s : string) :
  has_char c (String x s) = ascii_eqb c x || has_char c s.
Proof. reflexivity. Qed.

Lemma split_char_absent (c : ascii) (s : string) :
  has_char c s = false → split_char c s = [s].
Proof.
  induction s as [|x s IH]; [done|].
  rewrite has_char_cons, orb_false_iff. intros [Hx Hs]. simpl.
  rewrite ascii_eqb_sym, Hx, IH by done. reflexivity.
Qed.

Lemma split_char_append (c : ascii) (s rest : string) :
  has_char c s = false →
  split_char c (s +:+ String c rest) = s :: split_char c rest.
Proof.
  induction s as [|x s IH].
  - intros _. rewrite append_nil. simpl.
    unfold ascii_eqb at 1. by rewrite bool_decide_eq_true_2.
  - rewrite has_char_cons, orb_false_iff. intros [Hx Hs].
    rewrite append_cons. simpl. rewrite ascii_eqb_sym, Hx, IH by done.
    reflexivity.
Qed.

(** Splitting undoes joining, when no piece holds the separator. *)
Lemma split_char_concat (c : ascii) (ps : list string) :
  ps ≠ [] →
  Forall (λ p, has_char c p = false) ps →
  split_char c (String.concat (String c "") ps) = ps.
Proof.
  induction ps as [|p ps IH]; [done|]. intros _ Hall.
  apply Forall_cons in Hall as [Hp Hps].
  destruct ps as [|q ps]; simpl.
  - by apply split_char_absent.
  - rewrite append_cons, append_nil, split_char_append by done.
    f_equal. by apply IH.
Qed.

Lemma nonempty_true (s : string) : s ≠ "" → nonempty s = true.
Proof. intros H. unfold nonempty. by rewrite bool_decide_eq_false_2. Qed.

Lemma append_cons_nonempty (s t : string) (c : ascii) : s +:+ String c t ≠ "".
Proof. by destruct s. Qed.

Lemma split_target_pair (name addend : string) (more : list string) :
  Forall (λ p, has_char "+" p = false) (name :: addend :: more) →
  split_target (String.concat "+" (name :: addend :: more))
    = VPair name <$> py_int 16 addend.
Proof.
  intros Hall. unfold split_target.
  by rewrite (split_char_concat "+" (name :: addend :: more)).
Qed.

Lemma split_target_bare (cell : string) :
  has_char "+" cell = false →
  split_target cell = VPair "" <$> py_int 16 cell.
Proof. intros H. unfold split_target. by rewrite split_char_absent. Qed.

(** The target cell is split at every plus sign. With at least two pieces
    the stored target is the first piece and the second piece read as a
    hexadecimal number. A cell of the column [Symbol's Name + Addend]
    without a plus sign is stored with an empty symbol name and the whole
    cell read as a hexadecimal addend, which is how the listing shows a
    relocation without a symbol. A listing that has a column
    [Symbol's Name] and no column with addends stores the name with the
    addend 0. *)
Theorem store_target_spec (rel : row) (name addend : string)
    (more : list string) :
  Forall (λ p, has_char "+" p = false) (name :: addend :: more) →
  (rel !! sym_name_key
     = Some (VStr (String.concat "+" (name :: addend :: more))) →
   store_target rel
     = (λ a, <[sym_name_key := VPair name a]> rel) <$> py_int 16 addend) ∧
  (rel !! sym_name_key = Some (VStr name) → name ≠ "" →
   store_target rel
     = (λ a, <[sym_name_key := VPair "" a]> rel) <$> py_int 16 name) ∧
  (rel !! sym_name_key = None → rel !! "Symbol's Name" = Some (VStr name) →
   store_target rel = OK (<[sym_name_key := VPair name 0]> rel)).
Proof.
  intros Hall. pose proof Hall as Hname%Forall_cons_1%proj1.
  split; [|split].
  - intros Hcell. unfold store_target. rewrite Hcell.
    cbn [bind]. rewrite (getitem_Some _ _ _ Hcell). cbn [bind truthy].
    rewrite nonempty_true by (simpl; apply append_cons_nonempty).
    cbn [as_str bind].
    rewrite split_target_pair by done. by destruct (py_int 16 addend).
  - intros Hcell Hne. unfold store_target. rewrite Hcell.
    cbn [bind]. rewrite (getitem_Some _ _ _ Hcell). cbn [bind truthy].
    rewrite nonempty_true by done. cbn [as_str bind].
    rewrite split_target_bare by done. by destruct (py_int 16 name).
  - intros Hnone Hsome. unfold store_target. rewrite Hnone, Hsome.
    cbn [bind as_str].
    unfold getitem. rewrite lookup_insert_eq. cbn [bind truthy].
    rewrite nonempty_true by apply append_cons_nonempty. cbn [as_str bind].
    change (name +:+ "+0") with (String.concat "+" [name; "0"]).
    rewrite split_target_pair by (repeat constructor; done).
    change (py_int 16 "0") with (OK (A:=Z) 0). 
    unfold fmap, res_fmap. cbn [bind].
    by rewrite insert_insert_eq.
Qed.

Lemma store_target_spec_witness :
  store_target {[ sym_name_key := VStr "_ZTI1C+10" ]}
    = OK {[ sym_name_key := VPair "_ZTI1C" 16 ]}.
Proof.
  assert (Forall (λ p, has_char "+" p = false) ["_ZTI1C"; "10"]) as Hall
    by (repeat constructor).
  destruct (store_target_spec {[ sym_name_key := VStr "_ZTI1C+10" ]}
              "_ZTI1C" "10" [] Hall) as [H _].
  rewrite H by reflexivity. vm_refl.
Defined.

(** C6. The listing of a section with addends shows a negative addend as
    [add - 8]. Only [" + "] is normalized, so the target cell of such a row
    is the name [add] alone; where the specification has the target
    [("add", 0)] for a cell that is a name without [+], the source stores
    an empty symbol name with the addend 0xadd, and on the row
    [_ZTI1C - 8] it raises [ValueError]. The same relocation with a
    positive addend, and the row of a section without addends, are stored
    under the name [add]. *)
Theorem reloc_negative_addend :
  target_cell rela_toc name_only_line = OK (VStr "add") ∧
  stored_target rela_toc name_only_line = OK (VPair "" 2781) ∧
  (λ rels : list row, (λ rel : row, rel !! sym_name_key) <$> rels)
    <$> relocs_loop "libadd.so" [rela_header; name_only_line] None []
    = OK [Some (VPair "" 2781)] ∧
  spec_target "add" = OK (VPair "add" 0) ∧
  reloc_row rela_toc typeinfo_minus_line
    = Raise (ValueError "invalid literal for int()") ∧
  stored_target rela_toc name_plus_line = OK (VPair "add" 8) ∧
  stored_target rela_toc name_addend_line = OK (VPair "_ZTI1C" 16) ∧
  stored_target rel_toc rel_line = OK (VPair "add" 0).
Proof. repeat split; vm_compute; reflexivity. Qed.

(** ** Splitting at runs of a separator *)

Section split.
Context (sep : ascii → bool).

Lemma split_runs_go_nonnil (r : bool) (s : string) : split_runs_go sep r s ≠ [].
Proof.
  revert r. induction s as [|c s IH]; intros r; simpl; [done|].
  destruct (sep c); [by destruct r|].
  specialize (IH false). by destruct (split_runs_go sep false s).
Qed.

Lemma split_runs_go_true (s : string) :
  split_runs_go sep true s = split_runs_go sep false (skip_sep sep s).
Proof.
  induction s as [|c s IH]; [done|]. simpl.
  destruct (sep c) eqn:Hc; [done|]. simpl. by rewrite Hc.
Qed.

Lemma split_runs_absent (s : string) :
  str_exists sep s = false → split_runs sep s = [s].
Proof.
  unfold split_runs. induction s as [|c s IH]; [done|]. simpl.
  rewrite orb_false_iff. intros [-> Hs]. by rewrite IH.
Qed.

Lemma split_runs_present (s : string) :
  str_exists sep s = true →
  split_runs sep s = before_sep sep s :: split_runs sep (after_run sep s).
Proof.
  unfold split_runs. induction s as [|c s IH]; [done|]. simpl.
  destruct (sep c) eqn:Hc; simpl.
  - intros _. by rewrite split_runs_go_true.
  - intros Hs. by rewrite IH.
Qed.

Lemma before_sep_absent (s : string) : str_exists sep (before_sep sep s) = false.
Proof.
  induction s as [|c s IH]; [done|]. simpl.
  destruct (sep c) eqn:Hc; [done|]. simpl. by rewrite Hc.
Qed.

Lemma before_sep_id (s : string) :
  str_exists sep s = false → before_sep sep s = s.
Proof.
  induction s as [|c s IH]; [done|]. simpl.
  rewrite orb_false_iff. intros [-> Hs]. by rewrite IH.
Qed.

End split.

(** ** The version suffix of an ELF symbol name *)

Lemma set_version_plain (sym : row) (raw : string) :
  has_char "@" raw = false →
  set_version sym raw
    = OK (<["Version" := VNone]> (<["Default" := VBool true]> sym), raw).
Proof. intros H. unfold set_version. by rewrite H. Qed.

Lemma set_version_one_run (sym : row) (raw : string) :
  has_char "@" raw = true →
  has_char "@" (after_at raw) = false →
  set_version sym raw
    = OK (<["Version" := VStr (after_at raw)]>
            (<["Name" := VStr (before_at raw)]>
               (<["Default" := VBool (contains "@@" raw)]> sym)),
          before_at raw).
Proof.
  intros H1 H2. unfold set_version. rewrite H1.
  rewrite split_runs_present by done.
  by rewrite (split_runs_absent _ (after_run _ raw)) by done.
Qed.

Lemma set_version_more_runs (sym : row) (raw : string) :
  has_char "@" raw = true →
  has_char "@" (after_at raw) = true →
  set_version sym raw = Raise (ValueError "wrong number of values to unpack").
Proof.
  intros H1 H2. unfold set_version. rewrite H1.
  rewrite split_runs_present by done.
  rewrite (split_runs_present _ (after_run _ raw)) by done.
  unfold split_runs.
  pose proof (split_runs_go_nonnil (ascii_eqb "@") false
                (after_run (ascii_eqb "@") (after_run (ascii_eqb "@") raw))).
  by destruct (split_runs_go _ _ _).
Qed.

Lemma set_version_stored (sym sym' : row) (raw stored : string) :
  set_version sym raw = OK (sym', stored) →
  stored = before_at raw ∧ has_char "@" stored = false.
Proof.
  destruct (has_char "@" raw) eqn:H1.
  - destruct (has_char "@" (after_at raw)) eqn:H2.
    + by rewrite set_version_more_runs.
    + rewrite set_version_one_run by done. intros [= _ <-].
      split; [done|]. apply before_sep_absent.
  - rewrite set_version_plain by done. intros [= _ <-].
    split; [|done]. symmetry. by apply before_sep_id.
Qed.

Lemma get_str_OK (d : row) (k s : string) :
  get_str d k = OK s → d !! k = Some (VStr s).
Proof.
  unfold get_str, getitem. destruct (d !! k) as [v|]; simpl; [|done].
  destruct v; simpl; congruence.
Qed.

Lemma hex_convert_other (hex_keys : list string) (vals r : row) (k : string) :
  k ∉ hex_keys → hex_convert hex_keys vals = OK r → r !! k = vals !! k.
Proof.
  revert vals. induction hex_keys as [|h hs IH]; intros vals Hk; simpl.
  - by intros [= <-].
  - apply not_elem_of_cons in Hk as [Hne Hk].
    intros (v & _ & H)%bind_OK. destruct (truthy v).
    + apply bind_OK in H as (n & _ & H). rewrite (IH _ Hk H).
      by apply lookup_insert_ne.
    + by apply IH.
Qed.

Lemma elf_symbol_row_inv (vis : gmap string string) (words toc : list string)
    (seen : gset string) (sym : row) (raw : string) :
  elf_symbol_row vis words toc seen = OK (Some (sym, raw)) →
  (raw ∉ seen) ∧
  ∃ (sym0 sym1 : row) (size : Z),
    sym0 !! "Name" = Some (VStr raw) ∧
    set_version (<["Size" := VInt size]> sym0) raw = OK (sym1, before_at raw) ∧
    sym = <["Visibility" := VStr (default "DEFAULT" (vis !! before_at raw))]> sym1.
Proof.
  unfold elf_symbol_row. intros H.
  apply bind_OK in H as (sym0 & _ & H).
  apply bind_OK in H as (name & Hname%get_str_OK & H).
  destruct (nonempty name); simpl in H; [|discriminate].
  destruct (bool_decide (name ∈ seen)) eqn:Hseen; [discriminate|].
  apply bool_decide_eq_false in Hseen.
  apply bind_OK in H as (cell & _ & H).
  apply bind_OK in H as (size & _ & H).
  apply bind_OK in H as ([sym1 stored] & Hv & H).
  injection H as <- <-. split; [done|].
  destruct (set_version_stored _ _ _ _ Hv) as [-> _].
  by exists sym0, sym1, size.
Qed.

Lemma elf_symbol_row_fields (vis : gmap string string) (words toc : list string)
    (seen : gset string) (sym : row) (raw : string) :
  elf_symbol_row vis words toc seen = OK (Some (sym, raw)) →
  (raw ∉ seen) ∧
  sym !! "Name" = Some (VStr (before_at raw)) ∧
  has_char "@" (before_at raw) = false ∧
  sym !! "Visibility"
    = Some (VStr (default "DEFAULT" (vis !! before_at raw))) ∧
  (if has_char "@" raw
   then sym !! "Version" = Some (VStr (after_at raw)) ∧
        sym !! "Default" = Some (VBool (contains "@@" raw)) ∧
        has_char "@" (after_at raw) = false
   else sym !! "Version" = Some VNone ∧
        sym !! "Default" = Some (VBool true)).
Proof.
  intros (Hseen & sym0 & sym1 & size & Hname & Hv & ->)%elf_symbol_row_inv.
  split; [done|].
  rewrite lookup_insert_ne by done. rewrite lookup_insert_eq.
  rewrite !(lookup_insert_ne _ "Visibility") by done.
  assert (has_char "@" (before_at raw) = false) as Hb
    by apply before_sep_absent.
  destruct (has_char "@" raw) eqn:H1.
  - destruct (has_char "@" (after_at raw)) eqn:H2.
    + by rewrite set_version_more_runs in Hv.
    + rewrite set_version_one_run in Hv by done. injection Hv as <-.
      rewrite lookup_insert_eq.
      rewrite !(lookup_insert_ne _ "Version") by done.
      rewrite !lookup_insert_eq.
      rewrite !(lookup_insert_ne _ "Name") by done.
      by rewrite lookup_insert_eq.
  - rewrite set_version_plain in Hv by done. injection Hv as <- Hraw.
    rewrite lookup_insert_eq.
    rewrite !(lookup_insert_ne _ "Version") by done.
    rewrite lookup_insert_eq.
    rewrite !(lookup_insert_ne _ _ "Name") by done.
    by rewrite Hname, <- Hraw.
Qed.

Lemma elf_symbol_row_version_fields (vis : gmap string string)
    (words toc : list string) (seen : gset string) (sym : row) (raw : string) :
  elf_symbol_row vis words toc seen = OK (Some (sym, raw)) →
  version_fields raw sym ∧ has_char "@" (after_at raw) = false.
Proof.
  intros (_ & Hname & Hb & _ & Hv)%elf_symbol_row_fields.
  unfold version_fields. destruct (has_char "@" raw) eqn:Hat.
  - destruct Hv as (? & ? & ?). by repeat split.
  - destruct Hv as (? & ?). repeat split; try done.
    unfold after_at.
    clear -Hat. induction raw as [|c raw IH]; [done|].
    rewrite has_char_cons, orb_false_iff in Hat. destruct Hat as [Hc Hraw].
    simpl. rewrite Hc. by apply IH.
Qed.

Lemma macho_symbol_name (vis : gmap string string) (value : Z)
    (ty name : string) :
  macho_symbol vis value ty name !! "Name" = Some (VStr name) ∧
  macho_symbol vis value ty name !! "Visibility"
    = Some (VStr (default "DEFAULT" (vis !! name))).
Proof.
  unfold macho_symbol. split.
  - rewrite !(lookup_insert_ne _ _ "Name") by done. apply lookup_insert_eq.
  - apply lookup_insert_eq.
Qed.

(** ** Names that the visibility table does not list *)

Lemma nm_visibility_line_other (vis : gmap string string) (line name : string) :
  (∀ a t n rest, split_ws line = a :: t :: n :: rest → n ≠ name) →
  nm_visibility_line vis line !! name = vis !! name.
Proof.
  intros H. unfold nm_visibility_line.
  destruct (split_ws line) as [|a [|t [|n rest]]]; try done.
  apply lookup_insert_ne. by eapply H.
Qed.

(** A name that is the third word of no line has no entry in the table. *)
Lemma nm_visibility_unlisted (nm_out name : string) :
  (∀ line a t n rest,
     line ∈ splitlines nm_out → split_ws line = a :: t :: n :: rest → n ≠ name) →
  nm_visibility nm_out !! name = None.
Proof.
  unfold nm_visibility. generalize (splitlines nm_out). intros lines.
  enough (∀ vis : gmap string string,
            (∀ line a t n rest,
               line ∈ lines → split_ws line = a :: t :: n :: rest → n ≠ name) →
            foldl nm_visibility_line vis lines !! name = vis !! name) as Hgen.
  { intros H. by rewrite Hgen. }
  induction lines as [|line lines IH]; intros vis H; [done|]. simpl.
  rewrite IH.
  - apply nm_visibility_line_other. intros a t n rest. apply H. by left.
  - intros l a t n rest Hl. apply H. by right.
Qed.

(** ** The records of a listing *)

Lemma filter_first_occurrences_seen (seen : gset string) (x : string)
    (l : list string) :
  x ∈ seen →
  filter (λ r, r ∉ seen) (filter (λ y, y ≠ x) l) = filter (λ r, r ∉ seen) l.
Proof.
  intros Hx. induction l as [|y l IH]; [done|].
  rewrite !filter_cons. destruct (decide (y ≠ x)) as [Hy|Hy].
  - rewrite filter_cons. destruct (decide (y ∉ seen)); by rewrite IH.
  - apply dec_stable in Hy as ->. rewrite decide_False by (intros H; by apply H).
    exact IH.
Qed.

Lemma filter_first_occurrences_new (seen : gset string) (x : string)
    (l : list string) :
  filter (λ r, r ∉ seen) (filter (λ y, y ≠ x) l)
    = filter (λ r, r ∉ {[x]} ∪ seen) l.
Proof.
  induction l as [|y l IH]; [done|].
  rewrite !filter_cons. destruct (decide (y ≠ x)) as [Hy|Hy].
  - rewrite filter_cons. destruct (decide (y ∉ seen)) as [Hs|Hs].
    + rewrite decide_True by set_solver. by rewrite IH.
    + rewrite decide_False by set_solver. exact IH.
  - apply dec_stable in Hy as ->. rewrite decide_False by set_solver. exact IH.
Qed.

Lemma first_occurrences_NoDup (l : list string) : NoDup (first_occurrences l).
Proof.
  induction l as [|y l IH]; simpl; [constructor|].
  constructor; [|by apply NoDup_filter].
  rewrite list_elem_of_filter. naive_solver.
Qed.

Lemma parse_row_name_cell (words toc : list string) (sym0 : row) (name : string) :
  parse_row words toc ["Value"] = OK sym0 →
  get_str sym0 "Name" = OK name → name = name_cell words toc.
Proof.
  intros Hrow Hname%get_str_OK. unfold name_cell.
  assert ("Name" ∉ ["Value"]) as Hk by set_solver.
  rewrite <- (hex_convert_other ["Value"] (cells words toc) sym0 "Name" Hk Hrow).
  by rewrite Hname.
Qed.

Lemma elf_symbol_row_some (vis : gmap string string) (words toc : list string)
    (seen : gset string) (sym : row) (raw : string) :
  elf_symbol_row vis words toc seen = OK (Some (sym, raw)) →
  raw = name_cell words toc ∧ raw ≠ "" ∧ (raw ∉ seen) ∧ elf_record vis raw sym.
Proof.
  intros H.
  pose proof H as (Hseen & _ & _ & Hvis & _)%elf_symbol_row_fields.
  pose proof H as (Hv & Hone)%elf_symbol_row_version_fields.
  unfold elf_symbol_row in H.
  apply bind_OK in H as (sym0 & Hrow & H).
  apply bind_OK in H as (name & Hname & H).
  pose proof (parse_row_name_cell _ _ _ _ Hrow Hname) as Hcell.
  unfold nonempty in H. rewrite negb_involutive in H.
  destruct (bool_decide (name = "")) eqn:Hne; [discriminate|].
  apply bool_decide_eq_false in Hne.
  destruct (bool_decide (name ∈ seen)); [discriminate|].
  apply bind_OK in H as (cell & _ & H).
  apply bind_OK in H as (size & _ & H).
  apply bind_OK in H as (versioned & _ & H).
  injection H as _ <-.
  split; [done|]. split; [done|]. split; [done|]. by split; [|split].
Qed.

Lemma elf_symbol_row_none (vis : gmap string string) (words toc : list string)
    (seen : gset string) :
  elf_symbol_row vis words toc seen = OK None →
  name_cell words toc = "" ∨ name_cell words toc ∈ seen.
Proof.
  unfold elf_symbol_row. intros H.
  apply bind_OK in H as (sym0 & Hrow & H).
  apply bind_OK in H as (name & Hname & H).
  rewrite <- (parse_row_name_cell _ _ _ _ Hrow Hname).
  unfold nonempty in H. rewrite negb_involutive in H.
  destruct (bool_decide (name = "")) eqn:Hne;
    [apply bool_decide_eq_true in Hne; by left|].
  destruct (bool_decide (name ∈ seen)) eqn:Hseen;
    [apply bool_decide_eq_true in Hseen; by right|].
  apply bind_OK in H as (cell & _ & H).
  apply bind_OK in H as (size & _ & H).
  apply bind_OK in H as (versioned & _ & H). discriminate.
Qed.

(** The ELF loop stores one record for each raw name of the listing that
    was not seen before, in the order of the listing. *)
Lemma elf_loop_exact (vis : gmap string string) (lines : list string) :
  ∀ toc syms seen st,
    elf_loop vis lines toc syms seen = OK st →
    ∃ new, st.1.2 = syms ++ new ∧
      Forall2 (elf_record vis)
        (filter (λ r, r ∉ seen)
           (first_occurrences
              (filter (λ c, c ≠ "") (elf_name_cells lines toc))))
        new.
Proof.
  induction lines as [|line lines IH]; intros toc syms seen st;
    cbn [elf_loop elf_name_cells].
  - intros [= <-]. exists []. split; [by rewrite app_nil_r|constructor].
  - unfold elf_words. fold (elf_line line).
    unfold nonempty. rewrite negb_involutive.
    destruct (bool_decide (elf_line line = "")); [by apply IH|].
    destruct (startswith "Num" (elf_line line)).
    { destruct toc; [done|]. by apply IH. }
    destruct toc as [t|]; [|by apply IH].
    intros (r & Hr & H)%bind_OK.
    destruct r as [[sym raw]|].
    + apply elf_symbol_row_some in Hr as (<- & Hne & Hseen & Hrec).
      apply IH in H as (new & -> & Hall).
      exists (sym :: new). split; [by rewrite <- app_assoc|].
      rewrite filter_cons, decide_True by done. cbn [first_occurrences].
      rewrite filter_cons, decide_True by done.
      constructor; [done|]. by rewrite filter_first_occurrences_new.
    + apply elf_symbol_row_none in Hr.
      apply IH in H as (new & -> & Hall). exists new. split; [done|].
      rewrite filter_cons.
      match goal with |- context [decide (?c ≠ "")] =>
        destruct (decide (c ≠ "")) as [Hne|_] end; [|done].
      destruct Hr as [?|Hseen]; [done|]. cbn [first_occurrences].
      rewrite filter_cons, decide_False by (intros Hn; by apply Hn).
      by rewrite filter_first_occurrences_seen.
Qed.

Lemma filter_not_in_empty (seen : gset string) (l : list string) :
  seen = ∅ → filter (λ r, r ∉ seen) l = l.
Proof.
  intros ->. induction l as [|x l IH]; [done|].
  by rewrite filter_cons, decide_True, IH by set_solver.
Qed.

(** The Mach-O loop stores one record for each name of the listing that
    was not seen before, in the order of the listing. *)
Lemma macho_loop_exact (vis : gmap string string) (lines : list string) :
  ∀ syms seen result,
    macho_loop vis lines syms seen = OK result →
    ∃ new, result = syms ++ new ∧
      Forall2 (macho_record vis)
        (filter (λ r, r ∉ seen) (first_occurrences (omap macho_name lines)))
        new.
Proof.
  induction lines as [|line lines IH]; intros syms seen result;
    cbn [macho_loop omap list_omap].
  - intros [= <-]. exists []. split; [by rewrite app_nil_r|constructor].
  - unfold macho_name at 1. unfold nonempty. rewrite negb_involutive.
    destruct (bool_decide (strip line = "")) eqn:Hblank.
    { apply bool_decide_eq_true in Hblank. rewrite Hblank.
      change (split_ws "") with (@nil string). by apply IH. }
    destruct (split_ws (strip line)) as [|address [|ty [|name ?]]];
      try by apply IH.
    cbn [first_occurrences]. rewrite filter_cons.
    destruct (bool_decide (name ∈ seen)) eqn:Hseen.
    + apply bool_decide_eq_true in Hseen.
      rewrite decide_False by (intros Hn; by apply Hn).
      intros (new & -> & Hall)%IH. exists new. split; [done|].
      by rewrite filter_first_occurrences_seen.
    + apply bool_decide_eq_false in Hseen. rewrite decide_True by done.
      intros (value & _ & (new & -> & Hall)%IH)%bind_OK.
      exists (macho_symbol vis value ty name :: new).
      split; [by rewrite <- app_assoc|].
      constructor; [by exists value, ty|].
      by rewrite filter_first_occurrences_new.
Qed.

(** The records [collect_syms] returns, on either path. *)
Lemma collect_syms_exact (w : world) (f nm_out e1 out e2 : string)
    (probe : option bool) (syms : list row) :
  run w ["nm"; "-g"; f] "" = OK (nm_out, e1) →
  probe_macho w f = OK probe →
  run w (listing_command (default false probe) f) "" = OK (out, e2) →
  collect_syms w f = OK syms →
  if default false probe
  then Forall2 (macho_record (nm_visibility nm_out))
               (macho_raw_names (splitlines out)) syms
  else Forall2 (elf_record (nm_visibility nm_out))
               (elf_raw_names (splitlines out)) syms.
Proof.
  intros Hnm Hprobe Hout. unfold collect_syms.
  rewrite Hnm, Hprobe. cbn [fmap res_fmap bind fst].
  unfold listing_command in Hout.
  destruct (default false probe); rewrite Hout; cbn [fmap res_fmap bind fst].
  - intros (new & -> & Hall)%macho_loop_exact.
    by rewrite (filter_not_in_empty ∅) in Hall.
  - intros (st & (new & Hst & Hall)%elf_loop_exact & H)%bind_OK.
    rewrite (filter_not_in_empty ∅) in Hall by done.
    destruct st.1.1; [|discriminate]. injection H as <-. by rewrite Hst.
Qed.

Lemma raw_names_NoDup (macho : bool) (listing : string) :
  NoDup (raw_names macho listing).
Proof. destruct macho; apply first_occurrences_NoDup. Qed.

(** ** The version suffix, on the records returned *)

(** C7. The records that [collect_syms] returns for an ELF file are, in
    order, the records of the raw names of the listing (the distinct
    non-empty name cells of its data rows). The record of the raw name
    [raw] has the fields [version_fields]: its name is the part of [raw]
    before the run of [@] and holds no [@]; when [raw] holds an [@] its
    version is the part after the run and its default flag says whether
    [raw] holds [@@]; otherwise the version is absent and the flag is
    true. Every raw name of a listing that is collected has at most one
    run of [@] (a second run makes the collector raise), and no name of a
    returned record holds an [@]. *)
Theorem elf_symbol_versions (w : world) (f nm_out e1 out e2 : string)
    (probe : option bool) (syms : list row) :
  run w ["nm"; "-g"; f] "" = OK (nm_out, e1) →
  probe_macho w f = OK probe → default false probe = false →
  run w ["readelf"; "-sW"; f] "" = OK (out, e2) →
  collect_syms w f = OK syms →
  Forall2 (λ raw s, version_fields raw s ∧ has_char "@" (after_at raw) = false)
          (elf_raw_names (splitlines out)) syms ∧
  Forall (λ s, ∃ n, s !! "Name" = Some (VStr n) ∧ has_char "@" n = false) syms.
Proof.
  intros Hnm Hprobe Helf Hout Hsyms.
  pose proof (collect_syms_exact w f nm_out e1 out e2 probe syms Hnm Hprobe) as H.
  rewrite Helf in H. specialize (H Hout Hsyms).
  split.
  - eapply Forall2_impl; [exact H|]. by intros raw s (? & ? & _).
  - clear -H. induction H as [|raw s raws syms Hs _ IH]; constructor; [|done].
    destruct Hs as ((Hname & Hat & _) & _). eauto.
Qed.

Lemma elf_symbol_versions_witness :
  Forall2 (λ raw s, version_fields raw s ∧ has_char "@" (after_at raw) = false)
          (elf_raw_names (splitlines versions_symtab)) versions_syms ∧
  Forall (λ s, ∃ n, s !! "Name" = Some (VStr n) ∧ has_char "@" n = false)
         versions_syms.
Proof.
  apply (elf_symbol_versions versions_world "libv.so" versions_nm ""
           versions_symtab "" (Some false) versions_syms).
  - vm_refl.
  - vm_refl.
  - reflexivity.
  - vm_refl.
  - vm_refl.
Defined.

(** ** Raw names are distinct *)

(** C8, as amended. The records that [collect_syms] returns correspond one
    to one, in order, to the raw names of the listing, which are pairwise
    distinct: a second row with a raw name already seen stores nothing.
    For an ELF file a record is stored under the part of its raw name
    before the version suffix; for a Mach-O file it is stored under its raw
    name, so the stored names are pairwise distinct. *)
Theorem collect_syms_distinct_raw_names (w : world)
    (f nm_out e1 out e2 : string) (probe : option bool) (syms : list row) :
  run w ["nm"; "-g"; f] "" = OK (nm_out, e1) →
  probe_macho w f = OK probe →
  run w (listing_command (default false probe) f) "" = OK (out, e2) →
  collect_syms w f = OK syms →
  NoDup (raw_names (default false probe) out) ∧
  Forall2 (λ raw s,
             s !! "Name" = Some (VStr (stored_name (default false probe) raw)))
          (raw_names (default false probe) out) syms ∧
  (default false probe = true → NoDup ((λ s : row, s !! "Name") <$> syms)).
Proof.
  intros Hnm Hprobe Hout Hsyms.
  pose proof (collect_syms_exact w f nm_out e1 out e2 probe syms
                Hnm Hprobe Hout Hsyms) as H.
  split; [apply raw_names_NoDup|].
  assert (Forall2 (λ raw s,
             s !! "Name" = Some (VStr (stored_name (default false probe) raw)))
            (raw_names (default false probe) out) syms) as Hall.
  { unfold raw_names, stored_name. destruct (default false probe).
    - eapply Forall2_impl; [exact H|].
      intros raw s (value & ty & ->). apply macho_symbol_name.
    - eapply Forall2_impl; [exact H|]. by intros raw s ((? & _) & _). }
  split; [exact Hall|]. intros Hmacho. rewrite Hmacho in Hall.
  assert ((λ s : row, s !! "Name") <$> syms
          = (λ raw, Some (VStr raw)) <$> raw_names true out) as Heq.
  { clear -Hall. induction Hall as [|raw s raws syms Hs _ IH]; [done|].
    by rewrite !fmap_cons, Hs, IH. }
  rewrite Heq.
  apply NoDup_fmap_2; [|apply raw_names_NoDup]. by intros x y [= ->].
Qed.

Lemma collect_syms_distinct_raw_names_witness :
  NoDup (raw_names false versions_symtab) ∧
  Forall2 (λ raw s, s !! "Name" = Some (VStr (stored_name false raw)))
          (raw_names false versions_symtab) versions_syms ∧
  (false = true → NoDup ((λ s : row, s !! "Name") <$> versions_syms)).
Proof.
  apply (collect_syms_distinct_raw_names versions_world "libv.so" versions_nm
           "" versions_symtab "" (Some false) versions_syms).
  - vm_refl.
  - vm_refl.
  - vm_refl.
  - vm_refl.
Defined.

(** C8, the claim as stated fails. A library that exports [memcpy] in two
    versions, [memcpy@@GLIBC_2.14] and [memcpy@GLIBC_2.2.5], yields two
    records with the stored name [memcpy]. *)
Lemma collect_syms_same_stored_name :
  collect_syms versions_world "libv.so" = OK versions_syms ∧
  raw_names false versions_symtab
    = ["memcpy@@GLIBC_2.14"; "memcpy@GLIBC_2.2.5"; "foo"] ∧
  (λ s : row, s !! "Name") <$> versions_syms
    = [Some (VStr "memcpy"); Some (VStr "memcpy"); Some (VStr "foo")] ∧
  ¬ NoDup ((λ s : row, s !! "Name") <$> versions_syms).
Proof.
  split; [vm_refl|]. split; [vm_refl|].
  assert ((λ s : row, s !! "Name") <$> versions_syms
          = [Some (VStr "memcpy"); Some (VStr "memcpy"); Some (VStr "foo")])
    as Hnames by vm_refl.
  split; [exact Hnames|]. rewrite Hnames.
  intros [Hnot _]%NoDup_cons. apply Hnot. by left.
Qed.

(** ** Visibility *)

Lemma visibility_fields_intro (nm_out name : string) (s : row) :
  s !! "Name" = Some (VStr name) →
  s !! "Visibility"
    = Some (VStr (default "DEFAULT" (nm_visibility nm_out !! name))) →
  visibility_fields nm_out name s.
Proof.
  intros Hname Hv. split; [done|]. split; [done|].
  intros Hvis%nm_visibility_unlisted. rewrite Hvis in Hv. simpl in Hv.
  split; [done|].
  intros no_weak bind_ type ndx Hb Ht Hx. unfold is_exported.
  rewrite !(getitem_Some _ _ _ Hb), (getitem_Some _ _ _ Hv),
    (getitem_Some _ _ _ Ht), (getitem_Some _ _ _ Hx),
    (getitem_Some _ _ _ Hname).
  cbn [bind].
  change (py_ne (VStr "DEFAULT") (VStr "HIDDEN")) with true.
  destruct no_weak; cbn [bind app forallb id];
    repeat match goal with |- context [py_ne ?a ?b] => destruct (py_ne a b) end;
    repeat match goal with |- context [py_in ?a ?b] => destruct (py_in a b) end;
    reflexivity.
Qed.

(** C10. Every record that [collect_syms] returns, for an ELF and for a
    Mach-O file, is the record of a raw name of the listing, has the name
    that raw name is stored under, and has as visibility the entry of its
    name in the table read from [nm -g], DEFAULT without an entry. When
    its name is the third word of no line of the output of [nm -g], its
    visibility is DEFAULT and the export filter decides on it by its other
    conditions alone. *)
Theorem unlisted_symbol_visibility (w : world) (f nm_out e1 out e2 : string)
    (probe : option bool) (syms : list row) :
  run w ["nm"; "-g"; f] "" = OK (nm_out, e1) →
  probe_macho w f = OK probe →
  run w (listing_command (default false probe) f) "" = OK (out, e2) →
  collect_syms w f = OK syms →
  Forall2 (λ raw s,
             visibility_fields nm_out (stored_name (default false probe) raw) s)
          (raw_names (default false probe) out) syms.
Proof.
  intros Hnm Hprobe Hout Hsyms.
  pose proof (collect_syms_exact w f nm_out e1 out e2 probe syms
                Hnm Hprobe Hout Hsyms) as H.
  unfold raw_names, stored_name. destruct (default false probe).
  - eapply Forall2_impl; [exact H|].
    intros raw s (value & ty & ->).
    apply visibility_fields_intro; apply macho_symbol_name.
  - eapply Forall2_impl; [exact H|].
    intros raw s ((Hname & _) & _ & Hv). by apply visibility_fields_intro.
Qed.

Lemma unlisted_symbol_visibility_witness :
  Forall2 (λ raw s, visibility_fields macho_nm (stored_name true raw) s)
          (raw_names true macho_listing) macho_syms ∧
  Forall2 (λ raw s, visibility_fields versions_nm (stored_name false raw) s)
          (raw_names false versions_symtab) versions_syms.
Proof.
  split.
  - apply (unlisted_symbol_visibility macho_world "libm.dylib" macho_nm ""
             macho_listing "" (Some true) macho_syms); vm_refl.
  - apply (unlisted_symbol_visibility versions_world "libv.so" versions_nm ""
             versions_symtab "" (Some false) versions_syms); vm_refl.
Defined.

(** ** The overlay of the relocations *)

Lemma same_outcome_refl {A} (r : res A) : same_outcome r r.
Proof. by destruct r. Qed.

Lemma same_outcome_trans {A} (r1 r2 r3 : res A) :
  same_outcome r1 r2 → same_outcome r2 r3 → same_outcome r1 r3.
Proof. destruct r1, r2, r3; simpl; try done. congruence. Qed.

Lemma same_outcome_bind {A B} (r1 r2 : res A) (k : A → res B) :
  same_outcome r1 r2 → same_outcome (bind r1 k) (bind r2 k).
Proof.
  destruct r1, r2; simpl; try done. intros ->. apply same_outcome_refl.
Qed.

(** A fold of steps that may raise gives the same outcome on a permutation
    of the list when any two steps of the list commute. *)
Section fold_permutation.
Context {A B : Type} (step : B → A → res B) (I : B → Prop).
Hypothesis step_keeps : ∀ b x b', I b → step b x = OK b' → I b'.

Lemma foldlM_permutation (l l' : list A) :
  Permutation l l' →
  steps_commute step I l →
  ∀ b, I b → same_outcome (foldlM step b l) (foldlM step b l').
Proof.
  induction 1 as [|x l l' Hperm IH|x y l|l1 l2 l3 H12 IH12 H23 IH23];
    intros Hcomm b Hb.
  - apply same_outcome_refl.
  - simpl. destruct (step b x) as [b1|e] eqn:Hx; simpl; [|done].
    apply IH; [|by eapply step_keeps].
    intros b' u v Hb' Hu Hv. apply Hcomm; [done|by right..].
  - assert (∀ u v, foldlM step b (u :: v :: l)
              = bind (bind (step b u) (λ b1, step b1 v))
                     (λ b2, foldlM step b2 l)) as Hassoc.
    { intros u v. simpl. by destruct (step b u). }
    rewrite !Hassoc. apply same_outcome_bind. apply Hcomm; [done| |].
    + by left.
    + right. by left.
  - eapply same_outcome_trans; [by apply IH12|]. apply IH23; [|done].
    intros b' u v Hb' Hu Hv. apply Hcomm; [done|..].
    + by rewrite H12.
    + by rewrite H12.
Qed.

End fold_permutation.

Section overlay.
Context (ptr_size : Z) (reloc_types : gset string) (start finish : Z).

Local Abbreviation step := (overlay_step ptr_size reloc_types start finish).
Local Abbreviation index := (slot_index ptr_size reloc_types start finish).

Lemma overlay_step_cases (rel : row) :
  0 < ptr_size →
  (∃ i, index rel = Some i ∧ 0 ≤ i ∧
        ∀ slots, step slots rel
                 = if i <? Z.of_nat (length slots)
                   then OK (<[Z.to_nat i := SReloc rel]> slots)
                   else Raise AssertionError) ∨
  (∀ slots, step slots rel = OK slots) ∨
  (∃ e, ∀ slots, step slots rel = Raise e).
Proof.
  intros Hptr. unfold overlay_step, slot_index, get_int, getitem.
  destruct (rel !! "Type") as [t|]; cbn [bind]; [|right; right; eauto].
  destruct (type_in reloc_types t); cbn [andb]; [|right; left; done].
  destruct (rel !! "Offset") as [o|]; cbn [bind]; [|right; right; eauto].
  destruct (as_int o) as [offset|e]; cbn [bind]; [|right; right; eauto].
  destruct (Z.leb_spec start offset); cbn [andb]; [|right; left; done].
  destruct (Z.ltb_spec offset finish); [|right; left; done].
  left. eexists. split; [reflexivity|].
  assert (0 ≤ (offset - start) / ptr_size) as Hi by (apply Z.div_pos; lia).
  split; [done|]. intros slots.
  destruct (Z.eqb_spec ptr_size 0); [lia|].
  destruct (Z.ltb_spec ((offset - start) / ptr_size) (Z.of_nat (length slots)));
    [|done].
  unfold py_setitem.
  destruct (Z.leb_spec 0 ((offset - start) / ptr_size)); [|lia].
  by destruct (Z.ltb_spec ((offset - start) / ptr_size)
                          (Z.of_nat (length slots))); [|lia].
Qed.

Lemma overlay_steps_commute (rels : list row) :
  0 < ptr_size →
  one_per_slot ptr_size reloc_types start finish rels →
  steps_commute step (λ _, True) rels.
Proof.
  intros Hptr Hone slots x y _ Hx Hy.
  destruct (overlay_step_cases x Hptr)
    as [(i & Hi & Hi0 & Ex)|[Ex|[ex Ex]]];
    destruct (overlay_step_cases y Hptr)
      as [(j & Hj & Hj0 & Ey)|[Ey|[ey Ey]]];
    rewrite ?Ex, ?Ey;
    try (destruct (i <? _) eqn:Hil); try (destruct (j <? _) eqn:Hjl);
    cbn [bind]; rewrite ?Ex, ?Ey, ?length_insert, ?Hil, ?Hjl; try done.
  destruct (decide (i = j)) as [->|Hne].
  - by rewrite (Hone x y j Hx Hy Hi Hj).
  - simpl. apply list_insert_insert_ne. lia.
Qed.

Lemma overlay_step_nil (rel : row) (slots : list slot) :
  step [] rel = OK slots → slots = [].
Proof.
  unfold overlay_step. intros (t & _ & H)%bind_OK.
  destruct (type_in reloc_types t); [|by injection H].
  apply bind_OK in H as (offset & _ & H).
  destruct (_ && _); [|by injection H].
  destruct (ptr_size =? 0); [done|].
  destruct (_ <? _); [|done].
  unfold py_setitem in H. cbn [length] in H.
  destruct (Z.leb_spec 0 ((offset - start) / ptr_size));
    destruct (Z.ltb_spec ((offset - start) / ptr_size) (Z.of_nat 0));
    cbn [andb] in H; try lia;
    destruct (Z.leb_spec (- Z.of_nat 0) ((offset - start) / ptr_size));
    destruct (Z.ltb_spec ((offset - start) / ptr_size) 0);
    cbn [andb] in H; try lia; done.
Qed.

Lemma overlay_steps_commute_nil (rels : list row) :
  steps_commute step (λ slots, slots = []) rels.
Proof.
  intros slots x y -> _ _.
  destruct (step [] x) as [sx|ex] eqn:Hx; destruct (step [] y) as [sy|ey] eqn:Hy;
    cbn [bind]; try done.
  - pose proof (overlay_step_nil _ _ Hx) as ->.
    pose proof (overlay_step_nil _ _ Hy) as ->. by rewrite Hx, Hy.
  - pose proof (overlay_step_nil _ _ Hx) as ->. by rewrite Hy.
  - pose proof (overlay_step_nil _ _ Hy) as ->. by rewrite Hx.
Qed.

Lemma overlay_permutation (rels rels' : list row) (slots : list slot) :
  (0 < ptr_size ∨ slots = []) →
  Permutation rels rels' →
  one_per_slot ptr_size reloc_types start finish rels →
  same_outcome (overlay ptr_size reloc_types start finish rels slots)
               (overlay ptr_size reloc_types start finish rels' slots).
Proof.
  intros [Hptr| ->] Hperm Hone; unfold overlay.
  - apply (foldlM_permutation step (λ _, True)); try done.
    by apply overlay_steps_commute.
  - apply (foldlM_permutation step (λ slots, slots = [])); try done.
    + intros b x b' ->. apply overlay_step_nil.
    + apply overlay_steps_commute_nil.
Qed.

End overlay.

Lemma initial_slots_cases (ptr_size : Z) (b : list Z) :
  0 < ptr_size ∨ (∃ e, initial_slots ptr_size b = Raise e) ∨
  initial_slots ptr_size b = OK [].
Proof.
  destruct (Z.lt_trichotomy 0 ptr_size) as [H|[<-|H]]; [by left|..].
  - right. left. by eexists.
  - right. right. unfold initial_slots, py_range.
    destruct (Z.eqb_spec ptr_size 0); [lia|].
    destruct (Z.ltb_spec 0 ptr_size); [lia|]. cbn [bind].
    assert ((0 - Z.of_nat (length b) - ptr_size - 1) / - ptr_size < 1)
      by (apply Z.div_lt_upper_bound; lia).
    by replace (Z.to_nat _) with 0%nat by lia.
Qed.

(** C4, as amended. The overlay gives the same outcome (the same final
    slots, or an exception in both runs) on any permutation of the list of
    relocations, provided that no two different relocations of the list
    that apply to the symbol fall into the same slot. *)
Theorem overlay_order_independent (s : row) (b : list Z) (rels rels' : list row)
    (ptr_size : Z) (reloc_types : gset string) (start size : Z) :
  get_int s "Value" = OK start →
  get_int s "Size" = OK size →
  Permutation rels rels' →
  one_per_slot ptr_size reloc_types start (start + size) rels →
  same_outcome (relocated_symbol s b rels ptr_size reloc_types)
               (relocated_symbol s b rels' ptr_size reloc_types).
Proof.
  intros Hstart Hsize Hperm Hone. unfold relocated_symbol.
  destruct (get_str s "Demangled Name") as [demangled|e]; cbn [bind]; [|done].
  destruct (startswith "typeinfo name" demangled); [done|].
  rewrite Hstart, Hsize.
  destruct (initial_slots_cases ptr_size b) as [Hptr|[[e ->]| ->]];
    cbn [bind]; [|done|].
  - destruct (initial_slots ptr_size b) as [slots|e]; cbn [bind]; [|done].
    apply overlay_permutation; auto.
  - apply overlay_permutation; auto.
Qed.

Lemma overlay_order_independent_witness :
  same_outcome
    (relocated_symbol sample_vtable two_words [reloc_a; reloc_c] 8
       x86_reloc_types)
    (relocated_symbol sample_vtable two_words [reloc_c; reloc_a] 8
       x86_reloc_types).
Proof.
  apply (overlay_order_independent sample_vtable two_words
           [reloc_a; reloc_c] [reloc_c; reloc_a] 8 x86_reloc_types 256 16).
  - reflexivity.
  - reflexivity.
  - apply perm_swap.
  - intros r1 r2 i H1 H2 Hi Hj.
    apply elem_of_cons in H1 as [->|H1];
      [|apply list_elem_of_singleton in H1 as ->];
      (apply elem_of_cons in H2 as [->|H2];
       [|apply list_elem_of_singleton in H2 as ->]);
      try reflexivity; vm_compute in Hi, Hj; congruence.
Defined.

(** C4, the claim as stated fails. Two relocations against different
    symbols that fall into the slot 0 of the same table: the relocation
    that comes later in the list wins, so the two orders of the list give
    different slots. *)
Lemma overlay_order_matters :
  Permutation [reloc_a; reloc_b] [reloc_b; reloc_a] ∧
  relocated_symbol sample_vtable two_words [reloc_a; reloc_b] 8 x86_reloc_types
    = OK [SReloc reloc_b; SOffset 0] ∧
  relocated_symbol sample_vtable two_words [reloc_b; reloc_a] 8 x86_reloc_types
    = OK [SReloc reloc_a; SOffset 0] ∧
  reloc_a ≠ reloc_b.
Proof.
  split; [apply perm_swap|]. split; [vm_compute; reflexivity|].
  split; [vm_compute; reflexivity|].
  intros H. apply (f_equal (λ r : row, r !! sym_name_key)) in H.
  vm_compute in H. discriminate.
Qed.

(** ** The driver *)

(** One step through the driver: the current statement raises, or the run
    goes on with its result. *)
Ltac raise_or_go :=
  match goal with
  | |- ∃ e, Raise ?x = Raise e => by exists x
  | |- ∃ e, bind ?m _ = Raise e =>
      let H := fresh "H" in
      destruct m eqn:H; cbn [bind]; [|by eauto]
  | |- ∃ e, (if ?c then _ else _) = Raise e => destruct c
  | |- ∃ e, error _ = Raise e => by eexists
  end.

Lemma is_data_symbol_flag (s : row) (b : bool) :
  is_data_symbol false s = OK b → ∃ b', is_data_symbol true s = OK b'.
Proof.
  unfold is_data_symbol. intros (type & -> & H)%bind_OK. cbn [bind].
  destruct (py_eq type (VStr "OBJECT")); [|by eauto].
  apply bind_OK in H as (demangled & -> & _). cbn [bind]. eauto.
Qed.

Lemma filterM_is_data_symbol (syms l : list row) :
  filterM (is_data_symbol false) syms = OK l →
  ∃ l', filterM (is_data_symbol true) syms = OK l'.
Proof.
  revert l. induction syms as [|s syms IH]; intros l; simpl; [by eauto|].
  intros (b & [b' ->]%is_data_symbol_flag & H)%bind_OK.
  apply bind_OK in H as (tl & [tl' ->]%IH & _). cbn [bind]. eauto.
Qed.

(** With [--vtables], a run whose collection returns without the option
    goes the same way up to the block of the vtables. *)
Lemma main_collect_vtables_step (w : world) (a : args) (p : plan) :
  vtables a = true →
  main_collect w (without_vtables a) = OK p →
  ∃ binary syms ptr_size reloc_types k,
    is_binary_file w (library a) = OK binary ∧
    main_collect w a
      = bind (Some <$> collect_vtables w a binary syms ptr_size reloc_types) k.
Proof.
  intros Hvt H. unfold main_collect in *. cbn [library target symbol_list
    library_load_name no_weak_symbols vtables without_vtables] in H.
  rewrite Hvt.
  apply bind_OK in H as (funs & -> & H). cbn [bind].
  apply bind_OK in H as (binary & -> & H). cbn [bind].
  apply bind_OK in H as (load_name & -> & H). cbn [bind].
  destruct (negb (path_exists w _)); [discriminate|].
  apply bind_OK in H as (ptr_text & -> & H). cbn [bind].
  apply bind_OK in H as (ptr_size & -> & H). cbn [bind].
  apply bind_OK in H as (reloc_text & -> & H). cbn [bind].
  apply bind_OK in H as (syms & -> & H). cbn [bind].
  apply bind_OK in H as (syms1 & -> & H). cbn [bind].
  apply bind_OK in H as (syms2 & -> & H). cbn [bind].
  apply bind_OK in H as (data & [data' ->]%filterM_is_data_symbol & H).
  cbn [bind].
  apply bind_OK in H as (all_funs & -> & H). cbn [bind].
  eexists binary, syms2, ptr_size, _, _. split; [done|]. reflexivity.
Qed.

Lemma probe_not_macho (w : world) (f : string) :
  is_binary_file w f = OK false →
  (∃ e, probe_macho w f = Raise e) ∨
  ∃ probe, probe_macho w f = OK probe ∧ default false probe = false.
Proof.
  unfold is_binary_file, probe_macho, run.
  destruct (run_tool w ["readelf"; "-d"; f] "") as [rout rerr rc|]; [|discriminate].
  destruct (rc =? 0); [discriminate|].
  destruct (run_tool w ["file"; f] "") as [output ferr frc|].
  - intros [= [Hm _]%orb_false_iff].
    destruct (negb (frc =? 0) || nonempty ferr).
    + left. by eexists.
    + right. exists (Some (contains "Mach-O" output)). by rewrite Hm.
  - intros _. right. by exists None.
Qed.

Lemma collect_sections_fails (w : world) (f : string) (e0 : exn) :
  is_binary_file w f = OK false →
  run w ["readelf"; "-SW"; f] "" = Raise e0 →
  ∃ e, collect_sections w f = Raise e.
Proof.
  intros Hbin Hrun. unfold collect_sections.
  destruct (probe_not_macho w f Hbin) as [[e ->]|(probe & -> & Hd)];
    cbn [bind]; [by eauto|].
  rewrite Hd, Hrun. by eexists.
Qed.

Lemma collect_vtables_fails (w : world) (a : args) :
  is_binary_file w (library a) = OK false →
  endswith ".def" (library a) = true ∨
  (∃ e0, run w ["readelf"; "-SW"; library a] "" = Raise e0) →
  ∀ syms ptr_size reloc_types,
    ∃ e, collect_vtables w a false syms ptr_size reloc_types = Raise e.
Proof.
  intros Hbin Hcase syms ptr_size reloc_types. unfold collect_vtables.
  cbn [negb andb].
  destruct (endswith ".def" (library a)) eqn:Hdef; [by eexists|].
  destruct Hcase as [?|[e0 Hrun]]; [done|].
  destruct (foldlM _ _ syms) as [cls|e]; cbn [bind]; [|by eauto].
  destruct (collect_sections_fails w (library a) e0 Hbin Hrun) as [e ->].
  by eexists.
Qed.

(** C9. With the vtable mode on and an input that is not recognised as a
    binary, the run raises before it starts to write, when the path of the
    input ends in [.def] or [readelf -SW] fails on the input, as it does on
    a text file. For a path that ends in [.def], a run whose collection
    returns without [--vtables] stops with the fatal error "vtables not
    supported for .def files". *)
Theorem vtables_def_file_fatal (w : world) (a : args) :
  vtables a = true →
  is_binary_file w (library a) = OK false →
  endswith ".def" (library a) = true ∨
  (∃ e0, run w ["readelf"; "-SW"; library a] "" = Raise e0) →
  (∃ e, main_collect w a = Raise e ∧ main w a = Raise e) ∧
  (endswith ".def" (library a) = true →
   ∀ p, main_collect w (without_vtables a) = OK p →
        main_collect w a = error "vtables not supported for .def files" ∧
        main w a = error "vtables not supported for .def files").
Proof.
  intros Hvt Hbin Hcase.
  pose proof (collect_vtables_fails w a Hbin Hcase) as Hguard.
  split.
  - enough (∃ e, main_collect w a = Raise e) as [e He].
    { exists e. split; [done|]. unfold main. by rewrite He. }
    unfold main_collect. rewrite Hbin, Hvt. cbv zeta.
    repeat raise_or_go.
    match goal with
    | H : _ <$> collect_vtables _ _ _ ?syms ?p ?t = OK _ |- _ =>
        destruct (Hguard syms p t) as [e He]; rewrite He in H; discriminate
    end.
  - intros Hdef p Hp.
    destruct (main_collect_vtables_step w a p Hvt Hp)
      as (binary & syms & ptr_size & reloc_types & k & Hbin' & Hmain).
    rewrite Hbin in Hbin'. injection Hbin' as <-.
    assert (main_collect w a = error "vtables not supported for .def files")
      as He.
    { rewrite Hmain. unfold collect_vtables. by rewrite Hdef. }
    split; [done|]. unfold main. by rewrite He.
Qed.

Lemma vtables_def_file_fatal_witness :
  main def_world (vtables_args "exports.def")
    = error "vtables not supported for .def files" ∧
  ∃ e, main def_world (vtables_args "exports.txt") = Raise e.
Proof.
  split.
  - refine (proj2 (proj2 (vtables_def_file_fatal def_world
                            (vtables_args "exports.def") _ _ _) _ def_plan _)).
    + reflexivity.
    + vm_refl.
    + left. vm_refl.
    + vm_refl.
    + vm_refl.
  - assert (is_binary_file def_world (library (vtables_args "exports.txt"))
            = OK false) as Hbin by vm_refl.
    assert (endswith ".def" (library (vtables_args "exports.txt")) = true ∨
            ∃ e0, run def_world
                    ["readelf"; "-SW"; library (vtables_args "exports.txt")] ""
                  = Raise e0) as Hcase
      by (right; exists (SystemExit not_elf_message); vm_refl).
    destruct (proj1 (vtables_def_file_fatal def_world
                       (vtables_args "exports.txt") eq_refl Hbin Hcase))
      as (e & _ & He).
    by exists e.
Defined.


(** ** Rows of tool output *)


Lemma cells_snoc (words toc : list string) (k : string) :
  cells words (toc ++ [k])
    = <[k := VStr (default "" (words !! length toc))]> (cells words toc).
Proof.
  unfold cells. rewrite imap_app, foldl_app. simpl.
  by rewrite Nat.add_0_r.
Qed.

Lemma cells_lookup (words toc : list string) (i : nat) (k : string) :
  NoDup toc → toc !! i = Some k →
  cells words toc !! k = Some (VStr (default "" (words !! i))).
Proof.
  induction toc as [|k' toc IH] using rev_ind; [done|].
  intros (Hnd & Hk' & _)%NoDup_app Hi. rewrite cells_snoc.
  destruct (decide (i = length toc)) as [->|Hne].
  - rewrite lookup_app_r, Nat.sub_diag in Hi by done. injection Hi as ->.
    apply lookup_insert_eq.
  - assert (toc !! i = Some k) as Hi'.
    { apply lookup_lt_Some in Hi as Hlt. rewrite length_app in Hlt. simpl in Hlt.
      rewrite lookup_app_l in Hi by lia. done. }
    rewrite lookup_insert_ne; [by apply IH|].
    intros ->. eapply Hk'; [by eapply list_elem_of_lookup_2|]. by left.
Qed.

Lemma cells_lookup_None (words toc : list string) (k : string) :
  k ∉ toc → cells words toc !! k = None.
Proof.
  induction toc as [|k' toc IH] using rev_ind; [done|].
  rewrite not_elem_of_app, list_elem_of_singleton. intros [Hk Hne].
  rewrite cells_snoc, lookup_insert_ne by done. by apply IH.
Qed.

Lemma hex_convert_key (hex_keys : list string) (vals r : row) (k cell : string) :
  NoDup hex_keys → k ∈ hex_keys → vals !! k = Some (VStr cell) →
  hex_convert hex_keys vals = OK r →
  if bool_decide (cell = "") then r !! k = Some (VStr "")
  else ∃ n, py_int 16 cell = OK n ∧ r !! k = Some (VInt n).
Proof.
  revert vals. induction hex_keys as [|h hs IH]; intros vals Hnd Hk Hcell;
    [by apply elem_of_nil in Hk|].
  apply NoDup_cons in Hnd as [Hh Hnd]. simpl.
  intros (v & Hv & H)%bind_OK.
  apply elem_of_cons in Hk as [->|Hk].
  - unfold getitem in Hv. rewrite Hcell in Hv. injection Hv as <-.
    simpl in H. unfold nonempty in H.
    destruct (bool_decide (cell = "")) eqn:Hc; simpl in H.
    + apply bool_decide_eq_true in Hc as ->.
      by rewrite (hex_convert_other _ _ _ _ Hh H).
    + apply bind_OK in H as (n & Hn & H).
      apply fmap_OK in Hn as (z & Hz & ->). exists z. split; [done|].
      rewrite (hex_convert_other _ _ _ _ Hh H). apply lookup_insert_eq.
  - assert (h ≠ k) by (intros ->; done).
    destruct (truthy v).
    + apply bind_OK in H as (n & _ & H). eapply IH; [done..| |exact H].
      by rewrite lookup_insert_ne.
    + by eapply IH.
Qed.

Lemma hex_convert_missing (hex_keys : list string) (vals : row) (k : string) :
  k ∈ hex_keys → vals !! k = None → ∃ e, hex_convert hex_keys vals = Raise e.
Proof.
  revert vals. induction hex_keys as [|h hs IH]; intros vals Hk Hnone;
    [by apply elem_of_nil in Hk|]. simpl.
  destruct (getitem vals h) as [v|e] eqn:Hv; cbn [bind]; [|by eauto].
  apply elem_of_cons in Hk as [->|Hk].
  { unfold getitem in Hv. by rewrite Hnone in Hv. }
  assert (h ≠ k).
  { intros ->. unfold getitem in Hv. by rewrite Hnone in Hv. }
  destruct (truthy v); [|by apply IH].
  destruct (int16 v) as [n|e]; cbn [bind]; [|by eauto].
  apply IH; [done|]. by rewrite lookup_insert_ne.
Qed.

(** X1. In a row parsed against a header with distinct column names, a
    column that is not converted holds the word at its index, and the
    empty string when the line has fewer words. *)
Theorem parse_row_cell (words toc hex_keys : list string) (r : row)
    (i : nat) (k : string) :
  NoDup toc → toc !! i = Some k → k ∉ hex_keys →
  parse_row words toc hex_keys = OK r →
  r !! k = Some (VStr (default "" (words !! i))).
Proof.
  intros Hnd Hi Hk H. change (hex_convert hex_keys (cells words toc) = OK r) in H.
  rewrite (hex_convert_other _ _ _ _ Hk H). by apply cells_lookup.
Qed.

(** X2. A hexadecimal column of a parsed row holds the number read from
    the word at its index; an empty or missing word is kept as the empty
    string and is not converted. *)
Theorem parse_row_hex_cell (words toc hex_keys : list string) (r : row)
    (i : nat) (k : string) :
  NoDup toc → NoDup hex_keys → toc !! i = Some k → k ∈ hex_keys →
  parse_row words toc hex_keys = OK r →
  if bool_decide (default "" (words !! i) = "") then r !! k = Some (VStr "")
  else ∃ n, py_int 16 (default "" (words !! i)) = OK n ∧ r !! k = Some (VInt n).
Proof.
  intros Hnd Hhex Hi Hk H.
  change (hex_convert hex_keys (cells words toc) = OK r) in H.
  eapply hex_convert_key; [done..| |done]. by apply cells_lookup.
Qed.

(** X3. A row cannot be parsed against a header that lacks one of the
    hexadecimal columns: the lookup of the column raises. *)
Theorem parse_row_missing_column (words toc hex_keys : list string) (k : string) :
  k ∈ hex_keys → k ∉ toc → ∃ e, parse_row words toc hex_keys = Raise e.
Proof.
  intros Hk Hnot. change (∃ e, hex_convert hex_keys (cells words toc) = Raise e).
  eapply hex_convert_missing; [done|]. by apply cells_lookup_None.
Qed.

(** ** Headers of the symbol listing *)


Lemma elf_loop_app (vis : gmap string string) (l1 l2 : list string)
    (toc : option (list string)) (syms : list row) (seen : gset string) :
  elf_loop vis (l1 ++ l2) toc syms seen
    = bind (elf_loop vis l1 toc syms seen)
           (λ st, elf_loop vis l2 st.1.1 st.1.2 st.2).
Proof.
  revert toc syms seen. induction l1 as [|line l1 IH]; intros toc syms seen;
    [done|].
  cbn [app elf_loop].
  match goal with |- context [nonempty ?x] => destruct (nonempty x) end;
    cbn [negb]; [|by apply IH].
  match goal with |- context [startswith "Num" ?x] =>
    destruct (startswith "Num" x) end.
  - destruct toc; [done|]. apply IH.
  - destruct toc as [t|]; [|by apply IH].
    destruct (elf_symbol_row _ _ _ _) as [[[sym raw]|]|e]; cbn [bind];
      [apply IH|apply IH|done].
Qed.

Lemma elf_loop_blank (vis : gmap string string) (line : string)
    (toc : option (list string)) (syms : list row) (seen : gset string) :
  elf_line line = "" →
  elf_loop vis [line] toc syms seen = OK (None, syms, seen).
Proof. intros H. cbn [elf_loop]. fold (elf_line line). by rewrite H. Qed.

Lemma elf_loop_no_header (vis : gmap string string) (lines : list string)
    (syms : list row) (seen : gset string) :
  (∀ line, line ∈ lines → startswith "Num" (elf_line line) = false) →
  elf_loop vis lines None syms seen = OK (None, syms, seen).
Proof.
  induction lines as [|line lines IH]; intros H; [done|].
  assert (elf_loop vis lines None syms seen = OK (None, syms, seen)) as IH'.
  { apply IH. intros l Hl. apply H. by right. }
  cbn [elf_loop]. fold (elf_line line).
  destruct (nonempty (elf_line line)); cbn [negb]; [|done].
  rewrite H by (by left). done.
Qed.

Lemma run_OK_fst (w : world) (args : list string) (stdin out err : string) :
  run w args stdin = OK (out, err) → fst <$> run w args stdin = OK out.
Proof. by intros ->. Qed.

(** X4. When no line of the ELF symbol listing starts with [Num], every
    row is skipped and the collector stops with the fatal error "failed to
    analyze symbols". *)
Theorem collect_syms_no_header (w : world) (f nm_out e1 out e2 : string)
    (probe : option bool) :
  run w ["nm"; "-g"; f] "" = OK (nm_out, e1) →
  probe_macho w f = OK probe → default false probe = false →
  run w ["readelf"; "-sW"; f] "" = OK (out, e2) →
  (∀ line, line ∈ splitlines out → startswith "Num" (elf_line line) = false) →
  collect_syms w f = error ("failed to analyze symbols in " +:+ f).
Proof.
  intros Hnm Hprobe Hmacho Hout Hlines. unfold collect_syms.
  rewrite (run_OK_fst _ _ _ _ _ Hnm). cbn [bind]. rewrite Hprobe. cbn [bind].
  rewrite Hmacho, (run_OK_fst _ _ _ _ _ Hout). cbn [bind].
  by rewrite elf_loop_no_header.
Qed.

(** X5. A blank line forgets the header: when the ELF symbol listing ends
    with a blank line the collector raises, whatever it collected. *)
Theorem collect_syms_trailing_blank (w : world) (f nm_out e1 out e2 : string)
    (probe : option bool) (lines : list string) (last : string) :
  run w ["nm"; "-g"; f] "" = OK (nm_out, e1) →
  probe_macho w f = OK probe → default false probe = false →
  run w ["readelf"; "-sW"; f] "" = OK (out, e2) →
  splitlines out = lines ++ [last] → elf_line last = "" →
  ∃ e, collect_syms w f = Raise e.
Proof.
  intros Hnm Hprobe Hmacho Hout Hlines Hlast. unfold collect_syms.
  rewrite (run_OK_fst _ _ _ _ _ Hnm). cbn [bind]. rewrite Hprobe. cbn [bind].
  rewrite Hmacho, (run_OK_fst _ _ _ _ _ Hout). cbn [bind].
  rewrite Hlines, elf_loop_app.
  destruct (elf_loop _ lines _ _ _) as [[[toc syms] seen]|e]; cbn [bind];
    [|by eauto].
  rewrite elf_loop_blank by done. cbn [bind fst snd]. by eexists.
Qed.

(** ** Export lists *)

Lemma span_take_forall (p : ascii → bool) (s : string) :
  str_forall p (take_str (span_len p s) s) = true.
Proof.
  induction s as [|c s IH]; [done|]. simpl.
  destruct (p c) eqn:Hc; [|done]. simpl. by rewrite Hc.
Qed.

Lemma span_take_nonempty (p : ascii → bool) (s : string) :
  (0 < span_len p s)%nat → take_str (span_len p s) s ≠ "".
Proof. destruct s as [|c s]; simpl; [lia|]. by destruct (p c); [|lia]. Qed.

Lemma match_def_export_name (line name : string) :
  match_def_export line = Some name →
  name ≠ "" ∧ str_forall is_alnum_us name = true.
Proof.
  unfold match_def_export.
  destruct (0 <? span_len is_space line)%nat; [|done]. cbn [andb].
  destruct (Nat.ltb_spec 0 (span_len is_alnum_us
              (drop_str (span_len is_space line) line))); [|done].
  cbn [andb]. destruct (str_forall _ _); [|done]. intros [= <-].
  split; [by apply span_take_nonempty|apply span_take_forall].
Qed.

Lemma def_loop_invariant (P : list row → Prop) :
  (∀ syms line name,
     P syms → match_def_export line = Some name → P (syms ++ [def_symbol name])) →
  ∀ lines in_exports syms, P syms → P (def_loop in_exports lines syms).
Proof.
  intros Hstep. induction lines as [|line lines IH]; intros in_exports syms HP;
    [done|].
  cbn [def_loop].
  assert (P (if bool_decide (strip line = "EXPORTS")
             then def_loop true lines syms else def_loop false lines syms)).
  { destruct (bool_decide _); by apply IH. }
  destruct in_exports; [|done].
  destruct (is_def_comment line); [by apply IH|].
  destruct (match_def_export line) as [name|] eqn:Hm; [|done].
  apply IH. by eapply Hstep.
Qed.

Lemma def_symbol_exported (no_weak : bool) (name : string) :
  is_exported no_weak (def_symbol name)
    = OK (negb (py_in (VStr name) [VStr ""; VStr "_init"; VStr "_fini"])).
Proof.
  unfold is_exported, def_symbol, getitem.
  repeat (rewrite lookup_insert_eq || (rewrite lookup_insert_ne by done)).
  cbn [bind]. destruct no_weak; cbn [bind app forallb id];
    change (py_ne (VStr "GLOBAL") (VStr "LOCAL")) with true;
    change (py_ne (VStr "GLOBAL") (VStr "WEAK")) with true;
    change (py_ne (VStr "DEFAULT") (VStr "HIDDEN")) with true;
    change (py_ne (VStr "FUNC") (VStr "NOTYPE")) with true;
    change (py_ne (VStr "0") (VStr "UND")) with true;
    cbn [andb]; by rewrite ?andb_true_r.
Qed.

(** X6. Every symbol read from a def-file is the fixed record of a global
    default-version function whose name is a non-empty identifier, and the
    export filter keeps it unless it is named [_init] or [_fini]. *)
Theorem def_exports_are_functions (w : world) (filename : string)
    (syms : list row) (s : row) :
  collect_def_exports w filename = OK syms →
  s ∈ syms →
  ∃ name,
    s = def_symbol name ∧ name ≠ "" ∧ str_forall is_alnum_us name = true ∧
    ∀ no_weak,
      is_exported no_weak s
        = OK (negb (bool_decide (name = "_init" ∨ name = "_fini"))).
Proof.
  intros Hsyms Hs.
  assert (Forall (λ s, ∃ name, s = def_symbol name ∧ name ≠ "" ∧
                       str_forall is_alnum_us name = true) syms) as Hall.
  { unfold collect_def_exports in Hsyms.
    destruct (read_text w filename) as [text|[]]; try discriminate;
      injection Hsyms as <-; try by constructor.
    apply (def_loop_invariant (Forall _)); [|by constructor].
    intros syms line name HP [Hne Hid]%match_def_export_name.
    apply Forall_app. split; [done|]. constructor; [|done]. eauto. }
  rewrite Forall_forall in Hall. destruct (Hall s Hs) as (name & -> & Hne & Hid).
  exists name. repeat split; try done. intros no_weak.
  rewrite def_symbol_exported. f_equal. f_equal. cbn [py_in existsb].
  unfold py_eq. rewrite orb_false_r.
  rewrite (bool_decide_eq_false_2 (VStr name = VStr "")) by congruence.
  cbn [orb]. apply eq_true_iff_eq.
  rewrite orb_true_iff, !bool_decide_eq_true. split; intros [H|H]; naive_solver.
Qed.

(** X7. A def-file without a line that reads [EXPORTS] yields no symbol. *)
Theorem def_exports_need_exports_line (w : world) (filename text : string) :
  read_text w filename = OK text →
  (∀ line, line ∈ readlines text → strip line ≠ "EXPORTS") →
  collect_def_exports w filename = OK [].
Proof.
  intros Htext Hlines. unfold collect_def_exports. rewrite Htext. f_equal.
  revert Hlines. generalize (readlines text). intros lines.
  induction lines as [|line lines IH]; intros H; [done|].
  cbn [def_loop]. rewrite bool_decide_eq_false_2 by (apply H; by left).
  apply IH. intros l Hl. apply H. by right.
Qed.

(** ** Sections and relocations *)

Lemma sections_loop_invariant (P : list row → Prop) (f : string) :
  (∀ secs sec flg, P secs → sec !! "Flg" = Some (VStr flg) →
                   has_char "A" flg = true → P (secs ++ [sec])) →
  ∀ lines toc secs result,
    P secs → sections_loop f lines toc secs = OK result → P result.
Proof.
  intros Hstep. induction lines as [|line lines IH]; intros toc secs result HP;
    cbn [sections_loop].
  - destruct toc; [by intros [= <-]|done].
  - match goal with |- context [nonempty ?x] => destruct (nonempty x) end;
      cbn [negb]; [|by apply IH].
    match goal with |- context [startswith "[Nr]" ?x] =>
      destruct (startswith "[Nr]" x) end.
    + destruct toc; [done|]. by apply IH.
    + destruct toc as [t|]; [|by apply IH].
      match goal with |- context [startswith "[" ?x] =>
        destruct (startswith "[" x) end; [|by apply IH].
      intros (sec & _ & H)%bind_OK.
      apply bind_OK in H as (flg & Hflg & H).
      destruct (has_char "A" flg) eqn:HA; [|by eapply IH].
      eapply IH; [|exact H]. eapply Hstep; [done| |done].
      unfold get_str in Hflg. apply bind_OK in Hflg as (v & Hv & Hs).
      unfold getitem in Hv. destruct (sec !! "Flg") as [v'|]; [|done].
      injection Hv as ->. destruct v; try done. by injection Hs as ->.
Qed.

(** X8. Every section the collector returns has the letter [A] in its
    flags: only allocatable sections are kept. *)
Theorem collect_sections_allocatable (w : world) (f : string)
    (secs : list row) (sec : row) :
  collect_sections w f = OK secs → sec ∈ secs →
  ∃ flg, sec !! "Flg" = Some (VStr flg) ∧ has_char "A" flg = true.
Proof.
  intros H Hsec.
  assert (Forall (λ sec, ∃ flg, sec !! "Flg" = Some (VStr flg) ∧
                                has_char "A" flg = true) secs) as Hall.
  { unfold collect_sections in H. apply bind_OK in H as (probe & _ & H).
    destruct (default false probe); [injection H as <-; constructor|].
    apply bind_OK in H as (out & _ & H).
    eapply (sections_loop_invariant (Forall _)); [|by constructor|exact H].
    intros secs0 sec0 flg HP Hflg HA. apply Forall_app. split; [done|].
    constructor; [|done]. eauto. }
  rewrite Forall_forall in Hall. by apply Hall.
Qed.

Lemma cells_values (words toc : list string) (k : string) (v : pyval) :
  cells words toc !! k = Some v → ∃ s, v = VStr s.
Proof.
  induction toc as [|k' toc IH] using rev_ind; [done|].
  rewrite cells_snoc. destruct (decide (k' = k)) as [->|Hne].
  - rewrite lookup_insert_eq. intros [= <-]. eauto.
  - by rewrite lookup_insert_ne.
Qed.

Lemma parse_row_text (words toc hex_keys : list string) (r : row)
    (k : string) (v : pyval) :
  parse_row words toc hex_keys = OK r → k ∉ hex_keys → r !! k = Some v →
  ∃ s, v = VStr s.
Proof.
  intros H Hk Hv. change (hex_convert hex_keys (cells words toc) = OK r) in H.
  rewrite (hex_convert_other _ _ _ _ Hk H) in Hv. by eapply cells_values.
Qed.


Lemma reloc_row_target (toc : list string) (line : string) (rel : row) :
  reloc_row toc line = OK rel → target_ok rel.
Proof.
  unfold reloc_row. intros (rel0 & Hrow & H)%bind_OK.
  assert (∀ k v, k ∉ ["Offset"; "Info"] → rel0 !! k = Some v → ∃ s, v = VStr s)
    as Htext by (intros k v; by eapply parse_row_text).
  unfold store_target in H. apply bind_OK in H as (rel1 & H1 & H).
  assert (∃ s, rel1 !! sym_name_key = Some (VStr s) ∧
               ∀ t, <[sym_name_key := t]> rel1 !! sym_name_key = Some t)
    as (cell & Hcell & _).
  { destruct (rel0 !! sym_name_key) as [v|] eqn:Hkey.
    - injection H1 as <-.
      assert (sym_name_key ∉ ["Offset"; "Info"]) as Hk
        by (apply (bool_decide_eq_true_1 _); vm_refl).
      destruct (Htext _ _ Hk Hkey) as [s ->].
      exists s. split; [done|]. intros. apply lookup_insert_eq.
    - destruct (rel0 !! "Symbol's Name") as [v|] eqn:Hn.
      + apply bind_OK in H1 as (n & _ & H1). injection H1 as <-.
        eexists. split; [apply lookup_insert_eq|].
        intros. apply lookup_insert_eq.
      + injection H1 as <-. apply bind_OK in H as (c & Hc & _).
        unfold getitem in Hc. by rewrite Hkey in Hc. }
  unfold getitem in H. rewrite Hcell in H. cbn [bind truthy] in H.
  unfold nonempty in H. destruct (bool_decide (cell = "")) eqn:Hc; cbn [negb] in H.
  - apply bool_decide_eq_true in Hc as ->. injection H as <-. by left.
  - cbn [as_str bind] in H. apply bind_OK in H as (t & Ht & H).
    injection H as <-. right.
    unfold split_target in Ht.
    destruct (match split_char "+" cell with [x] => [""; x] | _ => split_char "+" cell end)
      as [|name [|addend ?]]; try done;
      apply fmap_OK in Ht as (a & _ & ->); exists name, a; apply lookup_insert_eq.
Qed.

Lemma relocs_loop_invariant (P : list row → Prop) (f : string) :
  P [] →
  (∀ rels toc line rel, P rels → reloc_row toc line = OK rel → P (rels ++ [rel])) →
  ∀ lines toc rels result,
    P rels → relocs_loop f lines toc rels = OK result → P result.
Proof.
  intros Hnil Hstep. induction lines as [|line lines IH];
    intros toc rels result HP; cbn [relocs_loop].
  - destruct toc; [by intros [= <-]|done].
  - match goal with |- context [nonempty ?x] => destruct (nonempty x) end;
      cbn [negb]; [|by apply IH].
    destruct (bool_decide _); [by intros [= <-]|].
    destruct (is_mips_type_line _); [by apply IH|].
    destruct (startswith "Offset" _).
    { destruct toc; [done|]. by apply IH. }
    destruct (startswith "r_offset" _).
    { destruct toc; [done|]. intros (t & _ & H)%bind_OK. by eapply IH. }
    destruct toc as [t|]; [|by apply IH].
    intros (rel & Hrel & H)%bind_OK. eapply IH; [|exact H]. by eapply Hstep.
Qed.

(** X9. Every relocation the collector returns has its target stored as a
    pair of a name and an addend, or as the empty cell. *)
Theorem collect_relocs_targets (w : world) (f : string) (rels : list row)
    (rel : row) :
  collect_relocs w f = OK rels → rel ∈ rels → target_ok rel.
Proof.
  intros H Hrel.
  assert (Forall target_ok rels) as Hall.
  { unfold collect_relocs in H. apply bind_OK in H as (probe & _ & H).
    destruct (default false probe); [injection H as <-; constructor|].
    apply bind_OK in H as (out & _ & H).
    eapply (relocs_loop_invariant (Forall target_ok)); [constructor| |constructor|exact H].
    intros rels0 toc line rel0 HP Hrow%reloc_row_target.
    apply Forall_app. split; [done|]. by constructor. }
  rewrite Forall_forall in Hall. by apply Hall.
Qed.




(** ** Reading the bytes of a symbol *)

(** X11. When a symbol lies in exactly one section whose bytes are within the
    file, the reader returns as many bytes as the size of the symbol. *)
Theorem read_symbol_data_length (file : list Z) (s sec : row)
    (secs : list row) (off size : Z) :
  sections_of s secs = OK [sec] →
  get_int sec "Off" = OK off → get_int s "Size" = OK size →
  0 ≤ off → 0 ≤ size → off + size ≤ Z.of_nat (length file) →
  ∃ b, read_symbol_data file s secs = OK b ∧ Z.of_nat (length b) = size.
Proof.
  intros Hsec Hoff Hsize Hoff0 Hsize0 Hlen. unfold read_symbol_data.
  rewrite Hsec. cbn [bind]. rewrite Hoff, Hsize. cbn [bind]. unfold seek_read.
  destruct (Z.ltb_spec off 0); [lia|].
  destruct (Z.ltb_spec size (-1)); [lia|].
  destruct (Z.ltb_spec size 0); [lia|].
  eexists. split; [done|]. rewrite length_take, length_drop. lia.
Qed.

(** X12. For a symbol that starts at the address of its section, the bytes
    the reader returns are the bytes of the symbol, as the specification
    has them. *)
Theorem read_symbol_data_at_section_start (file : list Z) (s sec : row)
    (secs : list row) (address off size : Z) :
  sections_of s secs = OK [sec] →
  get_int sec "Address" = OK address → get_int s "Value" = OK address →
  get_int sec "Off" = OK off → get_int s "Size" = OK size →
  0 ≤ off → 0 ≤ size →
  read_symbol_data file s secs = spec_symbol_bytes file s sec.
Proof.
  intros Hsec Haddr Hval Hoff Hsize Hoff0 Hsize0.
  unfold read_symbol_data, spec_symbol_bytes.
  rewrite Hsec. cbn [bind]. rewrite Hoff, Haddr, Hval, Hsize. cbn [bind].
  unfold seek_read.
  destruct (Z.ltb_spec off 0); [lia|].
  destruct (Z.ltb_spec size (-1)); [lia|].
  destruct (Z.ltb_spec size 0); [lia|].
  by replace (off + (address - address)) with off by lia.
Qed.

(** X13. A symbol that starts at the end address of a section is outside of
    that section, whatever its size (also zero), and with no other
    section the reader stops with the fatal error that names the
    interval. *)
Theorem read_symbol_data_at_section_end (file : list Z) (s sec : row)
    (address sec_size size : Z) :
  get_int sec "Address" = OK address → get_int sec "Size" = OK sec_size →
  get_int s "Value" = OK (address + sec_size) → get_int s "Size" = OK size →
  is_symbol_in_section s sec = OK false ∧
  read_symbol_data file s [sec]
    = error ("failed to locate section for interval ["
             +:+ hex_of_Z (address + sec_size) +:+ ", "
             +:+ hex_of_Z (address + sec_size + size) +:+ ")").
Proof.
  intros Haddr Hsec Hval Hsize.
  assert (is_symbol_in_section s sec = OK false) as Hin.
  { unfold is_symbol_in_section. rewrite Haddr, Hsec, Hval, Hsize. cbn [bind].
    destruct (Z.ltb_spec (address + sec_size) (address + sec_size)); [lia|].
    by rewrite andb_false_r. }
  split; [done|]. unfold read_symbol_data. cbn [sections_of].
  rewrite Hin. cbn [bind]. by rewrite Hval, Hsize.
Qed.

(** ** The slots of a table *)

Section overlay_facts.
Context (ptr_size : Z) (reloc_types : gset string) (start finish : Z).

Local Abbreviation step := (overlay_step ptr_size reloc_types start finish).
Local Abbreviation index := (slot_index ptr_size reloc_types start finish).

Lemma py_setitem_length {A} (l l' : list A) (i : Z) (v : A) :
  py_setitem l i v = OK l' → length l' = length l.
Proof.
  unfold py_setitem. destruct (_ && _); [intros [= <-]; apply length_insert|].
  destruct (_ && _); [intros [= <-]; apply length_insert|done].
Qed.

Lemma overlay_step_length (slots slots' : list slot) (rel : row) :
  step slots rel = OK slots' → length slots' = length slots.
Proof.
  unfold overlay_step. intros (t & _ & H)%bind_OK.
  destruct (type_in reloc_types t); [|by injection H as <-].
  apply bind_OK in H as (offset & _ & H).
  destruct (_ && _); [|by injection H as <-].
  destruct (ptr_size =? 0); [done|]. destruct (_ <? _); [|done].
  by eapply py_setitem_length.
Qed.

Lemma overlay_length (rels : list row) (slots slots' : list slot) :
  overlay ptr_size reloc_types start finish rels slots = OK slots' →
  length slots' = length slots.
Proof.
  unfold overlay. revert slots. induction rels as [|rel rels IH]; intros slots.
  - by intros [= <-].
  - simpl. intros (s1 & H1%overlay_step_length & H)%bind_OK.
    rewrite <- H1. by apply IH.
Qed.

Lemma overlay_step_index (rel : row) :
  0 < ptr_size →
  match index rel with
  | Some i =>
      0 ≤ i ∧
      ∀ slots, step slots rel
               = if i <? Z.of_nat (length slots)
                 then OK (<[Z.to_nat i := SReloc rel]> slots)
                 else Raise AssertionError
  | None => ∀ slots slots', step slots rel = OK slots' → slots' = slots
  end.
Proof.
  intros Hptr. unfold overlay_step, slot_index, get_int, getitem.
  destruct (rel !! "Type") as [t|]; cbn [bind]; [|done].
  destruct (rel !! "Offset") as [o|]; cbn [bind].
  2:{ destruct (type_in reloc_types t); [done|]. by intros ?? [= <-]. }
  destruct (as_int o) as [offset|e]; cbn [bind].
  2:{ destruct (type_in reloc_types t); [done|]. by intros ?? [= <-]. }
  destruct (type_in reloc_types t); cbn [andb]; [|by intros ?? [= <-]].
  destruct ((start <=? offset) && (offset <? finish)) eqn:Hr;
    [|by intros ?? [= <-]].
  apply andb_true_iff in Hr as [Hlo%Z.leb_le Hhi%Z.ltb_lt].
  assert (0 ≤ (offset - start) / ptr_size) as Hi by (apply Z.div_pos; lia).
  split; [done|]. intros slots.
  destruct (Z.eqb_spec ptr_size 0); [lia|].
  destruct (Z.ltb_spec ((offset - start) / ptr_size) (Z.of_nat (length slots)));
    [|done].
  unfold py_setitem.
  destruct (Z.leb_spec 0 ((offset - start) / ptr_size)); [|lia].
  by destruct (Z.ltb_spec ((offset - start) / ptr_size)
                          (Z.of_nat (length slots))); [|lia].
Qed.

(** The effect of one step on the slot [j]. *)
Lemma overlay_step_lookup (slots slots' : list slot) (rel : row) (j : nat) :
  0 < ptr_size → step slots rel = OK slots' →
  (index rel = Some (Z.of_nat j) ∧ (j < length slots)%nat ∧
   slots' !! j = Some (SReloc rel)) ∨
  (index rel ≠ Some (Z.of_nat j) ∧ slots' !! j = slots !! j).
Proof.
  intros Hptr H. pose proof (overlay_step_index rel Hptr) as Hcases.
  destruct (index rel) as [i|].
  - destruct Hcases as [Hi0 E]. rewrite E in H.
    destruct (Z.ltb_spec i (Z.of_nat (length slots))); [|done].
    injection H as <-. destruct (decide (i = Z.of_nat j)) as [->|Hne].
    + left. split; [done|]. split; [lia|]. rewrite Nat2Z.id.
      apply list_lookup_insert_eq. lia.
    + right. split; [congruence|]. apply list_lookup_insert_ne. lia.
  - right. split; [done|]. by rewrite (Hcases _ _ H).
Qed.

Lemma overlay_untouched (rels : list row) (slots slots' : list slot) (j : nat) :
  0 < ptr_size →
  overlay ptr_size reloc_types start finish rels slots = OK slots' →
  (∀ rel, rel ∈ rels → index rel ≠ Some (Z.of_nat j)) →
  slots' !! j = slots !! j.
Proof.
  intros Hptr. unfold overlay. revert slots.
  induction rels as [|rel rels IH]; intros slots; [by intros [= <-]|].
  simpl. intros (s1 & H1 & H)%bind_OK Hnone.
  rewrite (IH _ H) by (intros r Hr; apply Hnone; by right).
  destruct (overlay_step_lookup _ _ _ j Hptr H1) as [(Hi & _)|[_ ?]]; [|done].
  exfalso. by eapply Hnone; [left|].
Qed.

Lemma overlay_provenance (rels : list row) (slots slots' : list slot)
    (j : nat) (sl : slot) :
  0 < ptr_size →
  overlay ptr_size reloc_types start finish rels slots = OK slots' →
  slots' !! j = Some sl →
  slots !! j = Some sl ∨
  ∃ rel, rel ∈ rels ∧ sl = SReloc rel ∧ index rel = Some (Z.of_nat j).
Proof.
  intros Hptr. unfold overlay. revert slots.
  induction rels as [|rel rels IH]; intros slots; [intros [= <-]; by left|].
  simpl. intros (s1 & H1 & H)%bind_OK Hsl.
  destruct (IH _ H Hsl) as [Hs1|(r & Hr & -> & Hi)].
  - destruct (overlay_step_lookup _ _ _ j Hptr H1) as [(Hi & _ & Hj)|[_ Hj]].
    + right. exists rel. rewrite Hj in Hs1. injection Hs1 as <-.
      split; [by left|done].
    + left. by rewrite <- Hj.
  - right. exists r. split; [by right|done].
Qed.

End overlay_facts.

Lemma initial_slots_offsets (ptr_size : Z) (b : list Z) (slots : list slot)
    (j : nat) (sl : slot) :
  initial_slots ptr_size b = OK slots → slots !! j = Some sl →
  ∃ n, sl = SOffset n.
Proof.
  unfold initial_slots. intros (r & _ & [= <-])%bind_OK.
  rewrite list_lookup_fmap. destruct (r !! j); [|done]. intros [= <-]. eauto.
Qed.

(** X14. The slots of a symbol: for a [typeinfo name] symbol one byte slot
    per byte; otherwise, relocations or not, the number of slots is the
    number of bytes divided by the pointer size, rounded up. *)
Theorem relocated_symbol_length (s : row) (b : list Z) (rels : list row)
    (ptr_size : Z) (reloc_types : gset string) (slots : list slot)
    (demangled : string) :
  0 < ptr_size →
  get_str s "Demangled Name" = OK demangled →
  relocated_symbol s b rels ptr_size reloc_types = OK slots →
  if startswith "typeinfo name" demangled then slots = SByte <$> b
  else Z.of_nat (length slots)
       = (Z.of_nat (length b) + ptr_size - 1) / ptr_size.
Proof.
  intros Hptr Hd. unfold relocated_symbol. rewrite Hd. cbn [bind].
  destruct (startswith "typeinfo name" demangled); [by intros [= <-]|].
  intros (s0 & H0 & H)%bind_OK.
  apply bind_OK in H as (start & _ & H). apply bind_OK in H as (size & _ & H).
  apply overlay_length in H. rewrite H. by apply initial_slots_length.
Qed.

(** X15. Every slot of a table (not a [typeinfo name] symbol) is an offset
    slot or a relocation of the list whose type is accepted, whose offset
    lies in the symbol and whose slot index is the index of the slot. *)
Theorem relocated_symbol_slots (s : row) (b : list Z) (rels : list row)
    (ptr_size : Z) (reloc_types : gset string) (slots : list slot)
    (demangled : string) (start size : Z) (j : nat) (sl : slot) :
  0 < ptr_size →
  get_str s "Demangled Name" = OK demangled →
  startswith "typeinfo name" demangled = false →
  get_int s "Value" = OK start → get_int s "Size" = OK size →
  relocated_symbol s b rels ptr_size reloc_types = OK slots →
  slots !! j = Some sl →
  (∃ n, sl = SOffset n) ∨
  ∃ rel, rel ∈ rels ∧ sl = SReloc rel ∧
         slot_index ptr_size reloc_types start (start + size) rel
           = Some (Z.of_nat j).
Proof.
  intros Hptr Hd Hti Hstart Hsize. unfold relocated_symbol.
  rewrite Hd. cbn [bind]. rewrite Hti.
  intros (s0 & H0 & H)%bind_OK Hsl. rewrite Hstart, Hsize in H. cbn [bind] in H.
  destruct (overlay_provenance _ _ _ _ _ _ _ j sl Hptr H Hsl) as [Hj|?];
    [|by right].
  left. by eapply initial_slots_offsets.
Qed.

(** X16. The slot a relocation falls into holds that relocation after the
    overlay, when no relocation later in the list falls into the same
    slot. *)
Theorem overlay_last_wins (ptr_size : Z) (reloc_types : gset string)
    (start finish : Z) (before after : list row) (rel : row)
    (slots slots' : list slot) (j : nat) :
  0 < ptr_size →
  slot_index ptr_size reloc_types start finish rel = Some (Z.of_nat j) →
  (∀ r, r ∈ after →
        slot_index ptr_size reloc_types start finish r ≠ Some (Z.of_nat j)) →
  overlay ptr_size reloc_types start finish (before ++ rel :: after) slots
    = OK slots' →
  slots' !! j = Some (SReloc rel).
Proof.
  intros Hptr Hrel Hafter. unfold overlay.
  revert slots. induction before as [|r before IH]; intros slots.
  - simpl. intros (s1 & H1 & H)%bind_OK.
    rewrite (overlay_untouched _ _ _ _ _ _ _ j Hptr H Hafter).
    by destruct (overlay_step_lookup _ _ _ _ _ _ _ j Hptr H1)
      as [(_ & _ & ?)|[? _]].
  - simpl. intros (s1 & _ & H)%bind_OK. by eapply IH.
Qed.

(** X17. A slot that no relocation of the list falls into keeps the word
    read from the bytes. *)
Theorem overlay_keeps_other_slots (s : row) (b : list Z) (rels : list row)
    (ptr_size : Z) (reloc_types : gset string) (slots0 slots : list slot)
    (demangled : string) (start size : Z) (j : nat) :
  0 < ptr_size →
  get_str s "Demangled Name" = OK demangled →
  startswith "typeinfo name" demangled = false →
  get_int s "Value" = OK start → get_int s "Size" = OK size →
  initial_slots ptr_size b = OK slots0 →
  relocated_symbol s b rels ptr_size reloc_types = OK slots →
  (∀ rel, rel ∈ rels →
     slot_index ptr_size reloc_types start (start + size) rel
       ≠ Some (Z.of_nat j)) →
  slots !! j = slots0 !! j.
Proof.
  intros Hptr Hd Hti Hstart Hsize H0. unfold relocated_symbol.
  rewrite Hd. cbn [bind]. rewrite Hti, H0, Hstart, Hsize. cbn [bind].
  intros H Hnone. by eapply overlay_untouched.
Qed.

(** ** Names in the generated code *)

Lemma strip_at_go_no_at (d : bool) (s : string) :
  has_char "@" (strip_at_go d s) = false.
Proof.
  revert d. induction s as [|c s IH]; intros d; [done|]. simpl.
  destruct d.
  - destruct (ascii_eqb c LF) eqn:Hc; [|done].
    rewrite has_char_cons, IH, orb_false_r.
    apply bool_decide_eq_true in Hc as ->. done.
  - destruct (ascii_eqb c "@") eqn:Hc; [done|].
    rewrite has_char_cons, IH, orb_false_r. by rewrite ascii_eqb_sym.
Qed.

Lemma strip_at_go_id (s : string) :
  has_char "@" s = false → strip_at_go false s = s.
Proof.
  induction s as [|c s IH]; [done|].
  rewrite has_char_cons, orb_false_iff. intros [Hc Hs]. simpl.
  rewrite ascii_eqb_sym, Hc. by rewrite IH.
Qed.

(** X18. Stripping the version suffix leaves no [@] in a name, and
    stripping twice is stripping once. *)
Theorem strip_at_idempotent (s : string) :
  has_char "@" (strip_at s) = false ∧ strip_at (strip_at s) = strip_at s.
Proof.
  split; [apply strip_at_go_no_at|].
  apply strip_at_go_id, strip_at_go_no_at.
Qed.

Lemma sanitize_go_chars (r : bool) (s : string) :
  str_forall is_alnum_us (sanitize_go r s) = true.
Proof.
  revert r. induction s as [|c s IH]; intros r; [done|]. simpl.
  destruct (is_alnum_us c) eqn:Hc; [simpl; by rewrite Hc, IH|].
  destruct r; [done|]. simpl. by rewrite IH.
Qed.

(** X19. The suffix used in the generated identifiers holds letters, digits
    and underscores only, and a suffix that already does is kept as it
    is. *)
Theorem sanitize_identifier (s : string) :
  str_forall is_alnum_us (sanitize s) = true ∧
  (str_forall is_alnum_us s = true → sanitize s = s).
Proof.
  split; [apply sanitize_go_chars|].
  unfold sanitize. induction s as [|c s IH]; [done|]. simpl.
  intros [Hc Hs]%andb_true_iff. rewrite Hc. by rewrite IH.
Qed.

(** ** The externs *)

Lemma foldlM_app {A B} (f : B → A → res B) (b : B) (l1 l2 : list A) :
  foldlM f b (l1 ++ l2) = bind (foldlM f b l1) (λ b1, foldlM f b1 l2).
Proof.
  revert b. induction l1 as [|x l1 IH]; intros b; [done|]. simpl.
  destruct (f b x); [apply IH|done].
Qed.


Lemma extern_slot_names (cls_syms : odict row) (ss ss' : list string)
    (sl : slot) :
  extern_slot cls_syms ∅ ss sl = OK ss' →
  ∃ names, ss' = ss ++ (extern_decl <$> names) ∧ extern_names_ok cls_syms names.
Proof.
  unfold extern_slot.
  destruct sl as [n|n|val]; try (intros [= <-]; exists []; split;
    [by rewrite app_nil_r|constructor]).
  intros (t & _ & H)%bind_OK.
  destruct (bool_decide (is_Some (od_get cls_syms (strip_at t.1)))) eqn:Hc;
    cbn [negb andb] in H.
  - injection H as <-. exists []. split; [by rewrite app_nil_r|constructor].
  - rewrite bool_decide_eq_false_2 in H by set_solver. cbn [negb] in H.
    injection H as <-. exists [strip_at t.1]. split; [done|].
    constructor; [|constructor]. split; [|apply strip_at_go_no_at].
    apply bool_decide_eq_false in Hc. apply eq_None_not_Some. done.
Qed.

Lemma extern_slots_names (cls_syms : odict row) (data : list slot)
    (ss ss' : list string) :
  foldlM (extern_slot cls_syms ∅) ss data = OK ss' →
  ∃ names, ss' = ss ++ (extern_decl <$> names) ∧ extern_names_ok cls_syms names.
Proof.
  revert ss. induction data as [|sl data IH]; intros ss.
  - intros [= <-]. exists []. split; [by rewrite app_nil_r|constructor].
  - simpl. intros (s1 & (n1 & -> & H1)%extern_slot_names & H)%bind_OK.
    apply IH in H as (n2 & -> & H2). exists (n1 ++ n2).
    split; [by rewrite fmap_app, app_assoc|]. by apply Forall_app.
Qed.

(** X20. The externs of the generated tables are declared only for names
    that are not class symbols, and the declared names hold no [@]: a
    relocation against a class symbol gets no extern. *)
Theorem print_externs_names (cls_syms : odict row)
    (cls_data : gmap string (list slot)) (ss ss' : list string) :
  print_externs cls_syms cls_data ss = OK ss' →
  ∃ names, ss' = ss ++ (extern_decl <$> names) ∧
           Forall (λ n, od_get cls_syms n = None ∧ has_char "@" n = false)
                  names.
Proof.
  unfold print_externs. generalize (sorted_items (map_to_list cls_data)).
  intros items. revert ss. induction items as [|item items IH]; intros ss.
  - intros [= <-]. exists []. split; [by rewrite app_nil_r|constructor].
  - simpl. intros (s1 & (n1 & -> & H1)%extern_slots_names & H)%bind_OK.
    apply IH in H as (n2 & -> & H2). exists (n1 ++ n2).
    split; [by rewrite fmap_app, app_assoc|]. by apply Forall_app.
Qed.

(** ** Demangled names *)

(** X21. The i-th line of the demangler goes to the i-th symbol; with fewer
    lines than symbols the remaining symbols are left without a demangled
    name, and with more lines than symbols the step raises [IndexError]. *)
Theorem set_demangled_lines (syms : list row) (names : list string) :
  ((length names ≤ length syms)%nat →
   ∃ r, set_demangled syms names = OK r ∧ length r = length syms ∧
        ∀ i s, syms !! i = Some s →
               r !! i = Some (match names !! i with
                              | Some n => <["Demangled Name" := VStr n]> s
                              | None => s
                              end)) ∧
  ((length syms < length names)%nat →
   set_demangled syms names = Raise IndexError).
Proof.
  revert syms. induction names as [|n names IH]; intros syms.
  - split; [|simpl; lia]. intros _. exists syms. by destruct syms.
  - destruct syms as [|s syms]; simpl.
    + split; [lia|done].
    + destruct (IH syms) as [IH1 IH2]. split.
      * intros Hlen. destruct IH1 as (r & -> & Hr & Hi); [lia|].
        cbn [bind]. eexists. split; [done|]. split; [simpl; by rewrite Hr|].
        intros [|i] s'; simpl; [by intros [= <-]|apply Hi].
      * intros Hlen. by rewrite IH2 by lia.
Qed.

(** ** Class symbols *)

Lemma until_newline_id (s : string) :
  has_char LF s = false → until_newline s = s.
Proof.
  induction s as [|c s IH]; [done|].
  rewrite has_char_cons, orb_false_iff. intros [Hc Hs]. simpl.
  rewrite ascii_eqb_sym, Hc. by rewrite IH.
Qed.

(** X22. A demangled name [vtable for C], [typeinfo for C] or
    [typeinfo name for C] is recognised with its kind and its class; in
    particular [typeinfo name for C] is not taken for a [typeinfo]. *)
Theorem match_class_kinds (typ cls : string) :
  typ ∈ ["vtable"; "typeinfo"; "typeinfo name"] →
  has_char LF cls = false →
  match_class (typ +:+ " for " +:+ cls) = Some (typ, cls).
Proof.
  intros Htyp Hcls. pose proof (until_newline_id cls Hcls) as Hid.
  repeat (apply elem_of_cons in Htyp as [->|Htyp]);
    [| |..]; try (by apply elem_of_nil in Htyp);
    vm_compute; vm_compute in Hid; by rewrite Hid.
Qed.

(** ** Mach-O symbols and the export filter *)

(** X23. A symbol of a Mach-O file passes the export filter exactly when its
    type letter is upper-case and not [U], its name is not hidden by the
    visibility table and is none of the empty name, [_init] and [_fini];
    the no-weak-symbols option has no effect on it. *)
Theorem macho_symbol_exported (vis : gmap string string) (value : Z)
    (ty name : string) (no_weak : bool) :
  is_exported no_weak (macho_symbol vis value ty name)
    = OK (isupper ty
          && negb (bool_decide (vis !! name = Some "HIDDEN"))
          && negb (bool_decide (upper ty = "U"))
          && negb (bool_decide (name = "" ∨ name = "_init" ∨ name = "_fini"))).
Proof.
  unfold is_exported, macho_symbol, getitem.
  repeat (rewrite lookup_insert_eq || (rewrite lookup_insert_ne by done)).
  cbn [bind].
  assert (py_ne (VStr (default "DEFAULT" (vis !! name))) (VStr "HIDDEN")
          = negb (bool_decide (vis !! name = Some "HIDDEN"))) as ->.
  { unfold py_ne, py_eq. f_equal. apply bool_decide_ext.
    destruct (vis !! name) as [v|]; simpl; split; congruence. }
  assert (negb (py_in (VStr name) [VStr ""; VStr "_init"; VStr "_fini"])
          = negb (bool_decide (name = "" ∨ name = "_init" ∨ name = "_fini")))
    as ->.
  { f_equal. cbn [py_in existsb]. unfold py_eq. rewrite orb_false_r.
    apply eq_true_iff_eq.
    rewrite !orb_true_iff, !bool_decide_eq_true.
    split; [intros [?|[?|?]]|intros [?|[?|?]]]; simplify_eq; auto. }
  rewrite (bool_decide_not (upper ty = "U")).
  generalize (negb (bool_decide (vis !! name = Some "HIDDEN"))).
  generalize (negb (bool_decide (name = "" ∨ name = "_init" ∨ name = "_fini"))).
  intros b1 b2.
  destruct (isupper ty), (bool_decide (upper ty = "U")),
    (bool_decide (upper ty = "T")), no_weak, b1, b2; reflexivity.
Qed.

(** ** The list of functions *)

Lemma filterM_elem {A} (pred : A → res bool) (l l' : list A) (x : A) :
  filterM pred l = OK l' → x ∈ l' → x ∈ l ∧ pred x = OK true.
Proof.
  revert l'. induction l as [|y l IH]; intros l'; simpl.
  - intros [= <-] ?%elem_of_nil. done.
  - intros (b & Hb & H)%bind_OK. apply bind_OK in H as (tl & Htl & H).
    injection H as <-. destruct b.
    + intros [->|Hx]%elem_of_cons; [split; [by left|done]|].
      destruct (IH _ Htl Hx). split; [by right|done].
    + intros Hx. destruct (IH _ Htl Hx). split; [by right|done].
Qed.


Lemma function_step_names (syms : list row) (acc all_funs : gset string)
    (name : string) :
  foldlM function_step acc syms = OK all_funs → name ∈ all_funs →
  name ∈ acc ∨ ∃ s, s ∈ syms ∧ is_default_function s name.
Proof.
  revert acc. induction syms as [|s syms IH]; intros acc; simpl.
  - intros [= <-]. by left.
  - intros (acc1 & H1 & H)%bind_OK Hname.
    destruct (IH _ H Hname) as [Hacc|(s' & Hs' & Hf)];
      [|right; exists s'; split; [by right|done]].
    unfold function_step in H1. apply bind_OK in H1 as (type & Ht & H1).
    destruct (py_eq type (VStr "FUNC")) eqn:Hfunc; [|injection H1 as <-; by left].
    apply py_eq_str in Hfunc as ->.
    apply bind_OK in H1 as (d & Hd & H1).
    destruct (truthy d) eqn:Htruthy; cbn [negb] in H1;
      [|injection H1 as <-; by left].
    apply bind_OK in H1 as (n & Hn%get_str_OK & H1). injection H1 as <-.
    apply elem_of_union in Hacc as [->%elem_of_singleton|Hacc]; [|by left].
    right. exists s. split; [by left|]. split; [done|].
    unfold getitem in Ht, Hd.
    destruct (s !! "Type") as [t|]; [|done]. injection Ht as ->.
    destruct (s !! "Default") as [d'|]; [|done]. injection Hd as ->.
    split; [done|]. eauto.
Qed.

Lemma insert_sorted_perm {A} (le : A → A → bool) (x : A) (l : list A) :
  Permutation (insert_sorted le x l) (x :: l).
Proof.
  induction l as [|y l IH]; [done|]. simpl. destruct (le y x); [|done].
  rewrite IH. apply perm_swap.
Qed.

Lemma sort_stable_perm {A} (le : A → A → bool) (l : list A) :
  Permutation (sort_stable le l) l.
Proof.
  unfold sort_stable.
  enough (∀ acc, Permutation (foldl (λ acc x, insert_sorted le x acc) acc l)
                             (acc ++ l)) as H by apply (H []).
  induction l as [|x l IH]; intros acc; [by rewrite app_nil_r|]. simpl.
  rewrite IH, insert_sorted_perm. simpl. apply Permutation_middle.
Qed.


Lemma le_str_total (a b : string) : le_str a b ∨ le_str b a.
Proof. unfold le_str. destruct (String.leb_total a b); auto. Qed.

Lemma insert_sorted_sorted (x : string) (l : list string) :
  Sorted le_str l → Sorted le_str (insert_sorted String.leb x l).
Proof.
  induction l as [|y l IH]; intros Hs; simpl; [by repeat constructor|].
  apply Sorted_inv in Hs as [Hs Hhd].
  destruct (String.leb y x) eqn:Hyx.
  - constructor; [by apply IH|].
    destruct l as [|z l]; simpl; [by constructor|].
    destruct (String.leb z x); constructor; [|done].
    by apply HdRel_inv in Hhd.
  - constructor; [by constructor|]. constructor.
    destruct (le_str_total x y); [done|]. unfold le_str in *. congruence.
Qed.

Lemma sort_stable_sorted (l : list string) :
  Sorted le_str (sort_stable String.leb l).
Proof.
  unfold sort_stable.
  enough (∀ acc, Sorted le_str acc →
                 Sorted le_str (foldl (λ acc x, insert_sorted String.leb x acc)
                                      acc l)) as H by (apply H; constructor).
  induction l as [|x l IH]; intros acc Hacc; [done|]. simpl.
  by apply IH, insert_sorted_sorted.
Qed.

(** What [main_collect] did on the way to its plan. *)
Lemma main_collect_inv (w : world) (a : args) (p : plan) :
  main_collect w a = OK p →
  ∃ (funs : option (list string)) (binary : bool) (raw syms0 syms : list row)
    (all_funs : gset string),
    plan_binary p = binary ∧
    match symbol_list a with
    | None => funs = None
    | Some path => ∃ text, read_text w path = OK text ∧
                           funs = Some (parse_symbol_list text)
    end ∧
    is_binary_file w (library a) = OK binary ∧
    path_exists w (plan_target_dir p) = true ∧
    (if binary then collect_syms w (library a)
     else collect_def_exports w (library a)) = OK raw ∧
    demangle w raw = OK syms0 ∧
    filterM (is_exported (no_weak_symbols a)) syms0 = OK syms ∧
    foldlM function_step ∅ syms = OK all_funs ∧
    plan_funs p = match funs with
                  | None => sort_stable String.leb (elements all_funs)
                  | Some l => filter (λ name, name ∈ all_funs) l
                  end.
Proof.
  unfold main_collect. intros (funs & Hfuns & H)%bind_OK.
  apply bind_OK in H as (binary & Hbin & H).
  apply bind_OK in H as (load_name & _ & H).
  destruct (path_exists w _) eqn:Hpath; cbn [negb] in H; [|done].
  apply bind_OK in H as (ptr_text & _ & H).
  apply bind_OK in H as (ptr_size & _ & H).
  apply bind_OK in H as (reloc_text & _ & H).
  apply bind_OK in H as (raw & Hraw & H).
  apply bind_OK in H as (syms0 & Hdem & H).
  apply bind_OK in H as (syms & Hsyms & H).
  apply bind_OK in H as (exported_data & _ & H).
  apply bind_OK in H as (all_funs & Hall & H).
  apply bind_OK in H as (vt & _ & H). injection H as <-.
  exists funs, binary, raw, syms0, syms, all_funs. cbn [plan_binary plan_funs plan_target_dir].
  repeat split; try done.
  destruct (symbol_list a) as [path|].
  - apply bind_OK in Hfuns as (text & Htext & Hfuns). injection Hfuns as <-.
    eauto.
  - by injection Hfuns as <-.
Qed.

(** X24. Every name in the list of functions of a run is the name of a
    collected symbol that passes the export filter, has the type FUNC and
    is a default version. *)
Theorem plan_funs_are_exported_functions (w : world) (a : args) (p : plan)
    (name : string) :
  main_collect w a = OK p → name ∈ plan_funs p →
  ∃ raw syms0 s,
    (if plan_binary p then collect_syms w (library a)
     else collect_def_exports w (library a)) = OK raw ∧
    demangle w raw = OK syms0 ∧ s ∈ syms0 ∧
    is_exported (no_weak_symbols a) s = OK true ∧
    s !! "Name" = Some (VStr name) ∧ s !! "Type" = Some (VStr "FUNC") ∧
    ∃ d, s !! "Default" = Some d ∧ truthy d = true.
Proof.
  intros (funs & binary & raw & syms0 & syms & all_funs & -> & _ & _ & _ &
          Hraw & Hdem & Hsyms & Hall & Hfuns)%main_collect_inv Hname.
  assert (name ∈ all_funs) as Hin.
  { rewrite Hfuns in Hname. destruct funs as [l|].
    - by apply list_elem_of_filter in Hname as [? _].
    - rewrite sort_stable_perm in Hname. by apply elem_of_elements in Hname. }
  destruct (function_step_names _ _ _ _ Hall Hin) as [?|(s & Hs & Hn & Ht & Hd)];
    [set_solver|].
  destruct (filterM_elem _ _ _ _ Hsyms Hs) as [Hs0 Hexp].
  by exists raw, syms0, s.
Qed.

(** X25. Without a symbol list, the list of functions is sorted and holds no
    name twice. *)
Theorem plan_funs_sorted (w : world) (a : args) (p : plan) :
  symbol_list a = None → main_collect w a = OK p →
  Sorted (λ x y, String.leb x y = true) (plan_funs p) ∧ NoDup (plan_funs p).
Proof.
  intros Hlist (funs & binary & raw & syms0 & syms & all_funs & _ & Hf & _ & _ &
                _ & _ & _ & _ & ->)%main_collect_inv.
  rewrite Hlist in Hf. subst funs. split; [apply sort_stable_sorted|].
  rewrite sort_stable_perm. apply NoDup_elements.
Qed.

(** X26. With a symbol list, the list of functions is a sublist of the names
    of the symbol list, in the order of the symbol list. *)
Theorem plan_funs_follow_symbol_list (w : world) (a : args) (p : plan)
    (path text : string) :
  symbol_list a = Some path → read_text w path = OK text →
  main_collect w a = OK p →
  plan_funs p `sublist_of` parse_symbol_list text.
Proof.
  intros Hlist Htext
    (funs & binary & raw & syms0 & syms & all_funs & _ & Hf & _ & _ &
     _ & _ & _ & _ & ->)%main_collect_inv.
  rewrite Hlist in Hf. destruct Hf as (text' & Htext' & ->).
  rewrite Htext in Htext'. injection Htext' as <-. apply sublist_filter.
Qed.


(** ** The visibility table *)

Lemma nm_visibility_fold_other (lines : list string) (vis : gmap string string)
    (name : string) :
  (∀ line a t n rest,
     line ∈ lines → split_ws line = a :: t :: n :: rest → n ≠ name) →
  foldl nm_visibility_line vis lines !! name = vis !! name.
Proof.
  revert vis. induction lines as [|line lines IH]; intros vis H; [done|]. simpl.
  rewrite IH.
  - apply nm_visibility_line_other. intros a t n rest. apply H. by left.
  - intros l a t n rest Hl. apply H. by right.
Qed.

(** X28. The visibility table maps a name to the verdict of the last line of
    the [nm] listing that has it as third word: [DEFAULT] when the type
    letter of that line is upper case, [HIDDEN] otherwise. *)
Theorem nm_visibility_entry (nm_out : string) (before after : list string)
    (line address type name : string) (rest : list string) :
  splitlines nm_out = before ++ line :: after →
  split_ws line = address :: type :: name :: rest →
  (∀ l a t n r, l ∈ after → split_ws l = a :: t :: n :: r → n ≠ name) →
  nm_visibility nm_out !! name
    = Some (if isupper type then "DEFAULT" else "HIDDEN").
Proof.
  intros Hlines Hline Hafter. unfold nm_visibility.
  rewrite Hlines, foldl_app. simpl.
  rewrite nm_visibility_fold_other by done.
  unfold nm_visibility_line at 1. rewrite Hline. apply lookup_insert_eq.
Qed.

(** ** The class symbols *)


Lemma od_set_elem {V} (d : odict V) (k : string) (v : V) (item : string * V) :
  item ∈ od_set d k v → item = (k, v) ∨ item ∈ d.
Proof.
  induction d as [|[k' v'] d IH]; simpl.
  - intros ->%list_elem_of_singleton. by left.
  - destruct (bool_decide (k' = k)).
    + intros [->|?]%elem_of_cons; [by left|]. right. by right.
    + intros [->|?]%elem_of_cons; [right; by left|].
      destruct IH as [?|?]; auto. right. by right.
Qed.

Lemma od_set_key_elem {V} (d : odict V) (k : string) (v : V) (k' : string) :
  k' ∈ (od_set d k v).*1 → k' = k ∨ k' ∈ d.*1.
Proof.
  intros ([k1 v1] & -> & [[= -> ->]|H]%od_set_elem)%list_elem_of_fmap; [by left|].
  right. apply list_elem_of_fmap. by exists (k1, v1).
Qed.

Lemma od_set_NoDup {V} (d : odict V) (k : string) (v : V) :
  NoDup d.*1 → NoDup (od_set d k v).*1.
Proof.
  induction d as [|[k0 v0] d IH]; simpl.
  - intros _. apply NoDup_singleton.
  - intros [Hk0 Hnd]%NoDup_cons.
    destruct (bool_decide (k0 = k)) eqn:Hk; simpl.
    + apply bool_decide_eq_true in Hk as ->. by constructor.
    + apply bool_decide_eq_false in Hk. constructor; [|by apply IH].
      intros [->|?]%od_set_key_elem; done.
Qed.

Lemma class_symbol_step_inv (no_weak : bool)
    (st st1 : odict (odict string) * odict row) (s : row) :
  class_symbol_step no_weak st s = OK st1 →
  NoDup st.2.*1 →
  (∀ item, item ∈ st.2 → class_symbol_ok no_weak item) →
  NoDup st1.2.*1 ∧
  ∀ item, item ∈ st1.2 →
          (item ∈ st.2 ∨ item.2 = s) ∧ class_symbol_ok no_weak item.
Proof.
  intros H1 Hnd Hall. unfold class_symbol_step in H1.
  apply bind_OK in H1 as (demangled & Hd%get_str_OK & H1).
  destruct (match_class demangled) as [[typ cls]|] eqn:Hm.
  2:{ injection H1 as <-. split; [done|]. intros item Hi. split; [by left|auto]. }
  apply bind_OK in H1 as (exported & Hexp & H1).
  destruct exported.
  2:{ injection H1 as <-. split; [done|]. intros item Hi. split; [by left|auto]. }
  apply bind_OK in H1 as (name & Hname%get_str_OK & H1). injection H1 as <-.
  cbn [fst snd]. split; [by apply od_set_NoDup|].
  intros item [->|Hi]%od_set_elem; [|split; [by left|auto]].
  split; [by right|]. split; [done|]. split; [done|].
  exists demangled. split; [done|]. by rewrite Hm.
Qed.

(** X29. The class symbols collected for the tables are symbols of the input
    that pass the export filter and whose demangled name reads [vtable for],
    [typeinfo for] or [typeinfo name for] a class; each is filed under its own
    name, and no name is filed twice. *)
Theorem class_symbols_exported (no_weak : bool) (syms : list row)
    (tables : odict (odict string)) (classes : odict row) :
  foldlM (class_symbol_step no_weak) ([], []) syms = OK (tables, classes) →
  NoDup classes.*1 ∧
  ∀ item, item ∈ classes →
    item.2 ∈ syms ∧ item.2 !! "Name" = Some (VStr item.1) ∧
    is_exported no_weak item.2 = OK true ∧
    ∃ demangled, item.2 !! "Demangled Name" = Some (VStr demangled) ∧
                 is_Some (match_class demangled).
Proof.
  enough (∀ st st',
            foldlM (class_symbol_step no_weak) st syms = OK st' →
            NoDup st.2.*1 →
            (∀ item, item ∈ st.2 → class_symbol_ok no_weak item) →
            NoDup st'.2.*1 ∧
            ∀ item, item ∈ st'.2 →
                    (item ∈ st.2 ∨ item.2 ∈ syms) ∧ class_symbol_ok no_weak item)
    as Hgen.
  { intros H. destruct (Hgen _ _ H) as [Hnd Hall]; [constructor|by intros ? ?%elem_of_nil|].
    split; [done|]. intros item Hitem.
    destruct (Hall item Hitem) as [[?%elem_of_nil|?] (? & ? & ?)]; done. }
  induction syms as [|s syms IH]; intros st st'; simpl.
  - intros [= <-] Hnd Hall. split; [done|]. intros item Hitem. split; [by left|auto].
  - intros (st1 & H1 & H)%bind_OK Hnd Hall.
    destruct (class_symbol_step_inv _ _ _ _ H1 Hnd Hall) as [Hnd1 Hall1].
    destruct (IH _ _ H Hnd1) as [Hnd' Hall']; [intros item Hi; by apply Hall1|].
    split; [done|]. intros item Hitem.
    destruct (Hall' item Hitem) as [[Hi|Hi] Hok]; split; try done.
    + destruct (Hall1 item Hi) as [[?|<-] _]; [by left|right; by left].
    + right. by right.
Qed.

(** ** Every class symbol gets its bytes and its slots *)

Lemma foldlM_insert_keys {A V} (f : A → res V) (key : A → string)
    (items : list A) (m m' : gmap string V) :
  foldlM (λ (data : gmap string V) (item : A),
            bind (f item) (λ v, OK (<[key item := v]> data))) m items = OK m' →
  ∀ k, is_Some (m' !! k) ↔ is_Some (m !! k) ∨ k ∈ key <$> items.
Proof.
  revert m. induction items as [|item items IH]; intros m; simpl.
  - intros [= <-] k. split; [by left|].
    intros [?|?%elem_of_nil]; done.
  - intros (m1 & (v & _ & [= <-])%bind_OK & H)%bind_OK k.
    rewrite (IH _ H), lookup_insert_is_Some, elem_of_cons.
    split.
    + intros [[->|[_ ?]]|?]; auto.
    + intros [?|[->|?]]; auto.
      destruct (decide (key item = k)) as [->|]; auto.
Qed.

Lemma mapM_keyed_snd {A B} (g : A → res B) (l : list A) (keyed : list (B * A)) :
  mapM (λ item, bind (g item) (λ v, OK (v, item))) l = OK keyed →
  snd <$> keyed = l.
Proof.
  revert keyed. induction l as [|item l IH]; intros keyed; simpl.
  - by intros [= <-].
  - intros (y & (v & _ & [= <-])%bind_OK & Hk)%bind_OK.
    apply bind_OK in Hk as (ys & Hys & [= <-]). simpl. f_equal. by apply IH.
Qed.

Lemma relocated_fold_keys (bites : gmap string (list Z)) (rels : list row)
    (ptr_size : Z) (reloc_types : gset string) (items : list (string * row))
    (m m' : gmap string (list slot)) :
  foldlM (λ (data : gmap string (list slot)) (item : string * row),
            match bites !! item.1 with
            | None => Raise AssertionError
            | Some b =>
                bind (relocated_symbol item.2 b rels ptr_size reloc_types)
                     (λ slots, OK (<[item.1 := slots]> data))
            end) m items = OK m' →
  ∀ k, is_Some (m' !! k) ↔ is_Some (m !! k) ∨ k ∈ items.*1.
Proof.
  revert m. induction items as [|item items IH]; intros m; simpl.
  - intros [= <-] k. split; [by left|].
    intros [?|?%elem_of_nil]; done.
  - intros (m1 & H1 & H)%bind_OK k.
    destruct (bites !! item.1) as [b|]; [|done].
    apply bind_OK in H1 as (v & _ & [= <-]).
    rewrite (IH _ H), lookup_insert_is_Some, elem_of_cons.
    split.
    + intros [[->|[_ ?]]|?]; auto.
    + intros [?|[->|?]]; auto.
      destruct (decide (item.1 = k)) as [->|]; auto.
Qed.

(** X30. The raw bytes are read for exactly the symbols handed over, and the
    slots computed from these bytes have an entry for exactly the same
    names: a class symbol is never left without its data. *)
Theorem class_data_covers_symbols (w : world) (input_name : string)
    (syms : odict row) (secs rels : list row) (ptr_size : Z)
    (reloc_types : gset string) (bites : gmap string (list Z))
    (data : gmap string (list slot)) :
  read_unrelocated_data w input_name syms secs = OK bites →
  collect_relocated_data syms bites rels ptr_size reloc_types = OK data →
  ∀ name, (is_Some (bites !! name) ↔ name ∈ syms.*1) ∧
          (is_Some (data !! name) ↔ name ∈ syms.*1).
Proof.
  intros Hb Hd name. split.
  - unfold read_unrelocated_data in Hb. apply bind_OK in Hb as (file & _ & H).
    apply bind_OK in H as (keyed & Hkeyed%mapM_keyed_snd & H).
    rewrite (foldlM_insert_keys (λ item : string * row,
               read_symbol_data file item.2 secs) fst _ _ _ H name).
    rewrite lookup_empty, is_Some_alt, <- Hkeyed.
    rewrite (sort_stable_perm _ keyed).
    split; [by intros [?|?]|by right].
  - unfold collect_relocated_data in Hd.
    rewrite (relocated_fold_keys _ _ _ _ _ _ _ Hd name).
    rewrite lookup_empty, is_Some_alt. unfold sorted_items.
    rewrite (sort_stable_perm _ syms).
    split; [by intros [?|?]|by right].
Qed.


(** ** The properties on sample inputs *)

(** Closes a decidable statement about closed terms by evaluation. *)
Ltac by_decide := apply (bool_decide_eq_true_1 _); vm_refl.

Lemma parse_row_cell_witness :
  memcpy_cells !! "Name" = Some (VStr (default "" (memcpy_words !! 7%nat))).
Proof.
  apply (parse_row_cell memcpy_words symtab_toc ["Value"] memcpy_cells 7 "Name").
  - by_decide.
  - vm_refl.
  - by_decide.
  - vm_refl.
Defined.

Lemma parse_row_hex_cell_witness :
  if bool_decide (default "" (memcpy_words !! 1%nat) = "")
  then memcpy_cells !! "Value" = Some (VStr "")
  else ∃ n, py_int 16 (default "" (memcpy_words !! 1%nat)) = OK n ∧
            memcpy_cells !! "Value" = Some (VInt n).
Proof.
  apply (parse_row_hex_cell memcpy_words symtab_toc ["Value"] memcpy_cells 1 "Value").
  - by_decide.
  - by_decide.
  - vm_refl.
  - by_decide.
  - vm_refl.
Defined.

Lemma parse_row_missing_column_witness :
  ∃ e, parse_row memcpy_words rela_toc ["Value"] = Raise e.
Proof.
  apply (parse_row_missing_column memcpy_words rela_toc ["Value"] "Value");
    by_decide.
Defined.

Lemma collect_syms_no_header_witness :
  collect_syms (listing_world no_symtab) "libv.so"
    = error ("failed to analyze symbols in " +:+ "libv.so").
Proof.
  apply (collect_syms_no_header (listing_world no_symtab) "libv.so"
           versions_nm "" no_symtab "" (Some false)).
  - vm_refl.
  - vm_refl.
  - reflexivity.
  - vm_refl.
  - apply Forall_forall. by_decide.
Defined.

Lemma collect_syms_trailing_blank_witness :
  ∃ e, collect_syms (listing_world (text_of_lines (symtab_lines ++ [""])))
         "libv.so" = Raise e.
Proof.
  apply (collect_syms_trailing_blank
           (listing_world (text_of_lines (symtab_lines ++ [""]))) "libv.so"
           versions_nm "" (text_of_lines (symtab_lines ++ [""])) ""
           (Some false) symtab_lines "").
  - vm_refl.
  - vm_refl.
  - reflexivity.
  - vm_refl.
  - vm_refl.
  - vm_refl.
Defined.

Lemma def_exports_are_functions_witness :
  ∃ name,
    def_symbol "alpha" = def_symbol name ∧ name ≠ "" ∧
    str_forall is_alnum_us name = true ∧
    ∀ no_weak,
      is_exported no_weak (def_symbol "alpha")
        = OK (negb (bool_decide (name = "_init" ∨ name = "_fini"))).
Proof.
  apply (def_exports_are_functions def_world "exports.def" def_syms
           (def_symbol "alpha")).
  - vm_refl.
  - apply list_elem_of_lookup_2 with 0%nat. vm_refl.
Defined.

Lemma def_exports_need_exports_line_witness :
  collect_def_exports (text_world library_only) "exports.def" = OK [].
Proof.
  apply (def_exports_need_exports_line (text_world library_only) "exports.def"
           library_only).
  - vm_refl.
  - apply Forall_forall. by_decide.
Defined.

Lemma collect_sections_allocatable_witness :
  ∃ flg, text_section !! "Flg" = Some (VStr flg) ∧ has_char "A" flg = true.
Proof.
  apply (collect_sections_allocatable cxx_world "libc1.so" cxx_secs text_section).
  - vm_refl.
  - apply list_elem_of_lookup_2 with 0%nat. vm_refl.
Defined.

Lemma collect_relocs_targets_witness : target_ok typeinfo_reloc.
Proof.
  apply (collect_relocs_targets cxx_world "libc1.so" cxx_rels typeinfo_reloc).
  - vm_refl.
  - apply list_elem_of_lookup_2 with 0%nat. vm_refl.
Defined.


Lemma read_symbol_data_length_witness :
  ∃ b, read_symbol_data sample_file second_symbol [sample_section] = OK b ∧
       Z.of_nat (length b) = 8.
Proof.
  apply (read_symbol_data_length sample_file second_symbol sample_section
           [sample_section] 0 8).
  - vm_refl.
  - vm_refl.
  - vm_refl.
  - apply Z.leb_le. vm_refl.
  - apply Z.leb_le. vm_refl.
  - apply Z.leb_le. vm_refl.
Defined.

Lemma read_symbol_data_at_section_start_witness :
  read_symbol_data sample_file sample_vtable [sample_section]
    = spec_symbol_bytes sample_file sample_vtable sample_section.
Proof.
  apply (read_symbol_data_at_section_start sample_file sample_vtable
           sample_section [sample_section] 256 0 16).
  - vm_refl.
  - vm_refl.
  - vm_refl.
  - vm_refl.
  - vm_refl.
  - apply Z.leb_le. vm_refl.
  - apply Z.leb_le. vm_refl.
Defined.

Lemma read_symbol_data_at_section_end_witness :
  is_symbol_in_section end_symbol sample_section = OK false ∧
  read_symbol_data sample_file end_symbol [sample_section]
    = error ("failed to locate section for interval ["
             +:+ hex_of_Z (256 + 32) +:+ ", "
             +:+ hex_of_Z (256 + 32 + 0) +:+ ")").
Proof.
  apply (read_symbol_data_at_section_end sample_file end_symbol sample_section
           256 32 0); vm_refl.
Defined.

Lemma relocated_symbol_length_witness :
  if startswith "typeinfo name" "vtable for C"
  then sample_slots = SByte <$> two_words
  else Z.of_nat (length sample_slots)
       = (Z.of_nat (length two_words) + 8 - 1) / 8.
Proof.
  apply (relocated_symbol_length sample_vtable two_words [reloc_a; reloc_c] 8
           x86_reloc_types sample_slots "vtable for C").
  - apply Z.ltb_lt. vm_refl.
  - vm_refl.
  - vm_refl.
Defined.

Lemma relocated_symbol_slots_witness :
  (∃ n, SReloc reloc_c = SOffset n) ∨
  ∃ rel, rel ∈ [reloc_a; reloc_c] ∧ SReloc reloc_c = SReloc rel ∧
         slot_index 8 x86_reloc_types 256 (256 + 16) rel = Some (Z.of_nat 1).
Proof.
  apply (relocated_symbol_slots sample_vtable two_words [reloc_a; reloc_c] 8
           x86_reloc_types sample_slots "vtable for C" 256 16 1 (SReloc reloc_c)).
  - apply Z.ltb_lt. vm_refl.
  - vm_refl.
  - vm_refl.
  - vm_refl.
  - vm_refl.
  - vm_refl.
  - vm_refl.
Defined.

Lemma overlay_last_wins_witness :
  overlaid_slots !! 0%nat = Some (SReloc reloc_b).
Proof.
  apply (overlay_last_wins 8 x86_reloc_types 256 272 [reloc_a] [reloc_c]
           reloc_b word_slots overlaid_slots 0).
  - apply Z.ltb_lt. vm_refl.
  - vm_refl.
  - apply Forall_forall. by_decide.
  - vm_refl.
Defined.

Lemma overlay_keeps_other_slots_witness :
  first_slot_only !! 1%nat = word_slots !! 1%nat.
Proof.
  apply (overlay_keeps_other_slots sample_vtable two_words [reloc_a] 8
           x86_reloc_types word_slots first_slot_only "vtable for C" 256 16 1).
  - apply Z.ltb_lt. vm_refl.
  - vm_refl.
  - vm_refl.
  - vm_refl.
  - vm_refl.
  - vm_refl.
  - vm_refl.
  - apply Forall_forall. by_decide.
Defined.

Lemma print_externs_names_witness :
  ∃ names, abstract_externs = [] ++ (extern_decl <$> names) ∧
           Forall (λ n, od_get abstract_syms n = None ∧ has_char "@" n = false)
                  names.
Proof.
  apply (print_externs_names abstract_syms abstract_data [] abstract_externs).
  vm_refl.
Defined.

Lemma match_class_kinds_witness :
  match_class ("typeinfo name" +:+ " for " +:+ "std::exception")
    = Some ("typeinfo name", "std::exception").
Proof.
  apply (match_class_kinds "typeinfo name" "std::exception").
  - by_decide.
  - vm_refl.
Defined.

Lemma plan_funs_are_exported_functions_witness :
  ∃ raw syms0 s,
    (if plan_binary cxx_plan then collect_syms cxx_world (library (cxx_args None))
     else collect_def_exports cxx_world (library (cxx_args None))) = OK raw ∧
    demangle cxx_world raw = OK syms0 ∧ s ∈ syms0 ∧
    is_exported (no_weak_symbols (cxx_args None)) s = OK true ∧
    s !! "Name" = Some (VStr "_ZN1C3fooEv") ∧
    s !! "Type" = Some (VStr "FUNC") ∧
    ∃ d, s !! "Default" = Some d ∧ truthy d = true.
Proof.
  apply (plan_funs_are_exported_functions cxx_world (cxx_args None) cxx_plan
           "_ZN1C3fooEv").
  - vm_refl.
  - apply list_elem_of_lookup_2 with 0%nat. vm_refl.
Defined.

Lemma plan_funs_sorted_witness :
  Sorted (λ x y, String.leb x y = true) (plan_funs cxx_plan) ∧
  NoDup (plan_funs cxx_plan).
Proof.
  apply (plan_funs_sorted cxx_world (cxx_args None) cxx_plan).
  - reflexivity.
  - vm_refl.
Defined.

Lemma plan_funs_follow_symbol_list_witness :
  plan_funs cxx_listed_plan
    `sublist_of` parse_symbol_list
                   (text_of_lines ["bar  # the plain function"; ""; "baz"]).
Proof.
  apply (plan_funs_follow_symbol_list cxx_world (cxx_args (Some "symbols.txt"))
           cxx_listed_plan "symbols.txt").
  - reflexivity.
  - vm_refl.
  - vm_refl.
Defined.


Lemma nm_visibility_entry_witness :
  nm_visibility cxx_nm !! "_ZTV1C"
    = Some (if isupper "V" then "DEFAULT" else "HIDDEN").
Proof.
  apply (nm_visibility_entry cxx_nm ["0000000000000080 T _ZN1C3fooEv"]
           ["0000000000000110 V _ZTI1C"; "000000000000008b T bar";
            "                 U malloc"]
           "0000000000000100 V _ZTV1C" "0000000000000100" "V" "_ZTV1C" []).
  - vm_refl.
  - vm_refl.
  - intros l a t n r Hl Hs.
    assert (Forall (λ l, default "" (split_ws l !! 2%nat) ≠ "_ZTV1C")
              ["0000000000000110 V _ZTI1C"; "000000000000008b T bar";
               "                 U malloc"]) as Hall by by_decide.
    intros Hn. apply (proj1 (Forall_forall _ _) Hall l Hl).
    rewrite Hs. exact Hn.
Defined.

Lemma class_symbols_exported_witness :
  NoDup sample_classes.2.*1 ∧
  ∀ item, item ∈ sample_classes.2 →
    item.2 ∈ [sample_vtable; end_symbol; second_symbol] ∧
    item.2 !! "Name" = Some (VStr item.1) ∧
    is_exported false item.2 = OK true ∧
    ∃ demangled, item.2 !! "Demangled Name" = Some (VStr demangled) ∧
                 is_Some (match_class demangled).
Proof.
  apply (class_symbols_exported false [sample_vtable; end_symbol; second_symbol]
           sample_classes.1 sample_classes.2).
  vm_refl.
Defined.

Lemma class_data_covers_symbols_witness :
  (is_Some (sample_bites !! "_ZTI1C") ↔ "_ZTI1C" ∈ sample_classes.2.*1) ∧
  (is_Some (sample_data !! "_ZTI1C") ↔ "_ZTI1C" ∈ sample_classes.2.*1).
Proof.
  apply (class_data_covers_symbols (file_world sample_file) "libc1.so"
           sample_classes.2 [sample_section] [reloc_a; reloc_c] 8
           x86_reloc_types sample_bites sample_data).
  - vm_refl.
  - vm_refl.
Defined.

Lemma sanitize_identifier_witness :
  str_forall is_alnum_us (sanitize "libfoo.so.1") = true ∧
  sanitize "libfoo_so_1" = "libfoo_so_1".
Proof.
  split.
  - apply (proj1 (sanitize_identifier "libfoo.so.1")).
  - apply (proj2 (sanitize_identifier "libfoo_so_1")). vm_refl.
Defined.

Lemma set_demangled_lines_witness :
  (∃ r, set_demangled [sample_vtable; second_symbol] ["vtable for C"] = OK r ∧
        length r = 2%nat) ∧
  set_demangled [sample_vtable] ["vtable for C"; "typeinfo for C"]
    = Raise IndexError.
Proof.
  split.
  - destruct (proj1 (set_demangled_lines [sample_vtable; second_symbol]
                       ["vtable for C"]))
      as (r & Hr & Hlen & _); [apply Nat.leb_le; vm_refl|].
    exists r. split; [exact Hr|exact Hlen].
  - apply (proj2 (set_demangled_lines [sample_vtable]
                    ["vtable for C"; "typeinfo for C"])).
    apply Nat.ltb_lt. vm_refl.
Defined.
